(** * Weekly data processor: the cleaning pipeline of [app.py]

  A shallow embedding of the record pipeline of [app.py] (JSON records
  to a cleaned, geocoded table joined with a postcode table) and the
  properties of its stages.

  Modelling conventions.
  - Python [str] values are [string]s whose characters are read as the
    code points 0 to 255; [str.isspace] and [str.isdigit] are written
    out for that range.
  - A cell of a pandas frame is a Python object ([value]); a float is
    kept by its [repr], the missing-value marker NaN and [None] are
    constructors of their own.  Numeric dtypes of columns are not
    tracked.
  - A frame is the ordered list of its named columns.
  - An exception is a value of [exn]; code that may raise returns a
    [result]. Calls to streamlit, to the geocoding client and to the
    Excel writer are recorded as [event]s. *)

From Stdlib Require Import ZArith Ascii DecimalString.
From stdpp Require Import base list strings gmap.


(** ** Python string methods *)

Module PyStr.

Definition code (c : ascii) : N := N_of_ascii c.

(** [str.isspace] on one character, code points below 256. *)
Definition is_space (c : ascii) : bool :=
  let n := code c in
  ((9 <=? n) && (n <=? 13) || (28 <=? n) && (n <=? 32)
   || (n =? 133) || (n =? 160))%N.

(** The decimal digits ['0'] to ['9']. *)
Definition is_decimal (c : ascii) : bool :=
  let n := code c in ((48 <=? n) && (n <=? 57))%N.

(** [str.isdigit] on one character: the decimal digits and the
    superscript digits U+00B2, U+00B3, U+00B9. *)
Definition is_digit (c : ascii) : bool :=
  let n := code c in
  (is_decimal c || (n =? 178) || (n =? 179) || (n =? 185))%N.

Fixpoint all (p : ascii -> bool) (s : string) : bool :=
  match s with
  | EmptyString => true
  | String c s' => p c && all p s'
  end.

(** [s.isdigit()]: non-empty and every character a digit. *)
Definition isdigit (s : string) : bool :=
  match s with
  | EmptyString => false
  | _ => all is_digit s
  end.

(** [s.startswith(p)] *)
Definition startswith (p s : string) : bool := String.prefix p s.

(** [s[n:]] *)
Fixpoint drop (n : nat) (s : string) : string :=
  match n, s with
  | O, _ => s
  | S n', String _ s' => drop n' s'
  | S _, EmptyString => EmptyString
  end.

(** [s[:n]] *)
Fixpoint take (n : nat) (s : string) : string :=
  match n, s with
  | S n', String c s' => String c (take n' s')
  | _, _ => EmptyString
  end.

(** [s.endswith(p)] *)
Definition endswith (p s : string) : bool :=
  (String.length p <=? String.length s)%nat
  && String.eqb (drop (String.length s - String.length p) s) p.

(** [s.replace(old, new, count)] for a non-empty [old]: the
    occurrences of [old] are found from the left and do not overlap;
    [count = None] replaces them all. [skip] counts the characters of
    an occurrence still to be passed over. *)
Fixpoint replace_go (old new : string) (count : option nat) (skip : nat)
    (s : string) : string :=
  match s with
  | EmptyString => EmptyString
  | String c s' =>
      match skip with
      | S k => replace_go old new count k s'
      | O =>
          match count with
          | Some O => s
          | _ =>
              if String.prefix old s
              then new +:+ replace_go old new (pred <$> count)
                             (String.length old - 1) s'
              else String c (replace_go old new count O s')
          end
      end
  end.

Definition replace (old new : string) (s : string) : string :=
  replace_go old new None O s.

Definition replace_n (old new : string) (count : nat) (s : string) : string :=
  replace_go old new (Some count) O s.

(** [s.lstrip(chars)] and [s.rstrip(chars)], the character set given
    as a predicate. *)
Fixpoint lstrip_by (p : ascii -> bool) (s : string) : string :=
  match s with
  | EmptyString => EmptyString
  | String c s' => if p c then lstrip_by p s' else s
  end.

Fixpoint rstrip_by (p : ascii -> bool) (s : string) : string :=
  match s with
  | EmptyString => EmptyString
  | String c s' =>
      match rstrip_by p s' with
      | EmptyString => if p c then EmptyString else String c EmptyString
      | r => String c r
      end
  end.

(** [s.rstrip(',')] *)
Definition rstrip_comma : string -> string :=
  rstrip_by (fun c => Ascii.eqb c ",").

(** [s.strip()] *)
Definition strip (s : string) : string :=
  lstrip_by is_space (rstrip_by is_space s).

(** [int(s)] for a string that already passed [isdigit]: the
    superscript digits are digits for [isdigit] but [int] raises
    [ValueError] on them ([None] here). *)
Fixpoint int_go (acc : Z) (s : string) : option Z :=
  match s with
  | EmptyString => Some acc
  | String c s' =>
      if is_decimal c
      then int_go (10 * acc + (Z.of_N (code c) - 48))%Z s'
      else None
  end.

Definition int (s : string) : option Z :=
  match s with
  | EmptyString => None
  | _ => int_go 0%Z s
  end.

(** [str(n)] for an integer. *)
Definition of_Z (n : Z) : string := NilZero.string_of_int (Z.to_int n).

Definition newline : ascii := ascii_of_nat 10.
Definition nl : string := String newline EmptyString.

End PyStr.

(** ** The address cleaner, [clean_address] *)

Definition MALAYSIA : string := ", MALAYSIA".

(** [process_address], the function mapped over the address list. *)
Definition process_address (address : string) : string :=
  let address :=
    PyStr.strip (PyStr.rstrip_comma
      (PyStr.replace ", ," "," (PyStr.replace PyStr.nl " " address))) in
  if negb (PyStr.endswith MALAYSIA address)
  then address +:+ MALAYSIA
  else address.

(** The address of the specification's example. *)
Definition spec_example_address : string :=
  "Jalan X,, " +:+ PyStr.nl +:+ "Taman Y,".


(** ** Cells, exceptions and frames *)

(** A cell: a Python object as [json_normalize] and pandas leave it. A
    float is kept by its [repr]; NaN is the missing-value marker. *)
Inductive value :=
| VStr (s : string)
| VInt (n : Z)
| VFloat (repr : string)
| VBool (b : bool)
| VNaN
| VNone.

Global Instance value_eq_dec : EqDecision value.
Proof. solve_decision. Defined.

Inductive exn :=
| KeyError (key : string)
| TypeError
| AttributeError
| ValueError
| FileNotFoundError.

Inductive result (A : Type) :=
| Ok (a : A)
| Raise (e : exn).
Arguments Ok {A} a.
Arguments Raise {A} e.

Definition rbind {A B} (r : result A) (f : A -> result B) : result B :=
  match r with
  | Ok a => f a
  | Raise e => Raise e
  end.

Global Instance result_ret : MRet result := fun A a => Ok a.
Global Instance result_bind : MBind result := fun A B f r => rbind r f.

(** [Series.apply(f)] with an [f] that may raise: the first exception
    ends the loop. *)
Fixpoint series_apply {A B} (f : A -> result B) (l : list A) : result (list B) :=
  match l with
  | [] => Ok []
  | x :: l' =>
      rbind (f x) (fun y => rbind (series_apply f l') (fun ys => Ok (y :: ys)))
  end.

(** [pd.isna(v)] *)
Definition isna (v : value) : bool :=
  match v with
  | VNaN | VNone => true
  | _ => false
  end.

(** [str(v)] *)
Definition py_str (v : value) : string :=
  match v with
  | VStr s => s
  | VInt n => PyStr.of_Z n
  | VFloat r => r
  | VBool true => "True"
  | VBool false => "False"
  | VNaN => "nan"
  | VNone => "None"
  end.

Abbreviation column := (list value).
Abbreviation DataFrame := (list (string * list value)).

(** [df.columns] *)
Definition columns (df : DataFrame) : list string := df.*1.

(** [c in df.columns] *)
Definition has_column (c : string) (df : DataFrame) : bool :=
  bool_decide (c ∈ columns df).

(** The first column of the name [c]. It stands for [df[c]] where [c]
    names one column; where two columns have the name, [df[c]] is a
    frame and not a column, which this development does not describe. *)
Fixpoint get_column (c : string) (df : DataFrame) : option column :=
  match df with
  | [] => None
  | (n, col) :: df' => if decide (n = c) then Some col else get_column c df'
  end.

(** [df[c]] *)
Definition getitem (c : string) (df : DataFrame) : result column :=
  match get_column c df with
  | Some col => Ok col
  | None => Raise (KeyError c)
  end.

(** [df[c] = col]: an existing column is replaced where it stands, a
    new one is added last. *)
Definition setitem (c : string) (col : column) (df : DataFrame) : DataFrame :=
  if has_column c df
  then (fun p : string * column => if decide (p.1 = c) then (c, col) else p) <$> df
  else df ++ [(c, col)].

(** [len(df)] *)
Definition nrows (df : DataFrame) : nat :=
  match df with
  | [] => 0
  | (_, col) :: _ => length col
  end.

(** [df.empty]: no column or no row. *)
Definition empty (df : DataFrame) : bool :=
  match df with
  | [] => true
  | _ => Nat.eqb (nrows df) 0
  end.

(** [df[names]] for a list of labels: [KeyError] on a label that is no
    column; a label gives every column of that name. *)
Fixpoint getitems (names : list string) (df : DataFrame) : result DataFrame :=
  match names with
  | [] => Ok []
  | n :: names' =>
      if has_column n df
      then rbind (getitems names' df)
             (fun rest => Ok (filter (fun p : string * column => p.1 = n) df ++ rest))
      else Raise (KeyError n)
  end.

(** [df.rename(columns=mapping)] *)
Definition rename (mapping : gmap string string) (df : DataFrame) : DataFrame :=
  (fun p : string * column => (default p.1 (mapping !! p.1), p.2)) <$> df.

(** [df.drop(columns=names, errors='ignore')] *)
Definition drop_columns (df : DataFrame) (columns_to_drop : list string) : DataFrame :=
  filter (fun p : string * column => p.1 ∉ columns_to_drop) df.

(** ** SchemaNormalizer *)

Definition original_order : list string :=
  [ "program"; "date"; "ic"; "name"; "age"; "ethnicity"; "sex";
    "state"; "district"; "postcode"; "lat"; "lon"; "address"; "phone";
    "email"; "salary_monthly"; "miskin"; "miskin_tegar"; "str_mof";
    "belum_disemak" ].

Definition existing_columns (df : DataFrame) : list string :=
  filter (fun col => col ∈ columns df) original_order.

Definition additional_columns (df : DataFrame) : list string :=
  filter (fun col => col ∉ original_order) (columns df).

Definition reorder_columns (df : DataFrame) : result DataFrame :=
  let new_order := existing_columns df ++ additional_columns df in
  getitems new_order df.

Definition column_mapping : gmap string string :=
  list_to_map
    [ ("form_category", "program"); ("createdAt", "date"); ("ic_number", "ic");
      ("name", "name"); ("race", "ethnicity"); ("gender", "sex");
      ("state", "state"); ("postcode", "postcode"); ("address", "address");
      ("mobile_number", "phone"); ("email", "email");
      ("monthly_income", "salary_monthly") ].

Definition rename_columns (df : DataFrame) : DataFrame :=
  rename column_mapping df.

(** [Series.map(value_mapping).fillna(series)] on one cell: a value that
    is no key gives NaN, which [fillna] replaces by the original value,
    so that only a text that is a key changes. *)
Definition map_fillna (value_mapping : gmap string string) (v : value) : value :=
  match v with
  | VStr s =>
      match value_mapping !! s with
      | Some r => VStr r
      | None => v
      end
  | _ => v
  end.

Definition rename_program_values (df : DataFrame)
    (value_mapping : gmap string string) : DataFrame :=
  match get_column "program" df with
  | Some col => setitem "program" (map_fillna value_mapping <$> col) df
  | None => df
  end.

(** ** FieldFormatter *)

Definition reformat_dates (df : DataFrame) : DataFrame :=
  match get_column "date" df with
  | Some col =>
      setitem "date" ((fun v => VStr (PyStr.take 10 (py_str v))) <$> col) df
  | None => df
  end.

(** What the Python runtime and the geocoding service provide and this
    development does not compute: [str.upper], the float formatting
    [f"{float(s):.2f}"] ([None] when [float] raises [ValueError]), and
    the geocoding client. *)
Inductive gmaps_response :=
| Candidates (locations : list (string * string))
| ApiError
| OtherError.

Record Runtime := {
  str_upper : string -> string;
  float_2f : string -> option string;
  (** [gmaps]: [None] when [init_gmaps_client] failed; the client
      answers the [n]-th call of a run for an address. A candidate is
      given by the [repr]s of its [lat] and [lng]. *)
  gmaps : option (nat -> string -> gmaps_response)
}.

(** [series.str]: pandas infers the type of the cells that are not
    missing and raises [AttributeError] unless it is text or mixed. The
    cells are text or mixed when one of them is a [str], or when
    booleans come together with numbers; numbers alone and booleans
    alone are not. A column of missing cells only is accepted when it
    holds objects, that is a [None]. *)
(** The cell is a [str]. *)
Definition is_text (v : value) : bool :=
  match v with
  | VStr _ => true
  | _ => false
  end.

Definition is_bool (v : value) : bool :=
  match v with
  | VBool _ => true
  | _ => false
  end.

Definition is_number (v : value) : bool :=
  match v with
  | VInt _ | VFloat _ => true
  | _ => false
  end.

Definition is_None (v : value) : bool :=
  match v with
  | VNone => true
  | _ => false
  end.

Definition holds_text (col : column) : bool :=
  match filter (fun v => isna v = false) col with
  | [] => existsb is_None col
  | present =>
      existsb is_text present || (existsb is_bool present && existsb is_number present)
  end.

(** [series.str.upper()]: text is uppercased, a missing value is kept,
    any other object gives NaN. *)
Definition series_str_upper (R : Runtime) (col : column) : result column :=
  if holds_text col
  then Ok ((fun v => match v with
                     | VStr s => VStr (str_upper R s)
                     | VNone => VNone
                     | _ => VNaN
                     end) <$> col)
  else Raise AttributeError.

Definition uppercase_column (R : Runtime) (c : string) (df : DataFrame)
    : result DataFrame :=
  match get_column c df with
  | Some col => rbind (series_str_upper R col) (fun col' => Ok (setitem c col' df))
  | None => Ok df
  end.

Definition format_uppercase (R : Runtime) (df : DataFrame) : result DataFrame :=
  rbind (uppercase_column R "name" df) (uppercase_column R "address").

Definition format_number (number : value) : value :=
  let number := PyStr.strip (py_str number) in
  if PyStr.startswith "1" number
  then VStr ("+60" +:+ number)
  else VStr ("+601" +:+ number).

Definition format_phone_numbers (df : DataFrame) : DataFrame :=
  match get_column "phone" df with
  | Some col => setitem "phone" (format_number <$> col) df
  | None => df
  end.

(** The lambda of [format_salary]. *)
Definition format_salary_cell (R : Runtime) (x : value) : result value :=
  if negb (isna x) && PyStr.isdigit (PyStr.replace_n "." "" 1 (py_str x))
  then match float_2f R (py_str x) with
       | Some s => Ok (VStr s)
       | None => Raise ValueError
       end
  else Ok x.

Definition format_salary (R : Runtime) (df : DataFrame) : result DataFrame :=
  match get_column "salary_monthly" df with
  | Some col =>
      rbind (series_apply (format_salary_cell R) col)
        (fun col' => Ok (setitem "salary_monthly" col' df))
  | None => Ok df
  end.

Definition IC_ERROR : value := VStr "IC ERROR".

(** [len] and [isdigit] raise on a cell that is no [str]. *)
Definition calculate_age_from_ic (ic_number : value) : result value :=
  match ic_number with
  | VStr ic =>
      if negb (Nat.eqb (String.length ic) 12) || negb (PyStr.isdigit ic)
      then Ok IC_ERROR
      else
        let year_str := PyStr.take 2 ic in
        match PyStr.int year_str with
        | Some year_int =>
            let birth_year :=
              (if year_int <=? 20 then 2000 + year_int else 1900 + year_int)%Z in
            let current_year := 2024%Z in
            Ok (VInt (current_year - birth_year))
        | None => Raise ValueError
        end
  | _ => Raise TypeError
  end.

Definition age_format (df : DataFrame) : result DataFrame :=
  rbind (getitem "ic" df) (fun ic =>
  rbind (series_apply calculate_age_from_ic ic) (fun age =>
  Ok (setitem "age" age df))).

(** ** AddressEnricher and GeocodeClient *)

(** [clean_address]: [process_address] over the list; a cell that is no
    [str] has no [replace] method. *)
Definition clean_address (address_list : column) : result (list string) :=
  series_apply (fun address => match address with
                        | VStr s => Ok (process_address s)
                        | _ => Raise AttributeError
                        end) address_list.

(** Effects of the run, in the order they happen. *)
Inductive event :=
| StError (msg : string)
| GmapsGeocode (address : string)
| ToExcel (sheet_name : string) (df : DataFrame)
| SessionState (df : DataFrame)
| StSuccess (msg : string)
| StWrite (text : string)
| StWriteCounts (counts : list (value * nat))
| StDataframe (df : DataFrame)
| StDownloadButton (label file_name : string).

(** A computation that records events and may raise. *)
Definition M (A : Type) : Type := list event * result A.

Definition ret {A} (a : A) : M A := ([], Ok a).

Definition bind {A B} (m : M A) (f : A -> M B) : M B :=
  match m with
  | (es, Ok a) => let '(es', r) := f a in (es ++ es', r)
  | (es, Raise e) => (es, Raise e)
  end.

Definition emit (e : event) : M unit := ([e], Ok tt).

Definition lift {A} (r : result A) : M A := ([], r).

Global Instance M_ret : MRet M := fun A a => ret a.
Global Instance M_bind : MBind M := fun A B f m => bind m f.

Abbreviation geo_row := (string * value * value)%type.

(** [geocode_address]: the status and the coordinates of the first
    candidate. With no client, [gmaps.geocode] is an [AttributeError],
    caught by the last handler. *)
Definition geocode_address (R : Runtime) (n : nat) (address : string) : M geo_row :=
  match gmaps R with
  | None => ret ("error", VNone, VNone)
  | Some client =>
      emit (GmapsGeocode address);;
      ret match client n address with
          | Candidates ((lat, lng) :: _) => ("success", VFloat lat, VFloat lng)
          | Candidates [] => ("no_result", VNone, VNone)
          | ApiError => ("api_error", VNone, VNone)
          | OtherError => ("error", VNone, VNone)
          end
  end.

(** The addresses geocoded in row order, the [n]-th call first. *)
Fixpoint geocode_all (R : Runtime) (n : nat) (addresses : list string)
    : M (list geo_row) :=
  match addresses with
  | [] => ret []
  | a :: rest =>
      r ← geocode_address R n a;
      rs ← geocode_all R (S n) rest;
      ret (r :: rs)
  end.

(** A column of the frame that [apply] builds from the rows: with a
    float in it the column holds floats, and a [None] is NaN there;
    without one the column keeps its objects. *)
Definition is_float (v : value) : bool :=
  match v with
  | VFloat _ => true
  | _ => false
  end.

Definition None_to_NaN (v : value) : value :=
  match v with
  | VNone => VNaN
  | _ => v
  end.

Definition inferred_column (col : column) : column :=
  if existsb is_float col then None_to_NaN <$> col else col.

(** [df[['geocode_status', 'lat', 'lon']] = geocode_results] *)
Definition set_geocode_results (rows : list geo_row) (df : DataFrame) : DataFrame :=
  setitem "lon" (inferred_column ((fun r : geo_row => r.2) <$> rows))
    (setitem "lat" (inferred_column ((fun r : geo_row => r.1.2) <$> rows))
       (setitem "geocode_status" ((fun r : geo_row => VStr r.1.1) <$> rows) df)).

Definition enrich (R : Runtime) (df : DataFrame) : M DataFrame :=
  match get_column "address" df with
  | Some col =>
      addresses ← lift (clean_address col);
      let df := setitem "address" (VStr <$> addresses) df in
      geocode_results ← geocode_all R 0 addresses;
      ret (set_geocode_results geocode_results df)
  | None => ret df
  end.

(** ** ReferenceJoiner *)

(** [series.astype(str).str.strip()] on one cell. *)
Definition normalize_postcode (v : value) : value :=
  VStr (PyStr.strip (py_str v)).

(** The rows of the right side whose key equals [key], by position;
    [j] is the position of the first row of [rkeys]. *)
Fixpoint matching_rows_from (j : nat) (key : value) (rkeys : column) : list nat :=
  match rkeys with
  | [] => []
  | k :: rest =>
      if decide (k = key)
      then j :: matching_rows_from (S j) key rest
      else matching_rows_from (S j) key rest
  end.

Definition matching_rows : value -> column -> list nat := matching_rows_from 0.

(** The row pairs of a left join: each left row with each of its
    matches in the order of the right side, or alone when it has none;
    [i] is the position of the first row of [lkeys]. *)
Fixpoint join_pairs_from (i : nat) (lkeys rkeys : column) : list (nat * option nat) :=
  match lkeys with
  | [] => []
  | k :: rest =>
      match matching_rows k rkeys with
      | [] => [(i, None)]
      | js => (fun j => (i, Some j)) <$> js
      end ++ join_pairs_from (S i) rest rkeys
  end.

Definition join_pairs : column -> column -> list (nat * option nat) :=
  join_pairs_from 0.

Definition take_left (pairs : list (nat * option nat)) (col : column) : column :=
  (fun p : nat * option nat => default VNaN (col !! p.1)) <$> pairs.

Definition take_right (pairs : list (nat * option nat)) (col : column) : column :=
  (fun p : nat * option nat =>
     match p.2 with
     | Some j => default VNaN (col !! j)
     | None => VNaN
     end) <$> pairs.

(** [pd.merge(left, right, on=on, how='left')]: the columns of the left
    side, then those of the right side but the key; a name on both
    sides gets the suffix [_x] on the left and [_y] on the right. The
    merge is total here; recent pandas raises [MergeError] where a
    suffix makes a name that its side has already, and the statements
    that the join succeeds ask that it does not. Cells are kept as
    values: a column of integers that gets a NaN holds floats of the
    same value. *)
Definition merge_left (on : string) (left right : DataFrame) : DataFrame :=
  let pairs := join_pairs (default [] (get_column on left))
                          (default [] (get_column on right)) in
  ((fun p : string * column =>
      (if bool_decide (p.1 ≠ on) && has_column p.1 right
       then p.1 +:+ "_x" else p.1,
       take_left pairs p.2)) <$> left)
  ++
  ((fun p : string * column =>
      (if has_column p.1 left then p.1 +:+ "_y" else p.1,
       take_right pairs p.2))
     <$> filter (fun p : string * column => p.1 ≠ on) right).

(** Lines 217 to 227: the keys normalized, the merge, the renaming. *)
Definition reference_join (df postcode_df : DataFrame) : result DataFrame :=
  rbind (getitem "postcode" df) (fun lkeys =>
  let df := setitem "postcode" (normalize_postcode <$> lkeys) df in
  rbind (getitem "postcode" postcode_df) (fun rkeys =>
  let postcode_df :=
    setitem "postcode" (normalize_postcode <$> rkeys) postcode_df in
  let combined_df := merge_left "postcode" df postcode_df in
  let combined_df :=
    if has_column "city" combined_df
    then rename {[ "city" := "district" ]} combined_df else combined_df in
  let combined_df :=
    if has_column "state_x" combined_df
    then rename {[ "state_x" := "state" ]} combined_df else combined_df in
  let combined_df :=
    if has_column "state_y" combined_df
    then filter (fun p : string * column => p.1 ≠ "state_y") combined_df
    else combined_df in
  Ok combined_df)).

(** ** PipelineOrchestrator *)

Definition unwanted_columns : list string :=
  [ "form_id"; "user_id"; "proof_of_income"; "proof_of_income_type";
    "ic_image"; "status"; "is_b40"; "race_other" ].

Definition program_mapping : gmap string string :=
  list_to_map
    [ ("food", "INSAN"); ("agriculture", "INTAN"); ("maintenance", "IKHSAN") ].

(** The dict [new_columns], in insertion order. *)
Definition new_columns : list (string * value) :=
  [ ("miskin", VStr ""); ("miskin_tegar", VStr ""); ("str_mof", VStr "");
    ("belum_disemak", VStr "") ].

(** [df[col] = value] with a scalar: one copy per row. *)
Definition setitem_scalar (df : DataFrame) (cv : string * value) : DataFrame :=
  setitem cv.1 (replicate (nrows df) cv.2) df.

Definition add_new_columns (combined_df : DataFrame) : DataFrame :=
  foldl setitem_scalar combined_df new_columns.

(** [series.value_counts()]: the distinct values that are not missing
    with their number of rows, the most frequent first; values with the
    same number of rows are in the order in which they first appear. *)
Definition count_value (v : value) (col : column) : nat :=
  length (filter (fun x => x = v) col).

(** The distinct values in the order of their first appearance. *)
Fixpoint unique (col : column) : column :=
  match col with
  | [] => []
  | v :: rest => v :: filter (fun x => x <> v) (unique rest)
  end.

(** A stable sort by the count, largest first. *)
Fixpoint insert_count (p : value * nat) (l : list (value * nat))
    : list (value * nat) :=
  match l with
  | [] => [p]
  | q :: rest =>
      if (q.2 <=? p.2)%nat then p :: l else q :: insert_count p rest
  end.

Definition sort_counts (l : list (value * nat)) : list (value * nat) :=
  foldr insert_count [] l.

Definition value_counts (col : column) : list (value * nat) :=
  sort_counts
    ((fun v => (v, count_value v col))
       <$> unique (filter (fun x => isna x = false) col)).

(** [df[mask]] for a boolean mask over the rows. *)
Fixpoint mask_column (mask : list bool) (col : column) : column :=
  match mask, col with
  | b :: mask', v :: col' =>
      if b then v :: mask_column mask' col' else mask_column mask' col'
  | _, _ => []
  end.

Definition mask_rows (mask : list bool) (df : DataFrame) : DataFrame :=
  (fun p : string * column => (p.1, mask_column mask p.2)) <$> df.

(** The stages before the enrichment, lines 181 to 199. *)
Definition format_stages (R : Runtime) (df : DataFrame) : result DataFrame :=
  let df := drop_columns df unwanted_columns in
  let df := rename_columns df in
  let df := rename_program_values df program_mapping in
  let df := reformat_dates df in
  rbind (format_uppercase R df) (fun df =>
  let df := format_phone_numbers df in
  rbind (format_salary R df) (fun df =>
  age_format df)).

(** The display of the result, lines 239 to 272. *)
Definition publish (combined_df : DataFrame) : M unit :=
  emit (ToExcel "CleanedData" combined_df);;
  emit (SessionState combined_df);;
  emit (StSuccess "Data cleaned, geocoded, and combined with postcode information successfully!");;
  emit (StWrite ("### Updated Data Preview ("
                 +:+ PyStr.of_Z (Z.of_nat (nrows combined_df)) +:+ " rows)"));;
  emit (StDataframe combined_df);;
  status ← lift (getitem "geocode_status" combined_df);
  let geocoding_summary := value_counts status in
  emit (StWrite "### Geocoding Summary");;
  emit (StWriteCounts geocoding_summary);;
  (if has_column "geocode_status" combined_df
   then
     let error_addresses :=
       mask_rows ((fun v => bool_decide (v ≠ VStr "success")) <$> status)
         combined_df in
     emit (StWrite "### Addresses with Geocoding Errors");;
     shown ← lift (getitems ["address"; "geocode_status"] error_addresses);
     emit (StDataframe shown)
   else ret tt);;
  emit (StDownloadButton "Download Combined Data as Excel"
          "combined_data_with_districts.xlsx").

(** [clean_and_process_dataframe(df, postcode_df)]; [df] is [None] when
    the upload did not parse. *)
Definition clean_and_process_dataframe (R : Runtime)
    (df : option DataFrame) (postcode_df : DataFrame) : M unit :=
  match df with
  | None => emit (StError "No data available to process.")
  | Some df =>
      if empty df
      then emit (StError "No data available to process.")
      else
        df ← lift (format_stages R df);
        df ← enrich R df;
        df ← lift (reorder_columns df);
        if empty postcode_df
        then emit (StError "Postcode data could not be loaded.")
        else
          combined_df ← lift (reference_join df postcode_df);
          let combined_df := add_new_columns combined_df in
          publish combined_df
  end.

(** [load_postcode_data]: the frame read from the fixed path, or an
    empty frame and an error message when reading raised (the text of
    the exception, which ends the second message, is left out). *)
Definition load_postcode_data (read_excel : result DataFrame) : M DataFrame :=
  match read_excel with
  | Ok table => ret table
  | Raise FileNotFoundError =>
      emit (StError "Postcode file not found: file/Malaysia-Postcodes-City-State-Mapping.xlsx");;
      ret []
  | Raise _ =>
      emit (StError "Error loading postcode data");;
      ret []
  end.

(** ** Vocabulary of the statements *)

(** The characters of [s], each passed through [f]. *)
Fixpoint map_chars (f : ascii -> ascii) (s : string) : string :=
  match s with
  | EmptyString => EmptyString
  | String c s' => String (f c) (map_chars f s')
  end.

(** The last character of [s] satisfies [p]. *)
Fixpoint ends_in (p : ascii -> bool) (s : string) : bool :=
  match s with
  | EmptyString => false
  | String c EmptyString => p c
  | String _ s' => ends_in p s'
  end.

(** The first character of [s] satisfies [p]. *)
Definition starts_in (p : ascii -> bool) (s : string) : bool :=
  match s with
  | EmptyString => false
  | String c _ => p c
  end.

Definition is_comma (c : ascii) : bool := Ascii.eqb c ",".

Definition newline_to_space (c : ascii) : ascii :=
  if Ascii.eqb c PyStr.newline then " "%char else c.

(** [s] is [core] between two runs of whitespace, and [core] neither
    starts nor ends with whitespace. *)
Definition trimmed_of (s core : string) : Prop :=
  exists l r, s = l +:+ core +:+ r
    /\ PyStr.all PyStr.is_space l = true /\ PyStr.all PyStr.is_space r = true
    /\ starts_in PyStr.is_space core = false
    /\ ends_in PyStr.is_space core = false.

(** [s] is [body] followed by commas only, and [body] does not end with
    a comma. *)
Definition commas_cut_of (s body : string) : Prop :=
  exists commas, s = body +:+ commas
    /\ PyStr.all is_comma commas = true /\ ends_in is_comma body = false.

(** The age the specification derives from an IC string for a given
    reference year: the sentinel for a string that is not 12 digits,
    else the reference year less the birth year read from the first two
    characters. *)
Definition birth_year_of (Y : Z) : Z :=
  (if Y <=? 20 then 2000 + Y else 1900 + Y)%Z.

Definition digit_value (c : ascii) : Z := (Z.of_N (PyStr.code c) - 48)%Z.

Definition year_digits (ic : string) : Z :=
  match ic with
  | String a (String b _) => (10 * digit_value a + digit_value b)%Z
  | _ => 0%Z
  end.

Definition derive_age (referenceYear : Z) (ic : string) : value :=
  if negb (Nat.eqb (String.length ic) 12) || negb (PyStr.isdigit ic)
  then IC_ERROR
  else VInt (referenceYear - birth_year_of (year_digits ic)).

(** A 12-digit IC string starts with two decimal digits (the digits of
    [isdigit] include three superscripts that [int] refuses). *)
Definition year_is_decimal (ic : string) : Prop :=
  String.length ic = 12%nat -> PyStr.isdigit ic = true ->
  PyStr.all PyStr.is_decimal (PyStr.take 2 ic) = true.

(** Every column of the frame has [n] rows, as in a frame that pandas
    builds from records. *)
Definition uniform (n : nat) (df : DataFrame) : Prop :=
  Forall (fun p : string * column => length p.2 = n) df.

(** The cell of column [c] in row [k]. *)
Definition cell (df : DataFrame) (c : string) (k : nat) : option value :=
  col ← get_column c df; col !! k.


(** The stages before the join: formatting, enrichment, column order. *)
Definition prepare (R : Runtime) (df : DataFrame) : M DataFrame :=
  df ← lift (format_stages R df);
  df ← enrich R df;
  lift (reorder_columns df).

(** The events that show or store a table or a part of it. *)
Definition is_output (e : event) : bool :=
  match e with
  | StError _ | GmapsGeocode _ => false
  | _ => true
  end.

Definition is_geocode_call (e : event) : bool :=
  match e with
  | GmapsGeocode _ => true
  | _ => false
  end.

(** The label [c] names at most one column. A record has a field once,
    but [rename_columns] gives one name to two columns when the records
    carry a raw name together with its canonical name; [df[c]] is then
    a frame and not a column, and the stages on [c] are outside this
    development. *)
Definition single_label (c : string) (df : DataFrame) : Prop :=
  (length (filter (fun n => n = c) (columns df)) <= 1)%nat.

(** No usable input: the upload did not parse or has no record. *)
Definition unusable (df : option DataFrame) : bool :=
  match df with
  | None => true
  | Some d => empty d
  end.

(** The name a column of the left side, and one of the right side, has
    in the joined table: the suffix of the merge, then the two
    renamings of lines 222 to 225. *)
Definition rename1 (a b n : string) : string := if decide (n = a) then b else n.

Definition left_name (right : DataFrame) (n : string) : string :=
  rename1 "state_x" "state"
    (rename1 "city" "district"
       (if bool_decide (n ≠ "postcode") && has_column n right
        then n +:+ "_x" else n)).

Definition right_name (left : DataFrame) (n : string) : string :=
  rename1 "state_x" "state"
    (rename1 "city" "district"
       (if has_column n left then n +:+ "_y" else n)).

(** The four outcomes of a lookup. *)
Definition statuses : list string :=
  ["success"; "no_result"; "api_error"; "error"].

(** A geocoded row: the status is one of the four, and both
    coordinates are there exactly when it is [success]. *)
Definition geo_ok (r : geo_row) : Prop :=
  r.1.1 ∈ statuses
  /\ (isna r.1.2 = false /\ isna r.2 = false <-> r.1.1 = "success").

(** The flag columns of the final table. *)
Definition flag_columns : list string :=
  ["miskin"; "miskin_tegar"; "str_mof"; "belum_disemak"].

(** The table an event writes to the Excel sheet or stores in the
    session. *)
Definition stored_table (e : event) : option DataFrame :=
  match e with
  | ToExcel _ t | SessionState t => Some t
  | _ => None
  end.

(** ** Example inputs *)

Definition ascii_upper (c : ascii) : ascii :=
  let n := PyStr.code c in
  if ((97 <=? n) && (n <=? 122))%N then ascii_of_N (n - 32) else c.

(** A runtime for the examples: [upper] on the letters a to z, the
    float formatting on integers only, a client that finds the first
    address, finds nothing for the second and fails afterwards. *)
Definition example_client (n : nat) (address : string) : gmaps_response :=
  match n with
  | 0%nat => Candidates [("3.1390", "101.6869")]
  | 1%nat => Candidates []
  | 2%nat => ApiError
  | _ => OtherError
  end.

Definition example_runtime : Runtime :=
  {| str_upper := map_chars ascii_upper;
     float_2f := fun s => if PyStr.all PyStr.is_decimal s
                          then Some (s +:+ ".00") else None;
     gmaps := Some example_client |}.

Definition example_raw : DataFrame :=
  [ ("form_id", [VInt 1; VInt 2; VInt 3]);
    ("form_category", [VStr "food"; VStr "other"; VNaN]);
    ("createdAt", [VStr "2024-01-02T10:00:00Z"; VStr "2024-02-03"; VNaN]);
    ("ic_number", [VStr "990101015555"; VStr "05"; VStr "200101015555"]);
    ("name", [VStr "Ali"; VStr "Abu"; VNone]);
    ("state", [VStr "Selangor"; VStr "Kedah"; VStr "Perlis"]);
    ("postcode", [VStr " 43000"; VStr "99999"; VStr "01000"]);
    ("address", [VStr "Jalan x, , y,"; VStr "b"; VStr "c, malaysia"]);
    ("mobile_number", [VStr "112345"; VNaN; VNone]);
    ("monthly_income", [VStr "1500"; VStr "abc"; VInt 20]);
    ("miskin", [VStr "YA"; VStr ""; VStr ""]);
    ("remarks", [VInt 1; VInt 2; VInt 3]) ].

Definition example_postcodes : DataFrame :=
  [ ("postcode", [VInt 43000; VStr "01000 "]);
    ("city", [VStr "Kajang"; VStr "Kangar"]);
    ("state", [VStr "SELANGOR"; VStr "PERLIS"]) ].

(** A postcode table that lists one postcode twice. *)
Definition duplicated_postcodes : DataFrame :=
  [ ("postcode", [VInt 43000; VStr "43000 "]);
    ("city", [VStr "Kajang"; VStr "Bangi"]) ].

(** Records without an IC number. *)
Definition example_raw_without_ic : DataFrame :=
  [ ("name", [VStr "Ali"]); ("postcode", [VStr "43000"]) ].

(** One record that comes with a value for the flag [miskin], and the
    table the run stores for it. *)
Definition flags_raw : DataFrame :=
  [ ("ic_number", [VStr "990101015555"]);
    ("postcode", [VStr "43000"]);
    ("address", [VStr "Jalan 1"]);
    ("miskin", [VStr "YA"]) ].

Definition flags_final : DataFrame :=
  [ ("ic", [VStr "990101015555"]); ("age", [VInt 25]);
    ("postcode", [VStr "43000"]); ("lat", [VFloat "3.1390"]);
    ("lon", [VFloat "101.6869"]); ("address", [VStr "JALAN 1, MALAYSIA"]);
    ("miskin", [VStr ""]); ("geocode_status", [VStr "success"]);
    ("district", [VStr "Kajang"]); ("state", [VStr "SELANGOR"]);
    ("miskin_tegar", [VStr ""]); ("str_mof", [VStr ""]);
    ("belum_disemak", [VStr ""]) ].

(** Two records, one with a postcode of the reference table. *)
Definition join_records : DataFrame :=
  [ ("name", [VStr "ALI"; VStr "ABU"]);
    ("state", [VStr "Selangor"; VStr "Kedah"]);
    ("postcode", [VStr " 43000"; VStr "99999"]) ].

(** The three columns that the enrichment writes, as columns of the
    geocoded rows. *)
Definition status_column (rows : list geo_row) : column :=
  (fun r : geo_row => VStr r.1.1) <$> rows.

Definition lat_column (rows : list geo_row) : column :=
  (fun r : geo_row => r.1.2) <$> rows.

Definition lon_column (rows : list geo_row) : column :=
  (fun r : geo_row => r.2) <$> rows.

(** The frame holds the geocoded rows [rows], one per record. *)
Definition geocoded (rows : list geo_row) (df : DataFrame) : Prop :=
  get_column "geocode_status" df = Some (status_column rows)
  /\ get_column "lat" df = Some (lat_column rows)
  /\ get_column "lon" df = Some (lon_column rows).

(** The geocoded rows of the joined table: for each pair of the join
    the row of its left record. *)
Definition rows_of_pairs (pairs : list (nat * option nat)) (rows : list geo_row)
    : list geo_row :=
  (fun p : nat * option nat => default ("error", VNone, VNone) (rows !! p.1))
    <$> pairs.

(** The number of rows over the four statuses, and the number of rows
    with both coordinates. *)
Definition status_total (status : column) : nat :=
  sum_list_with (fun s => count_value (VStr s) status) statuses.

Definition both_present (lat lon : column) : nat :=
  length (filter (fun p : value * value => isna p.1 = false /\ isna p.2 = false)
            (zip lat lon)).

(** ** Further vocabulary *)

Definition not_newline (c : ascii) : bool := negb (Ascii.eqb c PyStr.newline).

(** A character of a number without sign and separators. *)
Definition digit_or_dot (c : ascii) : bool :=
  PyStr.is_digit c || Ascii.eqb c ".".

(** An IC string of twelve digits for [isdigit] whose first two are
    the superscript two. *)
Definition superscript_ic : string :=
  String (ascii_of_nat 178) (String (ascii_of_nat 178) "0101015555").

(** The name of a raw column after [rename_columns]. *)
Definition renamed_name (n : string) : string :=
  default n (column_mapping !! n).

Definition is_download_button (e : event) : bool :=
  match e with
  | StDownloadButton _ _ => true
  | _ => false
  end.

(** Records without a postcode, and records without an address. *)
Definition example_raw_without_postcode : DataFrame :=
  [ ("ic_number", [VStr "990101015555"]); ("address", [VStr "Jalan 1"]) ].

Definition example_raw_without_address : DataFrame :=
  [ ("ic_number", [VStr "990101015555"]); ("postcode", [VStr "43000"]) ].
(** * Properties *)

(** ** Facts about the string methods *)

Section PyStrFacts.
Import PyStr.

Lemma str_app_cons c s t : String c s +:+ t = String c (s +:+ t).
Proof. reflexivity. Qed.

Lemma str_app_nil_r s : s +:+ "" = s.
Proof.
  induction s as [|c s IH]; [done |]. by rewrite str_app_cons, IH.
Qed.

Lemma str_app_assoc s t u : (s +:+ t) +:+ u = s +:+ t +:+ u.
Proof.
  induction s as [|c s IH]; [done |]. by rewrite !str_app_cons, IH.
Qed.

Lemma str_length_app s t :
  String.length (s +:+ t) = (String.length s + String.length t)%nat.
Proof.
  induction s as [|c s IH]; [done |]. rewrite str_app_cons. simpl. by rewrite IH.
Qed.

Lemma prefix_empty s : String.prefix "" s = true.
Proof. by destruct s. Qed.

Lemma prefix_cons c p d s :
  String.prefix (String c p) (String d s)
  = bool_decide (c = d) && String.prefix p s.
Proof.
  simpl. destruct (ascii_dec c d) as [->|Hne].
  - by rewrite bool_decide_eq_true_2.
  - by rewrite bool_decide_eq_false_2.
Qed.

Lemma prefix_app p s : String.prefix p (p +:+ s) = true.
Proof.
  induction p as [|c p IH]; [apply prefix_empty |].
  rewrite str_app_cons, prefix_cons, IH. by rewrite bool_decide_eq_true_2.
Qed.

Lemma prefix_inv p s : String.prefix p s = true -> exists t, s = p +:+ t.
Proof.
  revert s. induction p as [|c p IH]; intros s H.
  - by exists s.
  - destruct s as [|d s]; [done |]. rewrite prefix_cons in H.
    apply andb_true_iff in H as [Hc Hp]. apply bool_decide_eq_true in Hc as ->.
    destruct (IH _ Hp) as [t ->]. by exists t.
Qed.

Lemma drop_app s t : drop (String.length s) (s +:+ t) = t.
Proof.
  induction s as [|c s IH]; [by destruct t |]. by rewrite str_app_cons.
Qed.

Lemma take_drop n s : take n s +:+ drop n s = s.
Proof.
  revert s. induction n as [|n IH]; intros [|c s]; try done.
  simpl. by rewrite str_app_cons, IH.
Qed.

Lemma endswith_app s p : endswith p (s +:+ p) = true.
Proof.
  unfold endswith. rewrite str_length_app.
  replace (String.length s + String.length p - String.length p)%nat
    with (String.length s) by lia.
  rewrite drop_app, String.eqb_refl, andb_true_r.
  apply Nat.leb_le. lia.
Qed.

Lemma endswith_inv s p : endswith p s = true -> exists t, s = t +:+ p.
Proof.
  unfold endswith. intros [_ H%String.eqb_eq]%andb_true_iff.
  exists (take (String.length s - String.length p) s).
  rewrite <- H at 2. by rewrite take_drop.
Qed.

(** *** [replace] *)

(** Replacing a one-character pattern by one character is a
    character-wise map. *)
Lemma replace_newline s :
  replace nl " " s = map_chars newline_to_space s.
Proof.
  unfold replace. induction s as [|c s IH]; [done |].
  cbn [replace_go map_chars]. unfold nl at 1. rewrite prefix_cons, prefix_empty.
  rewrite andb_true_r. unfold newline_to_space at 1.
  case_bool_decide as Hc.
  - subst c. rewrite Ascii.eqb_refl.
    change (String.length nl - 1)%nat with 0%nat.
    change (pred <$> None) with (@None nat).
    rewrite str_app_cons. by rewrite IH.
  - replace (Ascii.eqb c newline) with false; [by rewrite IH |].
    symmetry. apply Ascii.eqb_neq. congruence.
Qed.

(** Inside an occurrence the scan passes over its characters. *)
Lemma replace_go_skip old new count t s :
  replace_go old new count (String.length t) (t +:+ s)
  = replace_go old new count O s.
Proof.
  induction t as [|c t IH]; [by destruct s |]. by rewrite str_app_cons.
Qed.

(** An occurrence at the front is replaced and the scan resumes behind
    it. *)
Lemma replace_at_front old new s :
  old <> "" -> replace old new (old +:+ s) = new +:+ replace old new s.
Proof.
  intros Hne. unfold replace. destruct old as [|c old]; [done |].
  rewrite str_app_cons. cbn [replace_go]. rewrite <- str_app_cons, prefix_app.
  cbn [String.length fmap option_fmap option_map].
  replace (S (String.length old) - 1)%nat with (String.length old) by lia.
  by rewrite replace_go_skip.
Qed.

(** A character that starts no occurrence is copied. *)
Lemma replace_no_front old new c s :
  String.prefix old (String c s) = false ->
  replace old new (String c s) = String c (replace old new s).
Proof. intros H. unfold replace. cbn [replace_go]. by rewrite H. Qed.

(** *** [rstrip], [lstrip] and [strip] *)

Lemma rstrip_by_spec p s :
  exists t, s = rstrip_by p s +:+ t /\ all p t = true
            /\ ends_in p (rstrip_by p s) = false.
Proof.
  induction s as [|c s (t & Hs & Ht & He)]; [by exists "" |].
  cbn [rstrip_by]. destruct (rstrip_by p s) as [|d r] eqn:Hr.
  - change ("" +:+ t) with t in Hs. subst t. destruct (p c) eqn:Hc.
    + exists (String c s). simpl. by rewrite Hc, Ht.
    + exists s. simpl. by rewrite Hc.
  - exists t. rewrite str_app_cons, <- Hs. done.
Qed.

Lemma lstrip_by_spec p s :
  exists t, s = t +:+ lstrip_by p s /\ all p t = true
            /\ starts_in p (lstrip_by p s) = false.
Proof.
  induction s as [|c s (t & Hs & Ht & He)]; [by exists "" |].
  cbn [lstrip_by]. destruct (p c) eqn:Hc.
  - exists (String c t). rewrite str_app_cons, <- Hs. simpl. by rewrite Hc, Ht.
  - exists "". simpl. by rewrite Hc.
Qed.

Lemma ends_in_app_false p t s :
  ends_in p (t +:+ s) = false -> s <> "" -> ends_in p s = false.
Proof.
  induction t as [|c t IH]; [done |]. rewrite str_app_cons. intros H Hs.
  apply IH; [| done]. simpl in H.
  destruct (t +:+ s) eqn:E; [| done].
  destruct t, s; done.
Qed.

Lemma rstrip_comma_spec s : commas_cut_of s (rstrip_comma s).
Proof.
  destruct (rstrip_by_spec is_comma s) as (t & Hs & Ht & He). by exists t.
Qed.

Lemma strip_spec s : trimmed_of s (strip s).
Proof.
  unfold strip.
  destruct (rstrip_by_spec is_space s) as (r & Hs & Hr & He).
  destruct (lstrip_by_spec is_space (rstrip_by is_space s))
    as (l & Hl & Hl' & Hst).
  exists l, r. split; [| split; [done | split; [done | split; [done |]]]].
  - rewrite <- str_app_assoc, <- Hl. exact Hs.
  - destruct (lstrip_by is_space (rstrip_by is_space s)) eqn:E; [done |].
    rewrite Hl in He. by apply ends_in_app_false in He.
Qed.

End PyStrFacts.

(** ** Facts about frames *)

Section FrameFacts.
Implicit Types (df : DataFrame) (c : string) (col : column).

Lemma get_column_None c df : get_column c df = None <-> c ∉ columns df.
Proof.
  induction df as [|[n col] df IH]; simpl.
  - split; [intros _; apply not_elem_of_nil | done].
  - rewrite not_elem_of_cons. case_decide as Hn.
    + split; [done | intros [? _]; congruence].
    + rewrite IH. split; [intros ?; split; congruence | tauto].
Qed.

Lemma get_column_is_Some c df : is_Some (get_column c df) <-> c ∈ columns df.
Proof.
  rewrite <- not_eq_None_Some, get_column_None.
  destruct (decide (c ∈ columns df)); tauto.
Qed.

Lemma get_column_elem_of c col df : get_column c df = Some col -> c ∈ columns df.
Proof. intros H. apply get_column_is_Some. by exists col. Qed.

Lemma has_column_true c df : has_column c df = true <-> c ∈ columns df.
Proof. unfold has_column. apply bool_decide_eq_true. Qed.

Lemma has_column_false c df : has_column c df = false <-> c ∉ columns df.
Proof. unfold has_column. apply bool_decide_eq_false. Qed.

Lemma getitem_Some c col df : get_column c df = Some col -> getitem c df = Ok col.
Proof. unfold getitem. by intros ->. Qed.

Lemma getitem_None c df : get_column c df = None -> getitem c df = Raise (KeyError c).
Proof. unfold getitem. by intros ->. Qed.

(** A column map that keeps or replaces whole columns. *)
Lemma get_column_replace_ne c c' col df :
  c' <> c ->
  get_column c'
    ((fun p : string * column => if decide (p.1 = c) then (c, col) else p) <$> df)
  = get_column c' df.
Proof.
  intros Hne. induction df as [|[n old] df IH]; [done |].
  rewrite fmap_cons. cbn [fst]. destruct (decide (n = c)) as [->|Hn].
  - cbn [get_column]. by rewrite !decide_False by congruence.
  - cbn [get_column]. rewrite IH. done.
Qed.

Lemma get_column_replace_eq c col df :
  c ∈ columns df ->
  get_column c
    ((fun p : string * column => if decide (p.1 = c) then (c, col) else p) <$> df)
  = Some col.
Proof.
  induction df as [|[n old] df IH]; [by intros ?%elem_of_nil |].
  intros Hc. rewrite fmap_cons. cbn [fst].
  destruct (decide (n = c)) as [->|Hn].
  - cbn [get_column]. by rewrite decide_True.
  - cbn [get_column]. rewrite decide_False by done. apply IH.
    unfold columns in Hc. rewrite fmap_cons in Hc.
    apply elem_of_cons in Hc as [Hc|Hc]; [simpl in Hc; congruence | done].
Qed.

Lemma get_column_app c df1 df2 :
  get_column c (df1 ++ df2)
  = match get_column c df1 with
    | Some col => Some col
    | None => get_column c df2
    end.
Proof.
  induction df1 as [|[n col] df1 IH]; simpl; [done |]. by case_decide.
Qed.

Lemma setitem_get_eq c col df : get_column c (setitem c col df) = Some col.
Proof.
  unfold setitem. destruct (has_column c df) eqn:Hc.
  - apply has_column_true in Hc. by apply get_column_replace_eq.
  - apply has_column_false, get_column_None in Hc.
    rewrite get_column_app, Hc. simpl. by rewrite decide_True.
Qed.

Lemma setitem_get_ne c c' col df :
  c' <> c -> get_column c' (setitem c col df) = get_column c' df.
Proof.
  intros Hne. unfold setitem. destruct (has_column c df).
  - by apply get_column_replace_ne.
  - rewrite get_column_app. destruct (get_column c' df); [done |].
    simpl. by rewrite decide_False by congruence.
Qed.

Lemma columns_setitem_present c col df :
  c ∈ columns df -> columns (setitem c col df) = columns df.
Proof.
  intros Hc. unfold setitem. rewrite (proj2 (has_column_true _ _) Hc).
  unfold columns. rewrite <- list_fmap_compose. apply list_fmap_ext.
  intros _ [n old] _. simpl. by case_decide.
Qed.

Lemma columns_setitem_absent c col df :
  c ∉ columns df -> columns (setitem c col df) = columns df ++ [c].
Proof.
  intros Hc. unfold setitem. rewrite (proj2 (has_column_false _ _) Hc).
  unfold columns. by rewrite fmap_app.
Qed.

Lemma elem_of_columns_setitem c c' col df :
  c' ∈ columns (setitem c col df) <-> c' = c \/ c' ∈ columns df.
Proof.
  destruct (decide (c ∈ columns df)) as [Hc|Hc].
  - rewrite columns_setitem_present by done. split; [tauto |]. by intros [->|?].
  - rewrite columns_setitem_absent by done. rewrite elem_of_app, list_elem_of_singleton.
    tauto.
Qed.

End FrameFacts.

(** ** The address cleaner *)

(** C1, as the code has it. [process_address] replaces every newline by
    a space, then replaces the occurrences of comma-space-comma (found
    from the left, not overlapping) by one comma, then cuts the run of
    commas at the end, then cuts the whitespace at both ends, and adds
    [", MALAYSIA"] unless the text ends with it; the result always ends
    with [", MALAYSIA"].  The second and third part say what the
    replacement does at each position.  Two adjacent commas stay: the
    address of the specification's example becomes
    ["Jalan X,,  Taman Y, MALAYSIA"]. *)
Theorem process_address_steps :
  (forall address : string,
     let a1 := PyStr.replace PyStr.nl " " address in
     let a2 := PyStr.replace ", ," "," a1 in
     a1 = map_chars newline_to_space address /\
     exists body core,
       commas_cut_of a2 body /\ trimmed_of body core /\
       process_address address
       = (if PyStr.endswith MALAYSIA core then core else core +:+ MALAYSIA) /\
       PyStr.endswith MALAYSIA (process_address address) = true)
  /\ (forall s, PyStr.replace ", ," "," (", ," +:+ s)
                = "," +:+ PyStr.replace ", ," "," s)
  /\ (forall c s, String.prefix ", ," (String c s) = false ->
                  PyStr.replace ", ," "," (String c s)
                  = String c (PyStr.replace ", ," "," s))
  /\ process_address spec_example_address = "Jalan X,,  Taman Y, MALAYSIA"
  /\ process_address "Jalan X, , Taman Y," = "Jalan X, Taman Y, MALAYSIA"
  /\ process_address "" = ", MALAYSIA".
Proof.
  split; [| split; [intros s; by apply replace_at_front |
                    split; [apply replace_no_front | by vm_compute]]].
  intros address a1 a2. split; [apply replace_newline |].
  exists (PyStr.rstrip_comma a2), (PyStr.strip (PyStr.rstrip_comma a2)).
  split; [apply rstrip_comma_spec |]. split; [apply strip_spec |].
  unfold process_address. fold a1. fold a2.
  destruct (PyStr.endswith MALAYSIA (PyStr.strip (PyStr.rstrip_comma a2))) eqn:E;
    simpl; [by rewrite E |].
  split; [done | apply endswith_app].
Qed.

(** C1, as stated, fails on the specification's own example: the two
    adjacent commas and the doubled space are kept. *)
Lemma process_address_keeps_double_comma :
  process_address spec_example_address <> "Jalan X, Taman Y, MALAYSIA".
Proof. by vm_compute. Qed.

(** ** Phone numbers *)



(** C10, as the code has it. With one [phone] column, a row whose value
    is missing is formatted like any other: the text of the marker gets
    the prefix, ["+601nan"] for NaN and ["+601None"] for [None]. *)
Theorem format_phone_missing (df : DataFrame) (col : column) (k : nat) (v : value) :
  single_label "phone" df ->
  get_column "phone" df = Some col ->
  col !! k = Some v ->
  isna v = true ->
  cell (format_phone_numbers df) "phone" k
  = Some (match v with
          | VNone => VStr "+601None"
          | _ => VStr "+601nan"
          end).
Proof.
  intros _ Hcol Hk Hv. unfold cell, format_phone_numbers. rewrite Hcol.
  rewrite setitem_get_eq. simpl. rewrite list_lookup_fmap, Hk. simpl.
  by destruct v.
Qed.

Lemma format_phone_missing_witness :
  cell (format_phone_numbers [("phone", [VStr "112345"; VNaN])]) "phone" 1
  = Some (VStr "+601nan").
Proof.
  apply (format_phone_missing [("phone", [VStr "112345"; VNaN])]
           [VStr "112345"; VNaN] 1 VNaN); [vm_compute; lia | reflexivity ..].
Defined.

(** C10, as stated, fails for a value that is [None] (a JSON null): the
    output is ["+601None"]. *)
Lemma format_number_None :
  isna VNone = true /\ format_number VNone <> VStr "+601nan".
Proof. split; [done | by vm_compute]. Qed.

(** ** The derived age *)

Lemma calculate_age_from_ic_str ic :
  year_is_decimal ic ->
  calculate_age_from_ic (VStr ic) = Ok (derive_age 2024 ic).
Proof.
  intros Hy. unfold calculate_age_from_ic, derive_age.
  destruct (negb (Nat.eqb (String.length ic) 12) || negb (PyStr.isdigit ic))
    eqn:E; [done |].
  apply orb_false_iff in E as [Hlen Hdig].
  apply negb_false_iff in Hlen, Hdig. apply Nat.eqb_eq in Hlen.
  specialize (Hy Hlen Hdig).
  destruct ic as [|a [|b ic]]; [done | done |].
  cbn in Hy. rewrite andb_true_r in Hy. apply andb_true_iff in Hy as [Ha Hb].
  cbn [PyStr.take PyStr.int PyStr.int_go]. rewrite Ha, Hb.
  unfold year_digits, birth_year_of, digit_value.
  replace (10 * (10 * 0 + (Z.of_N (PyStr.code a) - 48))
           + (Z.of_N (PyStr.code b) - 48))%Z
    with (10 * (Z.of_N (PyStr.code a) - 48) + (Z.of_N (PyStr.code b) - 48))%Z
    by lia.
  done.
Qed.

Lemma series_apply_calculate_age ics :
  Forall year_is_decimal ics ->
  series_apply calculate_age_from_ic (VStr <$> ics) = Ok (derive_age 2024 <$> ics).
Proof.
  induction 1 as [|ic ics Hic _ IH]; [done |].
  rewrite !fmap_cons. cbn [series_apply].
  rewrite calculate_age_from_ic_str by done. simpl. by rewrite IH.
Qed.

(** C4, as the code has it. For a frame with one [ic] column, all of
    whose cells are text (a cell of twelve characters that [isdigit]
    accepts beginning with two decimal digits),
    [age_format] stores in [age] the sentinel ["IC ERROR"] for a text
    that is not 12 characters long or has a character that is no digit,
    and else 2024 less the birth year, 2000 + Y when Y <= 20 and
    1900 + Y otherwise, Y the number of the first two characters; the
    reference year is the constant 2024.  The [ic] column and every
    column but [age] are as before. *)
Theorem age_format_spec (df : DataFrame) (ics : list string) :
  single_label "ic" df ->
  get_column "ic" df = Some (VStr <$> ics) ->
  Forall year_is_decimal ics ->
  exists out,
    age_format df = Ok out
    /\ get_column "age" out = Some (derive_age 2024 <$> ics)
    /\ get_column "ic" out = Some (VStr <$> ics)
    /\ forall c, c <> "age" -> get_column c out = get_column c df.
Proof.
  intros _ Hic Hy. exists (setitem "age" (derive_age 2024 <$> ics) df).
  split; [| split; [apply setitem_get_eq | split]].
  - unfold age_format. rewrite (getitem_Some _ _ _ Hic). simpl.
    by rewrite series_apply_calculate_age.
  - by rewrite setitem_get_ne.
  - intros c Hc. by apply setitem_get_ne.
Qed.

Lemma age_format_spec_witness :
  exists out,
    age_format [("ic", [VStr "990101015555"; VStr "05"; VStr "200101015555"])]
    = Ok out
    /\ get_column "age" out = Some [VInt 25; VStr "IC ERROR"; VInt 4].
Proof.
  destruct (age_format_spec
              [("ic", [VStr "990101015555"; VStr "05"; VStr "200101015555"])]
              ["990101015555"; "05"; "200101015555"])
    as (out & H1 & H2 & _).
  - vm_compute. lia.
  - reflexivity.
  - repeat constructor; intros Hl Hd; vm_compute in Hl; try discriminate;
      reflexivity.
  - exists out. split; [exact H1 | exact H2].
Defined.

(** C4, as stated, fails: the reference year is no parameter. With the
    reference year 2025 the age of a person born in 1999 would be 26;
    the code gives 25. *)
Lemma calculate_age_fixed_year :
  calculate_age_from_ic (VStr "990101015555")
  <> Ok (VInt (2025 - birth_year_of 99)).
Proof. by vm_compute. Qed.

(** ** Absent fields *)

(** The guarded stages return a frame without their column as it is. *)
Lemma guarded_stages_absent (R : Runtime) (df : DataFrame) :
  (get_column "program" df = None ->
   rename_program_values df program_mapping = df)
  /\ (get_column "date" df = None -> reformat_dates df = df)
  /\ (get_column "name" df = None -> get_column "address" df = None ->
      format_uppercase R df = Ok df)
  /\ (get_column "phone" df = None -> format_phone_numbers df = df)
  /\ (get_column "salary_monthly" df = None -> format_salary R df = Ok df)
  /\ (get_column "address" df = None -> enrich R df = ret df).
Proof.
  unfold rename_program_values, reformat_dates, format_uppercase,
    uppercase_column, format_phone_numbers, format_salary, enrich.
  repeat split; intros; repeat (match goal with H : _ = None |- _ => rewrite H end);
    try done.
  simpl. by match goal with H : _ = None |- _ => rewrite H end.
Qed.

(** [age_format] reads the [ic] column with no guard. *)
Lemma age_format_absent (df : DataFrame) :
  get_column "ic" df = None -> age_format df = Raise (KeyError "ic").
Proof. intros H. unfold age_format. by rewrite (getitem_None _ _ H). Qed.

(** C2 fails for the age stage. On records without an IC number every
    guarded stage returns the frame as it is, [age_format] raises
    [KeyError], and so does the whole run. *)
Theorem age_format_raises_without_ic :
  let df := example_raw_without_ic in
  rename_program_values df program_mapping = df
  /\ reformat_dates df = df
  /\ format_phone_numbers df = df
  /\ format_salary example_runtime df = Ok df
  /\ age_format df = Raise (KeyError "ic")
  /\ clean_and_process_dataframe example_runtime (Some df) example_postcodes
     = ([], Raise (KeyError "ic")).
Proof. by vm_compute. Qed.

(** ** Column order *)

Section Reorder.
Implicit Types (df : DataFrame) (c n : string) (col : column).

Lemma filter_name_absent n df :
  n ∉ columns df -> filter (fun p : string * column => p.1 = n) df = [].
Proof.
  induction df as [|[n' col] df IH]; [done |].
  unfold columns. rewrite fmap_cons, not_elem_of_cons. intros [Hn Hdf].
  rewrite filter_cons_False by (simpl in *; congruence). by apply IH.
Qed.

(** With distinct names a label selects one column. *)
Lemma filter_name_unique n col df :
  NoDup (columns df) -> get_column n df = Some col ->
  filter (fun p : string * column => p.1 = n) df = [(n, col)].
Proof.
  induction df as [|[n' col'] df IH]; [done |].
  unfold columns. rewrite fmap_cons, NoDup_cons. intros [Hn' Hnd].
  cbn [get_column fst]. case_decide as Hn.
  - intros [= ->]. subst n'. rewrite filter_cons_True by done.
    by rewrite filter_name_absent.
  - intros Hg. rewrite filter_cons_False by done. by apply IH.
Qed.

Lemma getitems_distinct names df :
  NoDup (columns df) ->
  (forall n, n ∈ names -> n ∈ columns df) ->
  exists out,
    getitems names df = Ok out
    /\ columns out = names
    /\ forall c, get_column c out
                 = if decide (c ∈ names) then get_column c df else None.
Proof.
  intros Hnd. induction names as [|n names IH]; intros Hin.
  - exists []. split; [done | split; [done |]]. intros c.
    by rewrite decide_False by apply not_elem_of_nil.
  - destruct IH as (rest & Hrest & Hcols & Hget).
    { intros m Hm. apply Hin. by apply list_elem_of_further. }
    assert (n ∈ columns df) as Hn by (apply Hin; apply list_elem_of_here).
    destruct (proj2 (get_column_is_Some n df) Hn) as [col Hcol].
    exists ((n, col) :: rest). split; [| split].
    + cbn [getitems]. rewrite (proj2 (has_column_true _ _) Hn), Hrest. simpl.
      by rewrite (filter_name_unique n col).
    + unfold columns in *. rewrite fmap_cons. simpl. by rewrite Hcols.
    + intros c. cbn [get_column]. destruct (decide (n = c)) as [->|Hne].
      * rewrite decide_True by apply list_elem_of_here. done.
      * rewrite Hget. destruct (decide (c ∈ names)) as [Hc|Hc].
        -- by rewrite decide_True by (by apply list_elem_of_further).
        -- rewrite decide_False; [done |]. rewrite not_elem_of_cons. split; congruence.
Qed.

(** Two frames with the same distinct names and the same column under
    every name are equal. *)
Lemma frame_ext df1 df2 :
  columns df1 = columns df2 -> NoDup (columns df1) ->
  (forall c, c ∈ columns df1 -> get_column c df1 = get_column c df2) ->
  df1 = df2.
Proof.
  revert df2. induction df1 as [|[n col] df1 IH]; intros [|[n' col'] df2];
    try done.
  unfold columns. rewrite !fmap_cons. simpl. intros [= -> Hcols].
  rewrite NoDup_cons. intros [Hn Hnd] Hget.
  pose proof (Hget n' (list_elem_of_here _ _)) as H0. cbn in H0.
  rewrite !decide_True in H0 by done. injection H0 as ->.
  f_equal. apply IH; [done | done |].
  intros c Hc. specialize (Hget c (list_elem_of_further _ _ _ Hc)).
  cbn in Hget. rewrite !decide_False in Hget by (intros ->; done). done.
Qed.

Lemma NoDup_original_order : NoDup original_order.
Proof. apply (bool_decide_unpack _). by vm_compute. Qed.

Lemma NoDup_new_order df :
  NoDup (columns df) -> NoDup (existing_columns df ++ additional_columns df).
Proof.
  intros Hnd. apply NoDup_app. split; [| split].
  - apply NoDup_filter, NoDup_original_order.
  - intros c [_ Hc]%list_elem_of_filter [Hc' _]%list_elem_of_filter. done.
  - by apply NoDup_filter.
Qed.

Lemma elem_of_new_order df c :
  c ∈ existing_columns df ++ additional_columns df <-> c ∈ columns df.
Proof.
  unfold existing_columns, additional_columns.
  rewrite elem_of_app, !list_elem_of_filter.
  destruct (decide (c ∈ original_order)); tauto.
Qed.

(** The canonical names present and the other names depend on the set
    of names and on the order of the other names only. *)
Lemma filter_all {A} (P : A -> Prop) `{forall x, Decision (P x)} (l : list A) :
  (forall x, x ∈ l -> P x) -> filter P l = l.
Proof.
  induction l as [|x l IH]; [done |]. intros Hl.
  rewrite filter_cons_True by (apply Hl, list_elem_of_here).
  f_equal. apply IH. intros y Hy. by apply Hl, list_elem_of_further.
Qed.

Lemma filter_none {A} (P : A -> Prop) `{forall x, Decision (P x)} (l : list A) :
  (forall x, x ∈ l -> ~ P x) -> filter P l = [].
Proof.
  induction l as [|x l IH]; [done |]. intros Hl.
  rewrite filter_cons_False by (apply Hl, list_elem_of_here).
  apply IH. intros y Hy. by apply Hl, list_elem_of_further.
Qed.

Lemma new_order_fixed df out :
  columns out = existing_columns df ++ additional_columns df ->
  existing_columns out ++ additional_columns out = columns out.
Proof.
  intros Hout. unfold existing_columns at 1, additional_columns at 1.
  rewrite Hout, filter_app. f_equal.
  - unfold existing_columns at 2. apply list_filter_iff. intros c.
    by rewrite elem_of_new_order.
  - rewrite (filter_none _ (existing_columns df)).
    + apply filter_all. by intros c [Hc _]%list_elem_of_filter.
    + intros c [_ Hc]%list_elem_of_filter. tauto.
Qed.

Lemma getitems_columns df :
  NoDup (columns df) -> getitems (columns df) df = Ok df.
Proof.
  intros Hnd. destruct (getitems_distinct (columns df) df Hnd) as (out & H & Hc & Hg);
    [done |].
  rewrite H. f_equal. apply frame_ext; [done | by rewrite Hc |].
  intros c Hin. rewrite Hg. rewrite Hc in Hin. by rewrite decide_True.
Qed.

(** C9. For a frame with distinct column names [reorder_columns] never
    raises; its columns are the canonical names that are present, in
    canonical order, then the other columns in the order they had; every
    column keeps its cells; and reordering the result gives the result
    again. *)
Theorem reorder_columns_spec (df : DataFrame) :
  NoDup (columns df) ->
  exists out,
    reorder_columns df = Ok out
    /\ columns out
       = filter (fun c => c ∈ columns df) original_order
         ++ filter (fun c => c ∉ original_order) (columns df)
    /\ (forall c, get_column c out = get_column c df)
    /\ reorder_columns out = Ok out.
Proof.
  intros Hnd. unfold reorder_columns.
  destruct (getitems_distinct (existing_columns df ++ additional_columns df) df Hnd)
    as (out & Hout & Hcols & Hget).
  { intros c. by rewrite elem_of_new_order. }
  exists out. split; [done | split; [done | split]].
  - intros c. rewrite Hget. case_decide as Hc; [done |].
    rewrite elem_of_new_order in Hc. symmetry. by apply get_column_None.
  - rewrite (new_order_fixed df out Hcols). apply getitems_columns.
    rewrite Hcols. by apply NoDup_new_order.
Qed.

Lemma reorder_columns_spec_witness :
  exists out,
    reorder_columns
      [("remarks", [VInt 1]); ("phone", [VStr "+60112345"]);
       ("extra", [VNaN]); ("program", [VStr "INSAN"])]
    = Ok out
    /\ columns out = ["program"; "phone"; "remarks"; "extra"]
    /\ reorder_columns out = Ok out.
Proof.
  destruct (reorder_columns_spec
              [("remarks", [VInt 1]); ("phone", [VStr "+60112345"]);
               ("extra", [VNaN]); ("program", [VStr "INSAN"])])
    as (out & H1 & H2 & _ & H4).
  - apply (bool_decide_unpack _). by vm_compute.
  - exists out. split; [exact H1 | split; [| exact H4]].
    rewrite H2. by vm_compute.
Defined.

End Reorder.

(** ** Names and lengths through the column operations *)

Section ColumnOps.
Implicit Types (df : DataFrame) (c : string) (col : column).

(** Columns renamed by [g] and rewritten by [h]: the name [c'] finds
    the column that [n0] found, when [n0] is the only name sent to
    [c']. *)
Lemma get_column_fmap_names (g : string -> string) (h : column -> column) df (c' n0 : string) :
  (forall m, m ∈ columns df -> g m = c' <-> m = n0) ->
  get_column c' ((fun p : string * column => (g p.1, h p.2)) <$> df)
  = h <$> get_column n0 df.
Proof.
  induction df as [|[a col] df IH]; [done |]. intros Hg.
  rewrite fmap_cons. cbn [get_column fst snd].
  pose proof (Hg a (list_elem_of_here _ _)) as Hn.
  destruct (decide (a = n0)) as [->|Hne].
  - rewrite decide_True by (by apply Hn). done.
  - rewrite decide_False by (by rewrite Hn). apply IH.
    intros m Hm. apply Hg. by apply list_elem_of_further.
Qed.

Lemma get_column_filter (P : string -> Prop)
    `{forall p : string * column, Decision (P p.1)} `{forall a, Decision (P a)} df c :
  get_column c (filter (fun p : string * column => P p.1) df)
  = if decide (P c) then get_column c df else None.
Proof.
  induction df as [|[a col] df IH]; [by case_decide |].
  destruct (decide (P a)) as [Hn|Hn].
  - rewrite filter_cons_True by done. cbn [get_column]. rewrite IH.
    destruct (decide (a = c)) as [Hnc|Hne]; [| done].
    subst a. by rewrite decide_True.
  - rewrite filter_cons_False by done. rewrite IH. cbn [get_column].
    destruct (decide (a = c)) as [Hnc|Hne]; [| done].
    subst a. by rewrite !decide_False.
Qed.

Lemma columns_rename (m : gmap string string) df :
  columns (rename m df) = (fun a => default a (m !! a)) <$> columns df.
Proof. unfold columns, rename. by rewrite <- !list_fmap_compose. Qed.

Lemma columns_filter (P : string -> Prop)
    `{forall p : string * column, Decision (P p.1)} `{forall a, Decision (P a)} df :
  columns (filter (fun p : string * column => P p.1) df) = filter P (columns df).
Proof.
  induction df as [|[a col] df IH]; [done |]. unfold columns in *.
  rewrite fmap_cons. simpl. destruct (decide (P a)).
  - rewrite !filter_cons_True by done. rewrite fmap_cons. by rewrite IH.
  - rewrite !filter_cons_False by done. done.
Qed.

Lemma get_column_uniform (n : nat) df c col :
  uniform n df -> get_column c df = Some col -> length col = n.
Proof.
  intros Hu. induction Hu as [|[m col'] df Hm _ IH]; [done |].
  cbn [get_column]. case_decide; [by intros [= <-] | done].
Qed.

Lemma uniform_setitem (n : nat) df c col :
  uniform n df -> length col = n -> uniform n (setitem c col df).
Proof.
  intros Hu Hl. unfold setitem. destruct (has_column c df).
  - apply Forall_fmap. eapply Forall_impl; [exact Hu |].
    intros [m old] Hm. simpl. by case_decide.
  - apply Forall_app. split; [done |]. by apply Forall_singleton.
Qed.

Lemma uniform_filter (n : nat) (P : string * column -> Prop) `{forall p, Decision (P p)} df :
  uniform n df -> uniform n (filter P df).
Proof.
  intros Hu. apply Forall_forall. intros p [_ Hp]%list_elem_of_filter.
  by apply (proj1 (Forall_forall _ _) Hu).
Qed.

Lemma uniform_rename (n : nat) m df : uniform n df -> uniform n (rename m df).
Proof.
  intros Hu. apply Forall_fmap. eapply Forall_impl; [exact Hu |]. by intros [].
Qed.

Lemma uniform_nrows (n : nat) df : uniform n df -> df <> [] -> nrows df = n.
Proof. intros Hu Hne. destruct Hu as [|[m col] df Hm _]; done. Qed.

Lemma series_apply_length {A B} (f : A -> result B) (l : list A) (l' : list B) :
  series_apply f l = Ok l' -> length l' = length l.
Proof.
  revert l'. induction l as [|x l IH]; intros l'; [by intros [= <-] |].
  cbn [series_apply]. destruct (f x) as [y|]; [| done]. simpl.
  destruct (series_apply f l) as [ys|]; [| done]. simpl. intros [= <-].
  simpl. f_equal. by apply IH.
Qed.

Lemma getitems_uniform (n : nat) names df out :
  uniform n df -> getitems names df = Ok out -> uniform n out.
Proof.
  intros Hu. revert out. induction names as [|m names IH]; intros out.
  - intros [= <-]. constructor.
  - cbn [getitems]. destruct (has_column m df); [| done].
    destruct (getitems names df) as [rest|]; [| done]. simpl.
    intros [= <-]. apply Forall_app. split; [by apply uniform_filter | by apply IH].
Qed.

(** Selection by labels without the assumption of distinct names: a
    label finds the first column of that name. *)
Lemma getitems_get_column names df out c :
  getitems names df = Ok out ->
  get_column c out = if decide (c ∈ names) then get_column c df else None.
Proof.
  revert out. induction names as [|m names IH]; intros out.
  - intros [= <-]. by rewrite decide_False by apply not_elem_of_nil.
  - cbn [getitems]. destruct (has_column m df) eqn:Hm; [| done].
    destruct (getitems names df) as [rest|]; [| done]. cbn [rbind].
    intros [= <-]. rewrite get_column_app.
    rewrite (get_column_filter (fun a => a = m)).
    destruct (decide (c = m)) as [->|Hne].
    + rewrite decide_True by apply list_elem_of_here.
      apply has_column_true, get_column_is_Some in Hm as [col Hcol].
      by rewrite Hcol.
    + rewrite (IH rest eq_refl). destruct (decide (c ∈ names)) as [Hc|Hc].
      * by rewrite decide_True by (by apply list_elem_of_further).
      * rewrite decide_False; [done |]. rewrite not_elem_of_cons. tauto.
Qed.

Lemma reorder_get_column df out c :
  reorder_columns df = Ok out -> get_column c out = get_column c df.
Proof.
  intros H. rewrite (getitems_get_column _ _ _ c H).
  case_decide as Hc; [done |]. rewrite elem_of_new_order in Hc.
  symmetry. by apply get_column_None.
Qed.

Lemma reorder_uniform (n : nat) df out :
  uniform n df -> reorder_columns df = Ok out -> uniform n out.
Proof. intros Hu H. by eapply getitems_uniform. Qed.

End ColumnOps.

(** ** Events of a run *)

Section Run.
Context (R : Runtime).

Lemma bind_events {A B} (m : M A) (f : A -> M B) :
  (m ≫= f).1
  = m.1 ++ match m.2 with
           | Ok a => (f a).1
           | Raise _ => []
           end.
Proof.
  destruct m as [es [a|e]]; unfold mbind, M_bind, bind; simpl.
  - by destruct (f a).
  - by rewrite app_nil_r.
Qed.

Lemma Forall_bind_events {A B} (P : event -> Prop) (m : M A) (f : A -> M B) :
  Forall P m.1 -> (forall a, m.2 = Ok a -> Forall P (f a).1) ->
  Forall P (m ≫= f).1.
Proof.
  intros Hm Hf. rewrite bind_events. apply Forall_app. split; [done |].
  destruct m.2 as [a|]; [by apply Hf | constructor].
Qed.

Lemma bind_result {A B} (m : M A) (f : A -> M B) :
  (m ≫= f).2
  = match m.2 with
    | Ok a => (f a).2
    | Raise e => Raise e
    end.
Proof.
  destruct m as [es [a|e]]; unfold mbind, M_bind, bind; simpl; [| done].
  by destruct (f a).
Qed.

Lemma bind_assoc {A B C} (m : M A) (f : A -> M B) (g : B -> M C) :
  (m ≫= f) ≫= g = m ≫= (fun a => f a ≫= g).
Proof.
  destruct m as [es [a|e]]; unfold mbind, M_bind, bind; simpl; [| done].
  destruct (f a) as [es' [b|e']]; simpl; [| done].
  destruct (g b) as [es'' r]. by rewrite app_assoc.
Qed.

Lemma bind_lift_Ok {A B} (a : A) (f : A -> M B) : lift (Ok a) ≫= f = f a.
Proof. unfold mbind, M_bind, bind, lift. by destruct (f a). Qed.

Lemma bind_lift_Raise {A B} (e : exn) (f : A -> M B) :
  lift (Raise e) ≫= f = ([], Raise e).
Proof. done. Qed.

Lemma bind_ret {A B} (a : A) (f : A -> M B) : ret a ≫= f = f a.
Proof. apply bind_lift_Ok. Qed.

Lemma geocode_address_spec n address :
  exists es r,
    geocode_address R n address = (es, Ok r)
    /\ geo_ok r /\ Forall (fun e => is_geocode_call e = true) es.
Proof.
  unfold geocode_address. destruct (gmaps R) as [client|].
  - destruct (client n address) as [[|[lat lng] ?]| |]; eexists _, _;
      (split; [reflexivity |]); (split; [| by repeat constructor]);
      (split; [by vm_compute; repeat constructor || set_solver |]);
      simpl; split; (done || intros []; done || intros; done).
  - eexists _, _. split; [reflexivity |]. split; [| constructor].
    split; [set_solver |]. simpl. split; [intros []; done | done].
Qed.

Lemma geocode_all_spec n addresses :
  exists es rows,
    geocode_all R n addresses = (es, Ok rows)
    /\ length rows = length addresses
    /\ Forall geo_ok rows
    /\ Forall (fun e => is_geocode_call e = true) es.
Proof.
  revert n. induction addresses as [|a rest IH]; intros n.
  - exists [], []. by repeat split.
  - destruct (geocode_address_spec n a) as (es1 & r & H1 & Hr & He1).
    destruct (IH (S n)) as (es2 & rows & H2 & Hlen & Hrows & He2).
    exists (es1 ++ es2), (r :: rows). split; [| split; [| split]].
    + cbn [geocode_all]. rewrite H1, H2. unfold mbind, M_bind, bind, mret, M_ret, ret.
      simpl. by rewrite app_nil_r.
    + simpl. by rewrite Hlen.
    + by constructor.
    + by apply Forall_app.
Qed.

Lemma enrich_events df :
  Forall (fun e => is_geocode_call e = true) (enrich R df).1.
Proof.
  unfold enrich. destruct (get_column "address" df) as [col|]; [| constructor].
  rewrite bind_events. apply Forall_app. split; [constructor |]. simpl.
  destruct (clean_address col) as [addresses|]; [| constructor].
  destruct (geocode_all_spec 0 addresses) as (es & rows & H & _ & _ & He).
  rewrite bind_events, H. simpl. by rewrite app_nil_r.
Qed.

Lemma prepare_events df :
  Forall (fun e => is_geocode_call e = true) (prepare R df).1.
Proof.
  unfold prepare. rewrite bind_events. simpl.
  destruct (format_stages R df) as [df1|]; [| constructor].
  rewrite bind_events. apply Forall_app. split; [apply enrich_events |].
  destruct ((enrich R df1).2); [| constructor]. constructor.
Qed.

(** The run on usable input: the stages, then the join and the display
    unless the postcode table is empty. *)
Lemma run_usable df postcode_df :
  empty df = false ->
  clean_and_process_dataframe R (Some df) postcode_df
  = (prepare R df ≫= fun df =>
     if empty postcode_df
     then emit (StError "Postcode data could not be loaded.")
     else
       lift (reference_join df postcode_df) ≫= fun combined_df =>
       publish (add_new_columns combined_df)).
Proof.
  intros Hd. unfold clean_and_process_dataframe, prepare. rewrite Hd.
  rewrite bind_assoc. destruct (format_stages R df) as [df1|e]; [| done].
  rewrite !bind_lift_Ok. by rewrite bind_assoc.
Qed.

End Run.

(** ** Fatal preconditions *)

Section Preconditions.
Context (R : Runtime).

Lemma geocode_call_no_output e : is_geocode_call e = true -> is_output e = false.
Proof. by destruct e. Qed.

(** C3, as the code has it. Without usable input the run shows one
    error and does nothing else. With usable input and an empty
    postcode table the formatting stages, the geocoding and the column
    ordering run first; the run then shows the error. In both cases no
    table is written, stored or shown. *)
Theorem abort_spec (df : option DataFrame) (postcode_df : DataFrame) :
  unusable df = true \/ empty postcode_df = true ->
  let run := clean_and_process_dataframe R df postcode_df in
  Forall (fun e => is_output e = false) run.1
  /\ run = match df with
           | Some d =>
               if empty d
               then ([StError "No data available to process."], Ok ())
               else prepare R d ≫= fun _ =>
                    emit (StError "Postcode data could not be loaded.")
           | None => ([StError "No data available to process."], Ok ())
           end.
Proof.
  intros H run. subst run. destruct df as [d|]; [destruct (empty d) eqn:Hd |].
  - simpl. rewrite Hd. split; [by repeat constructor | done].
  - destruct H as [H|Hpc]; [simpl in H; congruence |].
    rewrite run_usable by done. rewrite Hpc. split; [| done].
    rewrite bind_events. apply Forall_app. split.
    + eapply Forall_impl; [apply prepare_events |].
      intros e. apply geocode_call_no_output.
    + destruct ((prepare R d).2); by repeat constructor.
  - simpl. split; [by repeat constructor | done].
Qed.

(** An unreadable postcode file gives the empty table. *)
Lemma load_postcode_data_unavailable (e : exn) :
  exists es, load_postcode_data (Raise e) = (es, Ok []) /\ empty [] = true.
Proof. destruct e; by eexists. Qed.

End Preconditions.

Lemma abort_spec_witness :
  Forall (fun e => is_output e = false)
    (clean_and_process_dataframe example_runtime (Some example_raw) []).1.
Proof.
  apply (abort_spec example_runtime (Some example_raw) []).
  right. reflexivity.
Defined.

(** C3, as stated, fails for the postcode table: with an empty table
    the addresses of the records are cleaned and sent to the geocoding
    service, and only then the run stops. *)
Lemma abort_after_geocoding :
  empty [] = true
  /\ clean_and_process_dataframe example_runtime (Some example_raw) []
     = ([GmapsGeocode "JALAN X, Y, MALAYSIA"; GmapsGeocode "B, MALAYSIA";
         GmapsGeocode "C, MALAYSIA";
         StError "Postcode data could not be loaded."], Ok ()).
Proof. by vm_compute. Qed.

(** ** The final table *)

Section FinalTable.
Context (R : Runtime).

(** The tables that [publish] writes and stores are its argument. *)
Lemma publish_tables combined_df :
  Forall (fun e => forall t, stored_table e = Some t -> t = combined_df)
    (publish combined_df).1.
Proof.
  unfold publish.
  repeat (apply Forall_bind_events;
          [repeat constructor; by intros ? [= <-] | intros ? _]).
  apply Forall_bind_events; [| intros ? _; by repeat constructor].
  case_match; [| by repeat constructor].
  repeat (apply Forall_bind_events; [by repeat constructor | intros ? _]).
  by repeat constructor.
Qed.

(** A table written or stored by a run is the joined table with the
    flag columns set. *)
Lemma run_tables df postcode_df e t :
  e ∈ (clean_and_process_dataframe R df postcode_df).1 ->
  stored_table e = Some t ->
  exists d prepared combined_df,
    df = Some d /\ empty d = false /\ empty postcode_df = false
    /\ (prepare R d).2 = Ok prepared
    /\ reference_join prepared postcode_df = Ok combined_df
    /\ t = add_new_columns combined_df.
Proof.
  intros He Ht. destruct df as [d|]; [destruct (empty d) eqn:Hd |].
  - simpl in He. rewrite Hd in He. apply list_elem_of_singleton in He as ->. done.
  - rewrite run_usable in He by done. rewrite bind_events in He.
    apply elem_of_app in He as [He|He].
    { pose proof (prepare_events R d) as Hp.
      apply (proj1 (Forall_forall _ _) Hp) in He. by destruct e. }
    destruct (prepare R d).2 as [prepared|] eqn:Hprep; [| by apply elem_of_nil in He].
    destruct (empty postcode_df) eqn:Hpc.
    { apply list_elem_of_singleton in He as ->. done. }
    destruct (reference_join prepared postcode_df) as [combined_df|] eqn:Hjoin;
      [| by apply elem_of_nil in He].
    rewrite bind_lift_Ok in He.
    pose proof (publish_tables (add_new_columns combined_df)) as Hpub.
    pose proof (proj1 (Forall_forall _ _) Hpub e He t Ht) as ->.
    by exists d, prepared, combined_df.
  - simpl in He. apply list_elem_of_singleton in He as ->. done.
Qed.

Lemma nrows_setitem_scalar (df : DataFrame) cv : nrows (setitem_scalar df cv) = nrows df.
Proof.
  unfold setitem_scalar, setitem. destruct (has_column cv.1 df).
  - destruct df as [|[n col] df]; [done |]. rewrite fmap_cons. cbn [fst].
    case_decide; [| done]. cbn [nrows]. by rewrite length_replicate.
  - by destruct df as [|[n col] df].
Qed.

Lemma add_new_columns_flags (df : DataFrame) c :
  c ∈ flag_columns ->
  get_column c (add_new_columns df) = Some (replicate (nrows df) (VStr "")).
Proof.
  intros Hc. unfold add_new_columns, new_columns. cbn [foldl].
  set (df1 := setitem_scalar df _). set (df2 := setitem_scalar df1 _).
  set (df3 := setitem_scalar df2 _).
  assert (nrows df1 = nrows df) as H1 by apply nrows_setitem_scalar.
  assert (nrows df2 = nrows df) as H2
    by (unfold df2; by rewrite nrows_setitem_scalar).
  assert (nrows df3 = nrows df) as H3
    by (unfold df3; by rewrite nrows_setitem_scalar).
  unfold flag_columns in Hc. rewrite !elem_of_cons in Hc.
  destruct Hc as [->|[->|[->|[->|Hc]]]]; [| | | | by apply elem_of_nil in Hc].
  - unfold setitem_scalar at 1. rewrite setitem_get_ne by done.
    unfold df3, setitem_scalar at 1. rewrite setitem_get_ne by done.
    unfold df2, setitem_scalar at 1. rewrite setitem_get_ne by done.
    unfold df1, setitem_scalar. by rewrite setitem_get_eq.
  - unfold setitem_scalar at 1. rewrite setitem_get_ne by done.
    unfold df3, setitem_scalar at 1. rewrite setitem_get_ne by done.
    unfold df2, setitem_scalar at 1. rewrite setitem_get_eq. cbn [snd].
    by rewrite H1.
  - unfold setitem_scalar at 1. rewrite setitem_get_ne by done.
    unfold df3, setitem_scalar at 1. rewrite setitem_get_eq. cbn [snd].
    by rewrite H2.
  - unfold setitem_scalar at 1. rewrite setitem_get_eq. cbn [snd].
    by rewrite H3.
Qed.

Lemma nrows_add_new_columns (df : DataFrame) : nrows (add_new_columns df) = nrows df.
Proof.
  unfold add_new_columns, new_columns. cbn [foldl].
  by rewrite !nrows_setitem_scalar.
Qed.

(** C5, as the code has it. A table that a run writes to the Excel
    sheet or stores in the session has the four flag columns, and every
    cell of them is the empty string, whatever the records brought. *)
Theorem flag_columns_blank (df : option DataFrame) (postcode_df : DataFrame)
    (e : event) (t : DataFrame) (c : string) :
  e ∈ (clean_and_process_dataframe R df postcode_df).1 ->
  stored_table e = Some t ->
  c ∈ flag_columns ->
  get_column c t = Some (replicate (nrows t) (VStr "")).
Proof.
  intros He Ht Hc.
  destruct (run_tables df postcode_df e t He Ht)
    as (d & prepared & combined_df & _ & _ & _ & _ & _ & ->).
  rewrite nrows_add_new_columns. by apply add_new_columns_flags.
Qed.

End FinalTable.

Lemma flags_final_stored :
  SessionState flags_final
  ∈ (clean_and_process_dataframe example_runtime (Some flags_raw)
       example_postcodes).1.
Proof. apply (list_elem_of_lookup_2 _ 2). by vm_compute. Qed.

Lemma flag_columns_blank_witness :
  get_column "miskin" flags_final = Some [VStr ""].
Proof.
  apply (flag_columns_blank example_runtime (Some flags_raw) example_postcodes
           (SessionState flags_final) flags_final "miskin").
  - apply flags_final_stored.
  - reflexivity.
  - apply list_elem_of_here.
Defined.

(** C5, as stated, fails: the record comes with ["YA"] for [miskin], and
    the table that the run stores has the empty string there. *)
Lemma flag_value_overwritten :
  SessionState flags_final
  ∈ (clean_and_process_dataframe example_runtime (Some flags_raw)
       example_postcodes).1
  /\ cell flags_raw "miskin" 0 = Some (VStr "YA")
  /\ cell flags_final "miskin" 0 = Some (VStr "").
Proof. split; [apply flags_final_stored | by vm_compute]. Qed.

(** ** The join with the postcode table *)

Section Join.
Implicit Types (df pc : DataFrame) (c : string) (col lkeys rkeys : column).

Lemma elem_of_matching_rows_from j key rkeys j' :
  j' ∈ matching_rows_from j key rkeys
  <-> exists m, j' = (j + m)%nat /\ rkeys !! m = Some key.
Proof.
  revert j. induction rkeys as [|k rest IH]; intros j; cbn [matching_rows_from].
  - split; [by intros ?%elem_of_nil | by intros (m & _ & ?)].
  - destruct (decide (k = key)) as [->|Hk].
    + rewrite elem_of_cons, IH. split.
      * intros [->|(m & -> & Hm)]; [exists 0%nat | exists (S m)];
          (split; [lia | done]).
      * intros ([|m] & -> & Hm); [left; lia | right; exists m].
        split; [lia | done].
    + rewrite IH. split.
      * intros (m & -> & Hm). exists (S m). split; [lia | done].
      * intros ([|m] & -> & Hm); [simpl in Hm; congruence |].
        exists m. split; [lia | done].
Qed.

Lemma elem_of_matching_rows key rkeys j :
  j ∈ matching_rows key rkeys <-> rkeys !! j = Some key.
Proof.
  unfold matching_rows. rewrite elem_of_matching_rows_from. split.
  - by intros (m & -> & Hm).
  - intros Hj. by exists j.
Qed.

(** The pairs of one left row. *)
Lemma elem_of_row_pairs (i : nat) key rkeys (i' : nat) oj :
  (i', oj) ∈ match matching_rows key rkeys with
             | [] => [(i, None)]
             | js => (fun j => (i, Some j)) <$> js
             end
  <-> i' = i /\ match oj with
                | Some j => rkeys !! j = Some key
                | None => key ∉ rkeys
                end.
Proof.
  destruct (matching_rows key rkeys) as [|j0 js] eqn:E.
  - rewrite list_elem_of_singleton. split.
    + intros [= -> ->]. split; [done |]. intros [j Hj]%list_elem_of_lookup_1.
      apply elem_of_matching_rows in Hj. rewrite E in Hj. by apply elem_of_nil in Hj.
    + intros [-> H]. destruct oj as [j|]; [| done].
      apply elem_of_matching_rows in H. rewrite E in H. by apply elem_of_nil in H.
  - rewrite <- E. rewrite list_elem_of_fmap. split.
    + intros (j & [= -> ->] & Hj). by apply elem_of_matching_rows in Hj.
    + intros [-> H]. destruct oj as [j|].
      * exists j. split; [done |]. by apply elem_of_matching_rows.
      * exfalso. apply H. apply (list_elem_of_lookup_2 _ j0).
        apply elem_of_matching_rows. rewrite E. apply list_elem_of_here.
Qed.

Lemma elem_of_join_pairs_from i lkeys rkeys i' oj :
  (i', oj) ∈ join_pairs_from i lkeys rkeys
  <-> exists m key,
        i' = (i + m)%nat /\ lkeys !! m = Some key
        /\ match oj with
           | Some j => rkeys !! j = Some key
           | None => key ∉ rkeys
           end.
Proof.
  revert i. induction lkeys as [|k rest IH]; intros i; cbn [join_pairs_from].
  - split; [by intros ?%elem_of_nil | by intros (m & key & _ & ? & _)].
  - rewrite elem_of_app, elem_of_row_pairs, IH. split.
    + intros [[-> H]|(m & key & -> & Hm & H)].
      * exists 0%nat, k. split; [lia | done].
      * exists (S m), key. split; [lia | done].
    + intros ([|m] & key & -> & Hm & H).
      * left. injection Hm as ->. split; [lia | done].
      * right. exists m, key. split; [lia | done].
Qed.

(** A pair of the join: a left row and a right row with the same key,
    or a left row whose key the right side does not have. *)
Lemma elem_of_join_pairs lkeys rkeys i oj :
  (i, oj) ∈ join_pairs lkeys rkeys
  <-> exists key,
        lkeys !! i = Some key
        /\ match oj with
           | Some j => rkeys !! j = Some key
           | None => key ∉ rkeys
           end.
Proof.
  unfold join_pairs. rewrite elem_of_join_pairs_from. split.
  - intros (m & key & -> & H). by exists key.
  - intros (key & H). by exists i, key.
Qed.

(** Every left row is in the join. *)
Lemma join_pairs_total lkeys rkeys i :
  (i < length lkeys)%nat -> exists oj, (i, oj) ∈ join_pairs lkeys rkeys.
Proof.
  intros [key Hkey]%lookup_lt_is_Some_2.
  destruct (decide (key ∈ rkeys)) as [[j Hj]%list_elem_of_lookup_1|Hno].
  - exists (Some j). apply elem_of_join_pairs. by exists key.
  - exists None. apply elem_of_join_pairs. by exists key.
Qed.

Lemma join_pairs_left_bound lkeys rkeys i oj :
  (i, oj) ∈ join_pairs lkeys rkeys -> (i < length lkeys)%nat.
Proof.
  intros (key & Hk & _)%elem_of_join_pairs. by eapply lookup_lt_Some.
Qed.

Lemma join_pairs_right_bound lkeys rkeys i j :
  (i, Some j) ∈ join_pairs lkeys rkeys -> (j < length rkeys)%nat.
Proof.
  intros (key & _ & Hk)%elem_of_join_pairs. by eapply lookup_lt_Some.
Qed.

Lemma take_left_lookup pairs col k i oj :
  pairs !! k = Some (i, oj) ->
  take_left pairs col !! k = Some (default VNaN (col !! i)).
Proof. intros H. unfold take_left. by rewrite list_lookup_fmap, H. Qed.

Lemma take_right_lookup pairs col k i oj :
  pairs !! k = Some (i, oj) ->
  take_right pairs col !! k
  = Some match oj with
         | Some j => default VNaN (col !! j)
         | None => VNaN
         end.
Proof. intros H. unfold take_right. by rewrite list_lookup_fmap, H. Qed.

End Join.

Section JoinFrame.
Implicit Types (df pc : DataFrame) (c : string) (col lkeys rkeys : column).

Lemma rename_singleton a b df :
  rename {[ a := b ]} df = (fun p : string * column => (rename1 a b p.1, p.2)) <$> df.
Proof.
  unfold rename. apply list_fmap_ext. intros _ [n col] _. cbn [fst snd].
  f_equal. unfold rename1. rewrite lookup_singleton.
  destruct (decide (a = n)) as [->|Hne].
  - by rewrite decide_True.
  - by rewrite decide_False by congruence.
Qed.

(** The renamings and the removal of lines 222 to 227 do nothing when
    the column is not there: the tests can be left out. *)
Lemma rename_if a b df :
  (if has_column a df then rename {[ a := b ]} df else df)
  = (fun p : string * column => (rename1 a b p.1, p.2)) <$> df.
Proof.
  destruct (has_column a df) eqn:Ha; [apply rename_singleton |].
  apply has_column_false in Ha. rewrite <- (list_fmap_id df) at 1.
  apply list_fmap_ext. intros i [n col] Hi. cbn [fst snd id].
  unfold rename1. rewrite decide_False; [done |]. intros ->. apply Ha.
  apply list_elem_of_fmap. exists (a, col). split; [done |].
  by eapply list_elem_of_lookup_2.
Qed.

Lemma filter_if a df :
  (if has_column a df
   then filter (fun p : string * column => p.1 ≠ a) df else df)
  = filter (fun p : string * column => p.1 ≠ a) df.
Proof.
  destruct (has_column a df) eqn:Ha; [done |].
  apply has_column_false in Ha. symmetry. apply filter_all.
  intros [n col] Hp. cbn [fst]. intros ->. apply Ha.
  apply list_elem_of_fmap. by exists (a, col).
Qed.

(** The joined table in one piece. *)
Lemma reference_join_frame df pc lkeys rkeys :
  get_column "postcode" df = Some lkeys ->
  get_column "postcode" pc = Some rkeys ->
  let df1 := setitem "postcode" (normalize_postcode <$> lkeys) df in
  let pc1 := setitem "postcode" (normalize_postcode <$> rkeys) pc in
  let pairs := join_pairs (normalize_postcode <$> lkeys)
                          (normalize_postcode <$> rkeys) in
  reference_join df pc
  = Ok (filter (fun p : string * column => p.1 ≠ "state_y")
          (((fun p : string * column =>
               (left_name pc1 p.1, take_left pairs p.2)) <$> df1)
           ++ ((fun p : string * column =>
                  (right_name df1 p.1, take_right pairs p.2))
                 <$> filter (fun p : string * column => p.1 ≠ "postcode") pc1))).
Proof.
  intros Hl Hr df1 pc1 pairs. unfold reference_join.
  rewrite (getitem_Some _ _ _ Hl). cbn [rbind].
  rewrite (getitem_Some _ _ _ Hr). cbn [rbind]. cbv zeta.
  fold df1. fold pc1. rewrite filter_if, rename_if, rename_if.
  assert (get_column "postcode" df1 = Some (normalize_postcode <$> lkeys))
    as Hl1 by apply setitem_get_eq.
  assert (get_column "postcode" pc1 = Some (normalize_postcode <$> rkeys))
    as Hr1 by apply setitem_get_eq.
  unfold merge_left. rewrite Hl1, Hr1. cbn [default]. fold pairs.
  rewrite !fmap_app, <- !list_fmap_compose. reflexivity.
Qed.

End JoinFrame.

Section JoinSpec.
Context (df pc : DataFrame) (lkeys rkeys : column).
Context (Hl : get_column "postcode" df = Some lkeys).
Context (Hr : get_column "postcode" pc = Some rkeys).
Context (Hcommon : forall c, c ∈ columns df -> c ∈ columns pc ->
                             c = "postcode" \/ c = "state").
Context (Hdf : forall c, c ∈ ["city"; "district"; "state_x"; "state_y"] ->
                         c ∉ columns df).
Context (Hpc : forall c, c ∈ ["district"; "state_x"; "state_y"] ->
                         c ∉ columns pc).

Local Abbreviation df1 := (setitem "postcode" (normalize_postcode <$> lkeys) df).
Local Abbreviation pc1 := (setitem "postcode" (normalize_postcode <$> rkeys) pc).
Local Abbreviation pairs := (join_pairs (normalize_postcode <$> lkeys)
                                        (normalize_postcode <$> rkeys)).

Local Lemma columns_df1 : columns df1 = columns df.
Proof. apply columns_setitem_present. by eapply get_column_elem_of. Qed.

Local Lemma columns_pc1 : columns pc1 = columns pc.
Proof. apply columns_setitem_present. by eapply get_column_elem_of. Qed.

Local Lemma not_in_df c :
  c ∈ columns df -> c <> "city" /\ c <> "district" /\ c <> "state_x" /\ c <> "state_y".
Proof.
  intros Hc. repeat split; intros ->; (eapply Hdf; [| exact Hc]);
    rewrite !elem_of_cons; tauto.
Qed.

Local Lemma not_in_pc c :
  c ∈ columns pc -> c <> "district" /\ c <> "state_x" /\ c <> "state_y".
Proof.
  intros Hc. repeat split; intros ->; (eapply Hpc; [| exact Hc]);
    rewrite !elem_of_cons; tauto.
Qed.

(** A column of the left side keeps its name. *)
Lemma left_name_keeps c : c ∈ columns df -> left_name pc1 c = c.
Proof.
  intros Hc. destruct (not_in_df c Hc) as (H1 & H2 & H3 & H4).
  unfold left_name.
  destruct (bool_decide (c ≠ "postcode") && has_column c pc1) eqn:E.
  - apply andb_true_iff in E as [Hp%bool_decide_eq_true Hin%has_column_true].
    rewrite columns_pc1 in Hin.
    destruct (Hcommon c Hc Hin) as [->| ->]; [done | by vm_compute].
  - unfold rename1. rewrite (decide_False (P := c = "city")) by done.
    by rewrite decide_False.
Qed.

(** A column of the right side keeps its name, but [city], which is
    [district] in the result, and a [state] that the left side has
    too. *)
Lemma right_name_spec c :
  c ∈ columns pc -> c <> "postcode" ->
  right_name df1 c
  = if decide (c = "state" /\ "state" ∈ columns df) then "state_y"
    else if decide (c = "city") then "district" else c.
Proof.
  intros Hc Hp. destruct (not_in_pc c Hc) as (H1 & H2 & H3).
  unfold right_name. destruct (has_column c df1) eqn:E.
  - apply has_column_true in E. rewrite columns_df1 in E.
    destruct (Hcommon c E Hc) as [->| ->]; [done |].
    rewrite decide_True by done. by vm_compute.
  - apply has_column_false in E. rewrite columns_df1 in E.
    rewrite decide_False by (intros [-> ?]; done).
    unfold rename1. destruct (decide (c = "city")) as [->|Hcity]; [done |].
    by rewrite decide_False.
Qed.

Lemma joined_left_column out c col :
  reference_join df pc = Ok out ->
  c ∈ columns df -> get_column c df1 = Some col ->
  get_column c out = Some (take_left pairs col).
Proof.
  intros Hout Hc Hcol.
  rewrite (reference_join_frame df pc lkeys rkeys Hl Hr) in Hout.
  injection Hout as <-.
  destruct (not_in_df c Hc) as (H1 & H2 & H3 & H4).
  rewrite (get_column_filter (fun n => n ≠ "state_y")).
  rewrite decide_True by done. rewrite get_column_app.
  rewrite (get_column_fmap_names (left_name pc1) (take_left _) _ c c).
  - by rewrite Hcol.
  - intros m Hm. rewrite columns_df1 in Hm.
    by rewrite left_name_keeps.
Qed.

Lemma joined_right_column out c col :
  reference_join df pc = Ok out ->
  c ∈ columns pc -> c <> "postcode" ->
  ~ (c = "state" /\ "state" ∈ columns df) ->
  get_column c pc = Some col ->
  get_column (if decide (c = "city") then "district" else c) out
  = Some (take_right pairs col).
Proof.
  intros Hout Hc Hp Hstate Hcol.
  rewrite (reference_join_frame df pc lkeys rkeys Hl Hr) in Hout.
  injection Hout as <-.
  destruct (not_in_pc c Hc) as (H1 & H2 & H3).
  set (c' := if decide (c = "city") then "district" else c).
  assert (c' <> "state_y") as Hc'1 by (unfold c'; by case_decide).
  assert (c' ∉ columns df) as Hc'2.
  { unfold c'. case_decide as Hcity;
      [apply Hdf; rewrite !elem_of_cons; tauto |].
    intros Hin. destruct (Hcommon c Hin Hc) as [->| ->]; [done | tauto]. }
  rewrite (get_column_filter (fun n => n ≠ "state_y")).
  rewrite decide_True by done. rewrite get_column_app.
  rewrite (get_column_fmap_names (left_name pc1) (take_left _) _ c' c').
  2:{ intros m Hm. rewrite columns_df1 in Hm.
      by rewrite left_name_keeps. }
  replace (get_column c' df1) with (@None column).
  2:{ symmetry. apply get_column_None. by rewrite columns_df1. }
  cbn [fmap option_fmap option_map].
  rewrite (get_column_fmap_names (right_name df1) (take_right _) _ c' c).
  - rewrite (get_column_filter (fun n => n ≠ "postcode")).
    rewrite decide_True by done.
    rewrite setitem_get_ne by done. by rewrite Hcol.
  - intros m Hm.
    rewrite (columns_filter (fun n => n ≠ "postcode")) in Hm.
    apply list_elem_of_filter in Hm as [Hmp Hm]. rewrite columns_pc1 in Hm.
    destruct (not_in_pc m Hm) as (M1 & M2 & M3).
    rewrite right_name_spec by done. unfold c'.
    repeat case_decide; split; intros; subst; try done; tauto.
Qed.

Lemma joined_columns out :
  reference_join df pc = Ok out ->
  ("state_y" ∉ columns out) /\ ("city" ∉ columns out).
Proof.
  intros Hout.
  rewrite (reference_join_frame df pc lkeys rkeys Hl Hr) in Hout.
  injection Hout as <-. rewrite (columns_filter (fun n => n ≠ "state_y")).
  split; intros [Hne Hin]%list_elem_of_filter; [done |].
  unfold columns in Hin. rewrite fmap_app, <- !list_fmap_compose in Hin.
  apply elem_of_app in Hin as [Hin|Hin];
    apply list_elem_of_fmap in Hin as ([m col] & Hm & Hin); cbn in Hm.
  - assert (m ∈ columns df) as Hmdf.
    { rewrite <- columns_df1. apply list_elem_of_fmap. by exists (m, col). }
    rewrite left_name_keeps in Hm by done. subst m.
    by destruct (not_in_df _ Hmdf) as (? & _).
  - apply list_elem_of_filter in Hin as [Hmp Hin]. cbn in Hmp.
    assert (m ∈ columns pc) as Hmpc.
    { rewrite <- columns_pc1. apply list_elem_of_fmap. by exists (m, col). }
    rewrite right_name_spec in Hm by done.
    repeat case_decide; by subst.
Qed.

Lemma joined_uniform out :
  reference_join df pc = Ok out -> uniform (length pairs) out.
Proof.
  intros Hout.
  rewrite (reference_join_frame df pc lkeys rkeys Hl Hr) in Hout.
  injection Hout as <-. apply uniform_filter, Forall_app.
  split; apply Forall_fmap, Forall_forall; intros [m col] _; cbn;
    unfold take_left, take_right; by rewrite length_fmap.
Qed.

Lemma joined_nonempty out : reference_join df pc = Ok out -> out <> [].
Proof.
  intros Hout Hnil. subst out.
  pose proof (get_column_elem_of _ _ _ Hl) as Hin.
  assert (get_column "postcode" df1 = Some (normalize_postcode <$> lkeys))
    as Hcol by apply setitem_get_eq.
  by pose proof (joined_left_column [] "postcode" _ Hout Hin Hcol).
Qed.

End JoinSpec.

Lemma normalize_postcode_text (v : value) :
  exists core, normalize_postcode v = VStr core /\ trimmed_of (py_str v) core.
Proof. eexists. split; [reflexivity | apply strip_spec]. Qed.

(** C7. For well-formed frames that both have a [postcode] column and
    share no other name but [state], [reference_join] does not raise.
    The keys are compared as the trimmed text of the postcodes, so
    leading zeros count.  The rows of the result are the pairs of the
    left join: every left row is in at least one of them, paired with a
    right row of the same key or with none when no right row has its
    key.  A row of the result has the fields of its left row as they
    were ([state] too), the trimmed postcode, and the fields of its right
    row, [city] under the name [district]; without a right row these
    are NaN.  The [state] of the right side is dropped when the left
    side has one. *)
Theorem reference_join_spec (df pc : DataFrame) (lkeys rkeys : column) :
  get_column "postcode" df = Some lkeys ->
  get_column "postcode" pc = Some rkeys ->
  uniform (length lkeys) df ->
  uniform (length rkeys) pc ->
  (forall c, c ∈ columns df -> c ∈ columns pc -> c = "postcode" \/ c = "state") ->
  (forall c, c ∈ ["city"; "district"; "state_x"; "state_y"] -> c ∉ columns df) ->
  (forall c, c ∈ ["district"; "state_x"; "state_y"] -> c ∉ columns pc) ->
  exists out pairs,
    reference_join df pc = Ok out
    /\ pairs = join_pairs (normalize_postcode <$> lkeys)
                          (normalize_postcode <$> rkeys)
    /\ uniform (length pairs) out
    /\ (forall i, (i < length lkeys)%nat -> exists k oj, pairs !! k = Some (i, oj))
    /\ (forall k i oj,
          pairs !! k = Some (i, oj) ->
          (exists lv,
             lkeys !! i = Some lv
             /\ cell out "postcode" k = Some (normalize_postcode lv)
             /\ match oj with
                | Some j =>
                    exists rv, rkeys !! j = Some rv
                      /\ normalize_postcode rv = normalize_postcode lv
                | None =>
                    forall rv, rv ∈ rkeys ->
                      normalize_postcode rv <> normalize_postcode lv
                end)
          /\ (forall c, c ∈ columns df -> c <> "postcode" ->
                cell out c k = cell df c i)
          /\ (forall c, c ∈ columns pc -> c <> "postcode" ->
                ~ (c = "state" /\ "state" ∈ columns df) ->
                cell out (if decide (c = "city") then "district" else c) k
                = match oj with
                  | Some j => cell pc c j
                  | None => Some VNaN
                  end))
    /\ ("state_y" ∉ columns out) /\ ("city" ∉ columns out)
    /\ (forall v, exists core,
          normalize_postcode v = VStr core /\ trimmed_of (py_str v) core)
    /\ normalize_postcode (VStr " 01000 ") = VStr "01000"
    /\ normalize_postcode (VStr "01000") <> normalize_postcode (VStr "1000").
Proof.
  intros Hl Hr Hul Hur Hcommon Hdf Hpc.
  pose proof (reference_join_frame df pc lkeys rkeys Hl Hr) as Hout.
  cbv zeta in Hout. eexists _, _. split; [exact Hout |].
  split; [reflexivity |].
  set (pairs := join_pairs _ _) in *.
  set (out := filter _ _) in *.
  split; [by eapply joined_uniform |].
  split.
  { intros i Hi.
    destruct (join_pairs_total (normalize_postcode <$> lkeys)
                (normalize_postcode <$> rkeys) i) as [oj Hin];
      [by rewrite length_fmap |].
    apply list_elem_of_lookup_1 in Hin as [k Hk]. by exists k, oj. }
  split.
  { intros k i oj Hk.
    pose proof (list_elem_of_lookup_2 _ _ _ Hk) as Hin.
    pose proof (join_pairs_left_bound _ _ _ _ Hin) as Hi.
    rewrite length_fmap in Hi.
    apply elem_of_join_pairs in Hin as (key & Hkey & Hoj).
    apply list_lookup_fmap_Some in Hkey as (lv & -> & Hlv).
    split; [| split].
    - exists lv. split; [done |]. split.
      + unfold cell.
        rewrite (joined_left_column df pc lkeys rkeys Hl Hr Hcommon Hdf out
                   "postcode" (normalize_postcode <$> lkeys) Hout);
          [| by eapply get_column_elem_of | apply setitem_get_eq].
        cbn. rewrite (take_left_lookup _ _ _ _ _ Hk).
        by rewrite list_lookup_fmap, Hlv.
      + destruct oj as [j|].
        * apply list_lookup_fmap_Some in Hoj as (rv & Heq & Hrv). by exists rv.
        * intros rv Hrv Heq. apply Hoj. rewrite <- Heq.
          by apply list_elem_of_fmap_2.
    - intros c Hc Hcp.
      destruct (proj2 (get_column_is_Some c df) Hc) as [col Hcol].
      unfold cell.
      rewrite (joined_left_column df pc lkeys rkeys Hl Hr Hcommon Hdf out
                 c col Hout Hc); [| by rewrite setitem_get_ne].
      rewrite Hcol. cbn. rewrite (take_left_lookup _ _ _ _ _ Hk).
      pose proof (get_column_uniform _ _ _ _ Hul Hcol) as Hlen.
      destruct (lookup_lt_is_Some_2 col i) as [v Hv]; [lia |].
      by rewrite Hv.
    - intros c Hc Hcp Hstate.
      destruct (proj2 (get_column_is_Some c pc) Hc) as [col Hcol].
      unfold cell.
      rewrite (joined_right_column df pc lkeys rkeys Hl Hr Hcommon Hdf Hpc out
                 c col Hout Hc Hcp Hstate Hcol).
      rewrite Hcol. cbn. rewrite (take_right_lookup _ _ _ _ _ Hk).
      destruct oj as [j|]; [| done].
      pose proof (get_column_uniform _ _ _ _ Hur Hcol) as Hlen.
      apply list_lookup_fmap_Some in Hoj as (rv & _ & Hrv).
      apply lookup_lt_Some in Hrv.
      destruct (lookup_lt_is_Some_2 col j) as [v Hv]; [lia |].
      by rewrite Hv. }
  pose proof (joined_columns _ _ _ _ Hl Hr Hcommon Hdf Hpc _ Hout) as [Hsy Hcity].
  split; [done |]. split; [done |].
  split; [apply normalize_postcode_text |].
  split; by vm_compute.
Qed.

Lemma reference_join_spec_witness :
  exists out,
    reference_join join_records example_postcodes = Ok out
    /\ columns out = ["name"; "state"; "postcode"; "district"]
    /\ cell out "district" 0 = Some (VStr "Kajang")
    /\ cell out "state" 0 = Some (VStr "Selangor")
    /\ cell out "district" 1 = Some VNaN
    /\ cell out "state" 1 = Some (VStr "Kedah").
Proof.
  destruct (reference_join_spec join_records example_postcodes
              [VStr " 43000"; VStr "99999"] [VInt 43000; VStr "01000 "])
    as (out & pairs & Hout & _).
  - reflexivity.
  - reflexivity.
  - by repeat constructor.
  - by repeat constructor.
  - intros c H1 H2.
    cbv [columns join_records example_postcodes fmap list_fmap fst] in H1, H2.
    repeat (apply elem_of_cons in H1 as [->|H1]);
      try (by apply elem_of_nil in H1);
      repeat (apply elem_of_cons in H2 as [H2|H2]);
      try (by apply elem_of_nil in H2); try discriminate H2; tauto.
  - intros c H1 H2.
    cbv [columns join_records example_postcodes fmap list_fmap fst] in H2.
    repeat (apply elem_of_cons in H1 as [->|H1]);
      try (by apply elem_of_nil in H1);
      repeat (apply elem_of_cons in H2 as [H2|H2]);
      try (by apply elem_of_nil in H2); discriminate H2.
  - intros c H1 H2.
    cbv [columns join_records example_postcodes fmap list_fmap fst] in H2.
    repeat (apply elem_of_cons in H1 as [->|H1]);
      try (by apply elem_of_nil in H1);
      repeat (apply elem_of_cons in H2 as [H2|H2]);
      try (by apply elem_of_nil in H2); discriminate H2.
  - exists out. vm_compute in Hout. injection Hout as <-. by vm_compute.
Defined.

(** ** Rows and columns through the stages *)

Section Stages.
Context (R : Runtime).
Implicit Types (df out : DataFrame) (c : string) (col : column) (n : nat).

Lemma uniform_set_mapped n df c c' col col' :
  uniform n df -> get_column c df = Some col -> length col' = length col ->
  uniform n (setitem c' col' df).
Proof.
  intros Hu Hcol Hlen. apply uniform_setitem; [done |].
  rewrite Hlen. by eapply get_column_uniform.
Qed.

Lemma columns_setitem_mono c c' col df :
  c ∈ columns df -> c ∈ columns (setitem c' col df).
Proof. intros Hc. apply elem_of_columns_setitem. by right. Qed.

Lemma uppercase_column_inv c df out :
  uppercase_column R c df = Ok out ->
  out = df \/ exists col col', get_column c df = Some col
                               /\ length col' = length col
                               /\ out = setitem c col' df.
Proof.
  unfold uppercase_column. destruct (get_column c df) as [col|]; [| by intros [= <-]; left].
  unfold series_str_upper. destruct (holds_text col); [| done]. cbn [rbind].
  intros [= <-]. right. eexists _, _. split; [done |]. split; [| done].
  by rewrite length_fmap.
Qed.

Lemma format_salary_inv df out :
  format_salary R df = Ok out ->
  out = df \/ exists col col', get_column "salary_monthly" df = Some col
                               /\ length col' = length col
                               /\ out = setitem "salary_monthly" col' df.
Proof.
  unfold format_salary. destruct (get_column _ df) as [col|]; [| by intros [= <-]; left].
  destruct (series_apply _ col) as [col'|] eqn:E; [| done]. cbn [rbind].
  intros [= <-]. right. exists col, col'. split; [done |]. split; [| done].
  by eapply series_apply_length.
Qed.

Lemma age_format_inv df out :
  age_format df = Ok out ->
  exists col col', get_column "ic" df = Some col
                   /\ length col' = length col
                   /\ out = setitem "age" col' df.
Proof.
  unfold age_format, getitem. destruct (get_column _ df) as [col|]; [| done].
  cbn [rbind]. destruct (series_apply _ col) as [col'|] eqn:E; [| done]. cbn [rbind].
  intros [= <-]. exists col, col'. split; [done |]. split; [| done].
  by eapply series_apply_length.
Qed.

(** The stages before the enrichment keep the number of rows of every
    column and keep the [address] column. *)
Lemma format_stages_inv n df out :
  uniform n df -> "address" ∈ columns df ->
  format_stages R df = Ok out ->
  uniform n out /\ "address" ∈ columns out.
Proof.
  intros Hu Ha. unfold format_stages.
  set (d1 := drop_columns df unwanted_columns).
  assert (uniform n d1 /\ "address" ∈ columns d1) as [Hu1 Ha1].
  { split; [by apply uniform_filter |]. unfold d1, drop_columns.
    rewrite (columns_filter (fun a => a ∉ unwanted_columns)).
    apply list_elem_of_filter. split; [| done].
    apply (bool_decide_unpack _). by vm_compute. }
  set (d2 := rename_columns d1).
  assert (uniform n d2 /\ "address" ∈ columns d2) as [Hu2 Ha2].
  { split; [by apply uniform_rename |]. unfold d2, rename_columns.
    rewrite columns_rename. by apply (list_elem_of_fmap_2' _ _ "address"). }
  set (d3 := rename_program_values d2 program_mapping).
  assert (uniform n d3 /\ "address" ∈ columns d3) as [Hu3 Ha3].
  { unfold d3, rename_program_values.
    destruct (get_column "program" d2) as [col|] eqn:E; [| done].
    split; [| by apply columns_setitem_mono].
    eapply uniform_set_mapped; [done | exact E | by rewrite length_fmap]. }
  set (d4 := reformat_dates d3).
  assert (uniform n d4 /\ "address" ∈ columns d4) as [Hu4 Ha4].
  { unfold d4, reformat_dates.
    destruct (get_column "date" d3) as [col|] eqn:E; [| done].
    split; [| by apply columns_setitem_mono].
    eapply uniform_set_mapped; [done | exact E | by rewrite length_fmap]. }
  unfold format_uppercase.
  destruct (uppercase_column R "name" d4) as [d5|] eqn:E5; [| done]. cbn [rbind].
  assert (uniform n d5 /\ "address" ∈ columns d5) as [Hu5 Ha5].
  { apply uppercase_column_inv in E5 as [->|(col & col' & Hc & Hl & ->)]; [done |].
    split; [by eapply uniform_set_mapped | by apply columns_setitem_mono]. }
  destruct (uppercase_column R "address" d5) as [d6|] eqn:E6; [| done]. cbn [rbind].
  assert (uniform n d6 /\ "address" ∈ columns d6) as [Hu6 Ha6].
  { apply uppercase_column_inv in E6 as [->|(col & col' & Hc & Hl & ->)]; [done |].
    split; [by eapply uniform_set_mapped | by apply columns_setitem_mono]. }
  set (d7 := format_phone_numbers d6).
  assert (uniform n d7 /\ "address" ∈ columns d7) as [Hu7 Ha7].
  { unfold d7, format_phone_numbers.
    destruct (get_column "phone" d6) as [col|] eqn:E; [| done].
    split; [| by apply columns_setitem_mono].
    eapply uniform_set_mapped; [done | exact E | by rewrite length_fmap]. }
  destruct (format_salary R d7) as [d8|] eqn:E8; [| done]. cbn [rbind].
  assert (uniform n d8 /\ "address" ∈ columns d8) as [Hu8 Ha8].
  { apply format_salary_inv in E8 as [->|(col & col' & Hc & Hl & ->)]; [done |].
    split; [by eapply uniform_set_mapped | by apply columns_setitem_mono]. }
  intros (col & col' & Hc & Hl & ->)%age_format_inv.
  split; [by eapply uniform_set_mapped | by apply columns_setitem_mono].
Qed.

Lemma clean_address_length col addresses :
  clean_address col = Ok addresses -> length addresses = length col.
Proof. apply series_apply_length. Qed.

Lemma isna_None_to_NaN (v : value) : isna (None_to_NaN v) = isna v.
Proof. by destruct v. Qed.

Lemma inferred_column_fmap col :
  exists f : value -> value,
    inferred_column col = f <$> col /\ forall v, isna (f v) = isna v.
Proof.
  unfold inferred_column. destruct (existsb is_float col).
  - exists None_to_NaN. split; [done | apply isna_None_to_NaN].
  - exists id. split; [by rewrite list_fmap_id | done].
Qed.

(** The rows as the frame holds them: a missing coordinate is NaN in a
    column of floats. *)
Lemma inferred_rows (rows : list geo_row) :
  Forall geo_ok rows ->
  exists rows' : list geo_row,
    length rows' = length rows
    /\ Forall geo_ok rows'
    /\ status_column rows' = status_column rows
    /\ lat_column rows' = inferred_column (lat_column rows)
    /\ lon_column rows' = inferred_column (lon_column rows).
Proof.
  intros Hrows.
  destruct (inferred_column_fmap (lat_column rows)) as (f & Hf & Hfna).
  destruct (inferred_column_fmap (lon_column rows)) as (g & Hg & Hgna).
  exists ((fun r : geo_row => (r.1.1, f r.1.2, g r.2)) <$> rows).
  split; [by rewrite length_fmap |]. split; [| split; [| split]].
  - apply Forall_fmap. eapply Forall_impl; [exact Hrows |].
    intros [[s la] lo] [Hs Hc]. split; [done |]. cbn in *. by rewrite Hfna, Hgna.
  - unfold status_column. rewrite <- list_fmap_compose. by apply list_fmap_ext.
  - rewrite Hf. unfold lat_column. rewrite <- !list_fmap_compose.
    by apply list_fmap_ext.
  - rewrite Hg. unfold lon_column. rewrite <- !list_fmap_compose.
    by apply list_fmap_ext.
Qed.

Lemma length_inferred_column col : length (inferred_column col) = length col.
Proof. unfold inferred_column. destruct (existsb _ _); by rewrite ?length_fmap. Qed.

(** The enrichment of a frame with an [address] column writes one
    geocoded row per record. *)
Lemma enrich_inv n df out :
  uniform n df -> "address" ∈ columns df ->
  (enrich R df).2 = Ok out ->
  uniform n out
  /\ exists rows, length rows = n /\ Forall geo_ok rows /\ geocoded rows out.
Proof.
  intros Hu [col Hcol]%get_column_is_Some. unfold enrich. rewrite Hcol.
  rewrite bind_result. cbn [lift snd].
  destruct (clean_address col) as [addresses|] eqn:Ea; [| done].
  rewrite bind_result.
  destruct (geocode_all_spec R 0 addresses) as (es & rows & Hg & Hlen & Hrows & _).
  rewrite Hg. cbn [snd mret M_ret ret]. intros [= <-].
  assert (length rows = n) as Hn.
  { rewrite Hlen, (clean_address_length _ _ Ea). by eapply get_column_uniform. }
  split.
  - unfold set_geocode_results.
    repeat (apply uniform_setitem;
            [| by rewrite ?length_inferred_column, length_fmap]).
    apply uniform_setitem; [done |].
    rewrite length_fmap, (clean_address_length _ _ Ea).
    by eapply get_column_uniform.
  - destruct (inferred_rows rows Hrows) as (rows' & Hlen' & Hrows' & Hs & Hla & Hlo).
    exists rows'. split; [by rewrite Hlen' |]. split; [done |].
    unfold geocoded, set_geocode_results. rewrite Hs, Hla, Hlo. split; [| split].
    + rewrite !setitem_get_ne by done. apply setitem_get_eq.
    + rewrite setitem_get_ne by done. apply setitem_get_eq.
    + apply setitem_get_eq.
Qed.

Lemma prepare_inv n df out :
  uniform n df -> "address" ∈ columns df ->
  (prepare R df).2 = Ok out ->
  uniform n out
  /\ exists rows, length rows = n /\ Forall geo_ok rows /\ geocoded rows out.
Proof.
  intros Hu Ha. unfold prepare. rewrite bind_result. cbn [lift snd].
  destruct (format_stages R df) as [d1|] eqn:E1; [| done].
  destruct (format_stages_inv n df d1 Hu Ha E1) as [Hu1 Ha1].
  rewrite bind_result.
  destruct (enrich R d1).2 as [d2|] eqn:E2; [| done].
  destruct (enrich_inv n d1 d2 Hu1 Ha1 E2) as (Hu2 & rows & Hlen & Hrows & Hg1 & Hg2 & Hg3).
  cbn [lift snd]. intros Hre. split; [by eapply reorder_uniform |].
  exists rows. split; [done |]. split; [done |].
  unfold geocoded. by rewrite !(reorder_get_column d2 out _ Hre).
Qed.

End Stages.

(** ** The geocoding columns through the join *)

Section GeocodeJoin.
Implicit Types (df pc out : DataFrame) (c : string) (col lkeys rkeys : column).

Lemma not_suffixed_x (m c : string) :
  PyStr.endswith "_x" c = false -> m +:+ "_x" <> c.
Proof. intros Hc <-. by rewrite endswith_app in Hc. Qed.

(** A name that no renaming of the join produces is the name of its
    own column only. *)
Lemma left_name_plain pc c m :
  c ∉ columns pc -> PyStr.endswith "_x" c = false ->
  c ∉ ["city"; "district"; "state"; "state_x"] ->
  left_name pc m = c <-> m = c.
Proof.
  intros Hpc Hx Hc. rewrite !not_elem_of_cons in Hc.
  destruct Hc as (C1 & C2 & C3 & C4 & _). unfold left_name, rename1. split.
  - destruct (bool_decide (m ≠ "postcode") && has_column m pc).
    + destruct (decide (m +:+ "_x" = "city")) as [E|_];
        [by apply not_suffixed_x in E |].
      case_decide; [congruence |]. by intros ?%not_suffixed_x.
    + repeat case_decide; congruence.
  - intros ->. replace (has_column c pc) with false
      by (symmetry; by apply has_column_false).
    rewrite andb_false_r. rewrite (decide_False (P := c = "city")) by done.
    by rewrite decide_False.
Qed.

Lemma joined_plain_column df pc lkeys rkeys out c col :
  get_column "postcode" df = Some lkeys ->
  get_column "postcode" pc = Some rkeys ->
  reference_join df pc = Ok out ->
  get_column c df = Some col ->
  c ∉ columns pc -> PyStr.endswith "_x" c = false ->
  c ∉ ["city"; "district"; "state"; "state_x"; "state_y"; "postcode"] ->
  get_column c out
  = Some (take_left (join_pairs (normalize_postcode <$> lkeys)
                                (normalize_postcode <$> rkeys)) col).
Proof.
  intros Hl Hr Hout Hcol Hpc Hx Hc.
  rewrite (reference_join_frame df pc lkeys rkeys Hl Hr) in Hout.
  injection Hout as <-. rewrite !not_elem_of_cons in Hc.
  destruct Hc as (C1 & C2 & C3 & C4 & C5 & C6 & _).
  rewrite (get_column_filter (fun n => n ≠ "state_y")).
  rewrite decide_True by done. rewrite get_column_app.
  rewrite (get_column_fmap_names _ (take_left _) _ c c).
  - rewrite setitem_get_ne by done. by rewrite Hcol.
  - intros m _. apply left_name_plain; [| done |].
    + rewrite columns_setitem_present; [done | by eapply get_column_elem_of].
    + rewrite !not_elem_of_cons. repeat split; try done. apply not_elem_of_nil.
Qed.

Lemma take_left_fmap (f : geo_row -> value) pairs (rows : list geo_row) :
  (forall p, p ∈ pairs -> (p.1 < length rows)%nat) ->
  take_left pairs (f <$> rows) = f <$> rows_of_pairs pairs rows.
Proof.
  intros Hb. unfold take_left, rows_of_pairs. rewrite <- list_fmap_compose.
  apply list_fmap_ext. intros k [i oj] Hp. unfold compose. cbn [fst].
  destruct (lookup_lt_is_Some_2 rows i) as [r Hr].
  { apply (Hb (i, oj)). by eapply list_elem_of_lookup_2. }
  by rewrite list_lookup_fmap, Hr.
Qed.

Lemma rows_of_pairs_ok pairs rows :
  Forall geo_ok rows -> Forall geo_ok (rows_of_pairs pairs rows).
Proof.
  intros Hrows. apply Forall_fmap, Forall_forall. intros p _. cbn.
  destruct (rows !! p.1) as [r|] eqn:E; cbn.
  - eapply (proj1 (Forall_forall _ _) Hrows). by eapply list_elem_of_lookup_2.
  - split; [| split; [intros []; done | done]].
    unfold statuses. rewrite !elem_of_cons. tauto.
Qed.

Lemma geocoded_setitem rows df c col :
  c ∉ ["geocode_status"; "lat"; "lon"] ->
  geocoded rows df -> geocoded rows (setitem c col df).
Proof.
  rewrite !not_elem_of_cons. intros (C1 & C2 & C3 & _) (H1 & H2 & H3).
  unfold geocoded. by rewrite !setitem_get_ne by done.
Qed.

Lemma geocoded_add_new_columns rows df :
  geocoded rows df -> geocoded rows (add_new_columns df).
Proof.
  intros H. unfold add_new_columns, new_columns, setitem_scalar. cbn [foldl fst snd].
  repeat (apply geocoded_setitem;
          [rewrite !not_elem_of_cons; repeat split; try done; apply not_elem_of_nil |]).
  done.
Qed.

End GeocodeJoin.

(** ** Counting the statuses *)

Section Counting.

Lemma count_value_cons (v x : value) (col : column) :
  count_value v (x :: col)
  = ((if decide (x = v) then 1 else 0) + count_value v col)%nat.
Proof.
  unfold count_value. destruct (decide (x = v)).
  - by rewrite filter_cons_True.
  - by rewrite filter_cons_False.
Qed.

Lemma sum_list_with_add {A} (f g : A -> nat) (l : list A) :
  sum_list_with (fun x => (f x + g x)%nat) l
  = (sum_list_with f l + sum_list_with g l)%nat.
Proof. induction l as [|x l IH]; simpl; lia. Qed.

Lemma sum_list_with_zero {A} (l : list A) :
  sum_list_with (fun _ => 0%nat) l = 0%nat.
Proof. induction l as [|x l IH]; simpl; lia. Qed.

Lemma sum_list_with_ext {A} (f g : A -> nat) (l : list A) :
  (forall x, f x = g x) -> sum_list_with f l = sum_list_with g l.
Proof. intros H. induction l as [|x l IH]; simpl; [done |]. by rewrite H, IH. Qed.

Lemma sum_list_with_fmap {A B} (f : B -> nat) (g : A -> B) (l : list A) :
  sum_list_with f (g <$> l) = sum_list_with (fun x => f (g x)) l.
Proof.
  induction l as [|x l IH]; [done |].
  rewrite fmap_cons. cbn [sum_list_with]. by rewrite IH.
Qed.

Lemma sum_indicator_absent (x : value) (ds : list value) :
  x ∉ ds ->
  sum_list_with (fun v => if decide (x = v) then 1%nat else 0%nat) ds = 0%nat.
Proof.
  induction ds as [|d ds IH]; [done |]. rewrite not_elem_of_cons.
  intros [Hne Hx]. simpl. rewrite decide_False by done. by rewrite IH.
Qed.

(** In a list without repetition a value is counted once. *)
Lemma sum_indicator (x : value) (ds : list value) :
  NoDup ds -> x ∈ ds ->
  sum_list_with (fun v => if decide (x = v) then 1%nat else 0%nat) ds = 1%nat.
Proof.
  induction 1 as [|d ds Hd Hnd IH]; [by intros ?%elem_of_nil |].
  intros Hx. simpl. destruct (decide (x = d)) as [->|Hne].
  - by rewrite sum_indicator_absent.
  - apply elem_of_cons in Hx as [?|Hx]; [done |]. by rewrite IH.
Qed.

(** The counts of the distinct values of a column add up to its
    length. *)
Lemma sum_counts (ds : list value) (col : column) :
  NoDup ds -> (forall x, x ∈ col -> x ∈ ds) ->
  sum_list_with (fun v => count_value v col) ds = length col.
Proof.
  intros Hnd. induction col as [|x col IH]; intros Hin.
  - apply sum_list_with_zero.
  - rewrite (sum_list_with_ext _ _ _ (fun v => count_value_cons v x col)).
    rewrite sum_list_with_add, sum_indicator; [| done | apply Hin, list_elem_of_here].
    rewrite IH; [done |]. intros y Hy. by apply Hin, list_elem_of_further.
Qed.

Lemma elem_of_unique (x : value) (col : column) : x ∈ unique col <-> x ∈ col.
Proof.
  induction col as [|v col IH]; [done |]. cbn [unique].
  rewrite !elem_of_cons, list_elem_of_filter, IH.
  destruct (decide (x = v)); tauto.
Qed.

Lemma NoDup_unique (col : column) : NoDup (unique col).
Proof.
  induction col as [|v col IH]; [constructor |]. cbn [unique].
  apply NoDup_cons. split; [| by apply NoDup_filter].
  by intros [? _]%list_elem_of_filter.
Qed.

Lemma insert_count_Permutation (p : value * nat) (l : list (value * nat)) :
  insert_count p l ≡ₚ p :: l.
Proof.
  induction l as [|q l IH]; [done |]. cbn [insert_count].
  destruct (q.2 <=? p.2)%nat; [done |]. rewrite IH. apply Permutation_swap.
Qed.

Lemma sort_counts_Permutation (l : list (value * nat)) : sort_counts l ≡ₚ l.
Proof.
  induction l as [|p l IH]; [done |]. unfold sort_counts in *. cbn [foldr].
  by rewrite insert_count_Permutation, IH.
Qed.

Lemma value_counts_total (col : column) :
  Forall (fun v => isna v = false) col ->
  sum_list_with snd (value_counts col) = length col.
Proof.
  intros Hcol. unfold value_counts. rewrite sort_counts_Permutation.
  rewrite sum_list_with_fmap. cbn [snd].
  rewrite (filter_all (fun x => isna x = false) col)
    by apply (proj1 (Forall_forall _ _) Hcol).
  apply sum_counts; [apply NoDup_unique |].
  intros x Hx. by apply elem_of_unique.
Qed.

Lemma status_total_rows (rows : list geo_row) :
  Forall geo_ok rows -> status_total (status_column rows) = length rows.
Proof.
  unfold status_total, statuses.
  induction 1 as [|[[s lat] lon] rows [Hs _] _ IH]; [done |].
  cbn [sum_list_with] in *. unfold status_column in *. rewrite fmap_cons.
  rewrite !count_value_cons. cbn [fst snd length] in *.
  unfold statuses in Hs. rewrite !elem_of_cons, elem_of_nil in Hs.
  destruct Hs as [->|[->|[->|[->|[]]]]]; repeat case_decide; simplify_eq; lia.
Qed.

Lemma success_count_rows (rows : list geo_row) :
  Forall geo_ok rows ->
  count_value (VStr "success") (status_column rows)
  = both_present (lat_column rows) (lon_column rows).
Proof.
  unfold both_present, status_column, lat_column, lon_column.
  induction 1 as [|[[s lat] lon] rows [_ Hiff] _ IH]; [done |].
  rewrite !fmap_cons, count_value_cons. cbn [fst snd zip zip_with] in *.
  rewrite IH. destruct (decide (VStr s = VStr "success")) as [[= ->]|Hne].
  - rewrite filter_cons_True; [done |]. cbn. by apply Hiff.
  - rewrite filter_cons_False; [done |]. cbn. intros Hp.
    apply Hiff in Hp. congruence.
Qed.

End Counting.

(** ** The number of row pairs of the join *)

Section PairCount.
Implicit Types (lkeys rkeys : column).

Lemma length_matching_rows_from (j : nat) (key : value) rkeys :
  length (matching_rows_from j key rkeys) = count_value key rkeys.
Proof.
  revert j. induction rkeys as [|k rest IH]; intros j; [done |].
  cbn [matching_rows_from]. rewrite count_value_cons.
  destruct (decide (k = key)); cbn [length]; by rewrite IH.
Qed.

Lemma length_join_pairs_from (i : nat) lkeys rkeys :
  length (join_pairs_from i lkeys rkeys)
  = sum_list_with (fun k => 1 `max` count_value k rkeys) lkeys.
Proof.
  revert i. induction lkeys as [|k rest IH]; intros i; [done |].
  cbn [join_pairs_from sum_list_with]. rewrite length_app, IH. f_equal.
  unfold matching_rows. rewrite <- (length_matching_rows_from 0 k rkeys).
  destruct (matching_rows_from 0 k rkeys) as [|j js]; [done |].
  rewrite length_fmap. cbn [length]. lia.
Qed.

Lemma count_value_NoDup (v : value) col : NoDup col -> (count_value v col <= 1)%nat.
Proof.
  induction 1 as [|x l Hx Hnd IH]; [cbn; lia |].
  rewrite count_value_cons. destruct (decide (x = v)) as [->|]; [| lia].
  unfold count_value. rewrite filter_none; [cbn; lia |].
  by intros y Hy ->.
Qed.

Lemma sum_ones {A} (f : A -> nat) (l : list A) :
  (forall x, f x = 1%nat) -> sum_list_with f l = length l.
Proof.
  intros H. induction l as [|x l IH]; [done |]. cbn. by rewrite H, IH.
Qed.

Lemma length_join_pairs lkeys rkeys :
  length (join_pairs (normalize_postcode <$> lkeys) rkeys)
  = sum_list_with
      (fun k => 1 `max` count_value (normalize_postcode k) rkeys) lkeys.
Proof. unfold join_pairs. by rewrite length_join_pairs_from, sum_list_with_fmap. Qed.

Lemma length_join_pairs_NoDup lkeys rkeys :
  NoDup rkeys -> length (join_pairs lkeys rkeys) = length lkeys.
Proof.
  intros Hnd. unfold join_pairs. rewrite length_join_pairs_from. apply sum_ones.
  intros k. pose proof (count_value_NoDup k rkeys Hnd). lia.
Qed.

Lemma length_join_pairs_ge lkeys rkeys :
  (length lkeys <= length (join_pairs lkeys rkeys))%nat.
Proof.
  unfold join_pairs. rewrite length_join_pairs_from.
  induction lkeys as [|k l IH]; cbn; lia.
Qed.

End PairCount.

(** ** The geocoding summary of a run *)

Section Summary.
Context (R : Runtime).

Lemma reference_join_keys (df pc out : DataFrame) :
  reference_join df pc = Ok out ->
  exists lkeys rkeys,
    get_column "postcode" df = Some lkeys
    /\ get_column "postcode" pc = Some rkeys.
Proof.
  unfold reference_join, getitem.
  destruct (get_column "postcode" df) as [lkeys|]; [| done]. cbn [rbind].
  destruct (get_column "postcode" pc) as [rkeys|]; [| done].
  intros _. by exists lkeys, rkeys.
Qed.

Lemma geo_ok_status (r : geo_row) : geo_ok r -> r.1.1 ∈ statuses.
Proof. by intros [? _]. Qed.

Lemma geo_ok_coordinates (r : geo_row) :
  geo_ok r -> (isna r.1.2 = false /\ isna r.2 = false <-> r.1.1 = "success").
Proof. by intros [_ ?]. Qed.

(** C6, as the code has it. [geocode_address] gives one of the four
    statuses, and both coordinates exactly with [success]. In a run on
    well-formed records with an [address] column (and a postcode table
    without geocoding columns), a table that is written or stored holds
    one such row per row of the joined table: the counts over the four
    statuses, and the counts that [value_counts] shows, add up to the
    number of rows of that table, and the number of [success] rows is
    the number of rows with both [lat] and [lon]. The table has at
    least as many rows as there are records, and as many when the
    trimmed postcodes of the reference table are distinct; a record
    whose postcode is listed more than once is counted once for each
    listing. *)
Theorem geocode_summary_spec (df postcode_df : DataFrame) (e : event)
    (t : DataFrame) :
  uniform (nrows df) df ->
  "address" ∈ columns df ->
  (forall c, c ∈ ["geocode_status"; "lat"; "lon"] -> c ∉ columns postcode_df) ->
  e ∈ (clean_and_process_dataframe R (Some df) postcode_df).1 ->
  stored_table e = Some t ->
  (forall n address, exists es r,
      geocode_address R n address = (es, Ok r) /\ geo_ok r)
  /\ (exists rows : list geo_row,
       geocoded rows t
       /\ length rows = nrows t
       /\ Forall geo_ok rows
       /\ status_total (status_column rows) = nrows t
       /\ sum_list_with snd (value_counts (status_column rows)) = nrows t
       /\ count_value (VStr "success") (status_column rows)
          = both_present (lat_column rows) (lon_column rows))
  /\ (nrows df <= nrows t)%nat
  /\ (forall rkeys,
        get_column "postcode" postcode_df = Some rkeys ->
        NoDup (normalize_postcode <$> rkeys) -> nrows t = nrows df).
Proof.
  intros Hu Ha Hpc He Ht. split.
  { intros n address.
    destruct (geocode_address_spec R n address) as (es & r & H & Hr & _).
    by exists es, r. }
  destruct (run_tables R _ _ _ _ He Ht)
    as (d & prepared & combined & [= <-] & _ & _ & Hprep & Hjoin & ->).
  destruct (prepare_inv R _ _ _ Hu Ha Hprep)
    as (Hup & rows0 & Hlen0 & Hrows0 & Hg1 & Hg2 & Hg3).
  destruct (reference_join_keys _ _ _ Hjoin) as (lkeys & rkeys & Hl & Hr).
  set (pairs := join_pairs (normalize_postcode <$> lkeys)
                           (normalize_postcode <$> rkeys)).
  assert (length lkeys = nrows df) as Hkeys
    by apply (get_column_uniform _ _ _ _ Hup Hl).
  assert (forall p, p ∈ pairs -> (p.1 < length rows0)%nat) as Hbound.
  { intros [i oj] Hp. apply join_pairs_left_bound in Hp.
    rewrite length_fmap in Hp. cbn [fst]. by rewrite Hlen0, <- Hkeys. }
  assert (forall c, c ∈ ["geocode_status"; "lat"; "lon"] ->
            forall col, get_column c prepared = Some col ->
              get_column c combined = Some (take_left pairs col)) as Hcol.
  { intros c Hc col Hcc.
    apply (joined_plain_column prepared postcode_df lkeys rkeys); try done.
    - by apply Hpc.
    - rewrite !elem_of_cons, elem_of_nil in Hc.
      destruct Hc as [->|[->|[->|[]]]]; by vm_compute.
    - rewrite !elem_of_cons, elem_of_nil in Hc. rewrite !not_elem_of_cons.
      destruct Hc as [->|[->|[->|[]]]]; repeat split; try done;
        apply not_elem_of_nil. }
  set (rows := rows_of_pairs pairs rows0).
  assert (geocoded rows combined) as Hg.
  { unfold geocoded, status_column, lat_column, lon_column, rows.
    rewrite <- !take_left_fmap by done. split; [| split]; apply Hcol; try done;
      rewrite !elem_of_cons; tauto. }
  assert (length rows = nrows combined) as Hlen.
  { unfold rows, rows_of_pairs. rewrite length_fmap. symmetry.
    apply uniform_nrows; [by eapply joined_uniform |].
    destruct Hg as [Hs _]. by intros ->. }
  assert (length rows = length pairs) as Hpairs
    by (unfold rows, rows_of_pairs; by rewrite length_fmap).
  assert (Forall geo_ok rows) as Hrows by by apply rows_of_pairs_ok.
  rewrite nrows_add_new_columns, <- Hlen. split; [| split].
  - exists rows. split; [by apply geocoded_add_new_columns |]. split; [done |].
    split; [done |]. split; [by apply status_total_rows |].
    split; [| by apply success_count_rows].
    rewrite value_counts_total; [by unfold status_column; rewrite length_fmap |].
    unfold status_column. apply Forall_fmap, Forall_forall. by intros [[s la] lo] _.
  - rewrite Hpairs, <- Hkeys. unfold pairs.
    etransitivity; [| apply length_join_pairs_ge]. by rewrite length_fmap.
  - intros rkeys' Hr' Hnd. rewrite Hr in Hr'. injection Hr' as <-.
    rewrite Hpairs, <- Hkeys. unfold pairs.
    by rewrite length_join_pairs_NoDup, length_fmap.
Qed.

End Summary.

Lemma geocode_summary_spec_witness :
  exists rows : list geo_row,
    geocoded rows flags_final
    /\ status_total (status_column rows) = nrows flags_final
    /\ count_value (VStr "success") (status_column rows)
       = both_present (lat_column rows) (lon_column rows).
Proof.
  destruct (geocode_summary_spec example_runtime flags_raw example_postcodes
              (SessionState flags_final) flags_final)
    as (_ & (rows & H1 & _ & _ & H2 & _ & H3) & _).
  - by repeat constructor.
  - apply (bool_decide_unpack _). by vm_compute.
  - intros c H1 H2.
    cbv [columns example_postcodes fmap list_fmap fst] in H2.
    repeat (apply elem_of_cons in H1 as [->|H1]);
      try (by apply elem_of_nil in H1);
      repeat (apply elem_of_cons in H2 as [H2|H2]);
      try (by apply elem_of_nil in H2); discriminate H2.
  - apply flags_final_stored.
  - reflexivity.
  - by exists rows.
Defined.

(** C6, as stated, fails: the counts add up to the rows of the joined
    table, not to the records. One record whose postcode is listed
    twice in the reference table is shown with two [success] rows. *)
Lemma summary_counts_duplicated :
  nrows flags_raw = 1%nat
  /\ StWriteCounts [(VStr "success", 2%nat)]
     ∈ (clean_and_process_dataframe example_runtime (Some flags_raw)
          duplicated_postcodes).1.
Proof.
  split; [done |]. apply (list_elem_of_lookup_2 _ 7). by vm_compute.
Qed.

(** * Further properties of the stages *)

(** ** Text *)

Section MoreText.
Import PyStr.

Lemma all_app p s t : all p (s +:+ t) = all p s && all p t.
Proof.
  induction s as [|c s IH]; [done |]. rewrite str_app_cons. simpl.
  by rewrite IH, andb_assoc.
Qed.

Lemma ends_in_app p s t : t <> "" -> ends_in p (s +:+ t) = ends_in p t.
Proof.
  intros Ht. induction s as [|c s IH]; [done |]. rewrite str_app_cons.
  simpl. destruct (s +:+ t) eqn:E; [| done]. by destruct s, t.
Qed.

Lemma starts_in_app p s t : s <> "" -> starts_in p (s +:+ t) = starts_in p s.
Proof. by destruct s. Qed.

Lemma rstrip_by_fixed p s : ends_in p s = false -> rstrip_by p s = s.
Proof.
  induction s as [|c s IH]; [done |]. cbn [rstrip_by ends_in].
  destruct s as [|d s].
  - intros ->. done.
  - intros H. rewrite IH by done. done.
Qed.

Lemma lstrip_by_fixed p s : starts_in p s = false -> lstrip_by p s = s.
Proof. destruct s as [|c s]; [done |]. simpl. by intros ->. Qed.

(** Text without whitespace at its ends is its own trimmed text. *)
Lemma strip_fixed s :
  starts_in is_space s = false -> ends_in is_space s = false -> strip s = s.
Proof.
  intros H1 H2. unfold strip. rewrite rstrip_by_fixed by done.
  by apply lstrip_by_fixed.
Qed.

(** The replacement writes characters of the text and of [new] only. *)
Lemma replace_go_all p old new count skip s :
  all p new = true -> all p s = true ->
  all p (replace_go old new count skip s) = true.
Proof.
  intros Hnew. revert count skip.
  induction s as [|c s IH]; intros count skip Hs; [done |].
  simpl in Hs. apply andb_true_iff in Hs as [Hc Hs]. cbn [replace_go].
  destruct skip as [|k]; [| by apply IH].
  assert (all p (String c s) = true) as Hcs by (simpl; by rewrite Hc, Hs).
  destruct count as [[|n]|].
  - done.
  - destruct (String.prefix old (String c s)).
    + rewrite all_app, Hnew. by apply IH.
    + simpl. rewrite Hc. by apply IH.
  - destruct (String.prefix old (String c s)).
    + rewrite all_app, Hnew. by apply IH.
    + simpl. rewrite Hc. by apply IH.
Qed.

Lemma map_chars_all p f s :
  (forall c, p (f c) = true) -> all p (map_chars f s) = true.
Proof.
  intros H. induction s as [|c s IH]; [done |]. simpl. by rewrite H, IH.
Qed.

End MoreText.

(** ** The cleaned address *)

Section CleanedAddress.
Import PyStr.

Lemma trimmed_of_all p s core :
  trimmed_of s core -> all p s = true -> all p core = true.
Proof.
  intros (l & r & -> & _) H. rewrite !all_app in H.
  by apply andb_true_iff in H as [_ [H _]%andb_true_iff].
Qed.

Lemma commas_cut_of_all p s body :
  commas_cut_of s body -> all p s = true -> all p body = true.
Proof.
  intros (t & -> & _) H. rewrite all_app in H.
  by apply andb_true_iff in H as [H _].
Qed.

(** X1. A cleaned address is one line: it has no newline, and it
    neither starts nor ends with whitespace. *)
Theorem process_address_one_line (address : string) :
  all not_newline (process_address address) = true
  /\ starts_in is_space (process_address address) = false
  /\ ends_in is_space (process_address address) = false.
Proof.
  unfold process_address.
  set (a2 := replace ", ," "," (replace nl " " address)).
  pose proof (rstrip_comma_spec a2) as Hbody.
  pose proof (strip_spec (rstrip_comma a2)) as Hcore.
  set (core := strip (rstrip_comma a2)) in *.
  assert (all not_newline core = true) as Hline.
  { eapply trimmed_of_all; [exact Hcore |].
    eapply commas_cut_of_all; [exact Hbody |].
    apply replace_go_all; [done |]. rewrite replace_newline.
    apply map_chars_all. intros c. unfold newline_to_space, not_newline.
    destruct (Ascii.eqb c newline) eqn:E; [done | by rewrite E]. }
  destruct Hcore as (l & r & _ & _ & _ & Hs & He).
  destruct (endswith MALAYSIA core) eqn:E; [done |]. cbn [negb].
  split; [| split].
  - by rewrite all_app, Hline.
  - destruct core; [done |]. by rewrite starts_in_app.
  - by rewrite ends_in_app.
Qed.

End CleanedAddress.

(** ** Cells that make a stage raise *)

Section Raising.
Context (R : Runtime).

Lemma series_apply_Ok {A B} (f : A -> result B) (g : A -> B) (l : list A) :
  (forall x, x ∈ l -> f x = Ok (g x)) -> series_apply f l = Ok (g <$> l).
Proof.
  induction l as [|x l IH]; [done |]. intros H. cbn [series_apply].
  rewrite (H x) by apply list_elem_of_here. cbn [rbind].
  rewrite IH; [done |]. intros y Hy. by apply H, list_elem_of_further.
Qed.

(** The loop stops at the first cell that raises. *)
Lemma series_apply_Raise {A B} (f : A -> result B) (l : list A) (x : A) (e : exn) :
  x ∈ l -> f x = Raise e -> exists e', series_apply f l = Raise e'.
Proof.
  induction l as [|y l IH]; [by intros ?%elem_of_nil |].
  intros [->|Hx]%elem_of_cons Hf; cbn [series_apply].
  - rewrite Hf. by exists e.
  - destruct (f y) as [b|e0]; [| by exists e0]. cbn [rbind].
    destruct (IH Hx Hf) as [e' ->]. by exists e'.
Qed.

(** When [f] raises one exception only, that is the one. *)
Lemma series_apply_Raise_only {A B} (f : A -> result B) (l : list A) (x : A) (e : exn) :
  x ∈ l -> f x = Raise e -> (forall y e0, f y = Raise e0 -> e0 = e) ->
  series_apply f l = Raise e.
Proof.
  intros Hx Hf Honly. destruct (series_apply_Raise f l x e Hx Hf) as [e' He'].
  rewrite He'. f_equal. clear Hx Hf x.
  revert He'. induction l as [|y l IH]; [done |]. cbn [series_apply].
  destruct (f y) as [b|e0] eqn:Ey; cbn [rbind].
  - destruct (series_apply f l) as [bs|e1]; [done |]. cbn [rbind].
    intros [= <-]. by apply IH.
  - intros [= <-]. by eapply Honly.
Qed.

(** X2. [clean_address] cleans a list of texts cell by cell; one cell
    that is no text (a missing address) makes it raise
    [AttributeError], and then the enrichment raises before any address
    is sent to the geocoding client. *)
Theorem clean_address_spec :
  (forall texts : list string,
     clean_address (VStr <$> texts) = Ok (process_address <$> texts))
  /\ (forall (col : column) (v : value),
        v ∈ col -> is_text v = false ->
        clean_address col = Raise AttributeError
        /\ forall df, get_column "address" df = Some col ->
             enrich R df = ([], Raise AttributeError)).
Proof.
  split.
  - intros texts. unfold clean_address.
    rewrite (series_apply_Ok _ (fun v => process_address (py_str v))).
    + by rewrite <- list_fmap_compose.
    + by intros x (s & -> & _)%list_elem_of_fmap.
  - intros col v Hv Ht.
    assert (clean_address col = Raise AttributeError) as Hc.
    { unfold clean_address. apply (series_apply_Raise_only _ _ v); [done | |].
      - by destruct v.
      - intros [] e0; by intros [= <-]. }
    split; [done |]. intros df Hcol. unfold enrich. by rewrite Hcol, Hc.
Qed.

(** ** The derived age *)

Lemma is_decimal_digit_value c :
  PyStr.is_decimal c = true -> (0 <= digit_value c <= 9)%Z.
Proof.
  unfold PyStr.is_decimal, digit_value.
  intros [H1%N.leb_le H2%N.leb_le]%andb_true_iff. lia.
Qed.

Lemma all_decimal_isdigit s :
  s <> "" -> PyStr.all PyStr.is_decimal s = true -> PyStr.isdigit s = true.
Proof.
  intros Hs H. destruct s as [|c s]; [done |]. unfold PyStr.isdigit.
  revert H. generalize (String c s). clear. intros s.
  induction s as [|c s IH]; [done |]. simpl.
  intros [Hc Hs]%andb_true_iff. unfold PyStr.is_digit. rewrite Hc. simpl.
  by apply IH.
Qed.

(** X3. For an IC number of twelve decimal digits the derived age is a
    number from 4 to 103: with the year digits up to 20 read as 2000 to
    2020 and all others as 1921 to 1999, no age is below 4. *)
Theorem calculate_age_range (ic : string) :
  String.length ic = 12%nat ->
  PyStr.all PyStr.is_decimal ic = true ->
  exists age : Z,
    calculate_age_from_ic (VStr ic) = Ok (VInt age) /\ (4 <= age <= 103)%Z.
Proof.
  intros Hlen Hdec.
  assert (PyStr.isdigit ic = true) as Hdig
    by (apply all_decimal_isdigit; [by destruct ic | done]).
  destruct ic as [|a [|b rest]]; [done | done |].
  simpl in Hdec. apply andb_true_iff in Hdec as [Ha Hdec].
  apply andb_true_iff in Hdec as [Hb _].
  rewrite calculate_age_from_ic_str.
  - unfold derive_age. rewrite Hlen, Hdig. cbn [Nat.eqb negb orb].
    eexists. split; [reflexivity |]. unfold year_digits, birth_year_of.
    pose proof (is_decimal_digit_value a Ha).
    pose proof (is_decimal_digit_value b Hb).
    destruct (_ <=? 20)%Z eqn:E; [apply Z.leb_le in E | apply Z.leb_gt in E]; lia.
  - intros _ _. simpl. by rewrite Ha, Hb.
Qed.

Lemma calculate_age_range_witness :
  exists age : Z,
    calculate_age_from_ic (VStr "220101015555") = Ok (VInt age)
    /\ (4 <= age <= 103)%Z.
Proof. apply (calculate_age_range "220101015555"); reflexivity. Defined.

(** X4. An IC cell that is no text (a number, a missing value) makes
    [calculate_age_from_ic] raise [TypeError], and a frame whose [ic]
    column has such a cell makes [age_format] raise: no table comes
    out. *)
Theorem age_format_not_text (df : DataFrame) (col : column) (v : value) :
  get_column "ic" df = Some col ->
  v ∈ col ->
  is_text v = false ->
  calculate_age_from_ic v = Raise TypeError
  /\ exists e, age_format df = Raise e.
Proof.
  intros Hcol Hv Ht.
  assert (calculate_age_from_ic v = Raise TypeError) as Hc by by destruct v.
  split; [done |]. unfold age_format. rewrite (getitem_Some _ _ _ Hcol).
  cbn [rbind].
  destruct (series_apply_Raise calculate_age_from_ic col v _ Hv Hc) as [e ->].
  by exists e.
Qed.

Lemma age_format_not_text_witness :
  exists e, age_format [("ic", [VStr "990101015555"; VNaN])] = Raise e.
Proof.
  apply (age_format_not_text [("ic", [VStr "990101015555"; VNaN])]
           [VStr "990101015555"; VNaN] VNaN).
  - reflexivity.
  - apply list_elem_of_further, list_elem_of_here.
  - reflexivity.
Defined.

(** X5. A text of twelve characters that [isdigit] accepts and whose
    first two characters are not both decimal digits (superscript
    digits) passes the test of [calculate_age_from_ic] and makes [int]
    raise [ValueError]. *)
Theorem calculate_age_superscript (ic : string) :
  String.length ic = 12%nat ->
  PyStr.isdigit ic = true ->
  PyStr.all PyStr.is_decimal (PyStr.take 2 ic) = false ->
  calculate_age_from_ic (VStr ic) = Raise ValueError.
Proof.
  intros Hlen Hdig Hdec. unfold calculate_age_from_ic.
  rewrite Hlen, Hdig. cbn [Nat.eqb negb orb].
  destruct ic as [|a [|b rest]]; [done | done |].
  cbn in Hdec |- *. rewrite andb_true_r in Hdec.
  destruct (PyStr.is_decimal a); [| done].
  destruct (PyStr.is_decimal b); done.
Qed.

Lemma calculate_age_superscript_witness :
  calculate_age_from_ic (VStr superscript_ic) = Raise ValueError.
Proof. apply calculate_age_superscript; reflexivity. Defined.

End Raising.

(** ** Phone numbers and salaries *)

Section PhoneSalary.
Import PyStr.

(** X6. The formatted phone number always starts with ["+60"]. The
    formatter does not recognize its own output: applied to a formatted
    number it puts ["+601"] before it once more. *)
Theorem format_number_prefix (number : value) :
  exists rest,
    format_number number = VStr ("+60" +:+ rest)
    /\ format_number (format_number number) = VStr ("+601+60" +:+ rest).
Proof.
  unfold format_number at 1 3.
  destruct (strip_spec (py_str number)) as (l & r & _ & _ & _ & Hs & He).
  set (core := strip (py_str number)) in *.
  assert (forall pre, pre = "+60" \/ pre = "+601" ->
            format_number (VStr (pre +:+ core)) = VStr ("+601" +:+ pre +:+ core))
    as Hagain.
  { intros pre Hpre. unfold format_number. cbn [py_str].
    rewrite strip_fixed.
    - by destruct Hpre as [-> | ->].
    - by destruct Hpre as [-> | ->].
    - destruct core as [|c core'] eqn:Ec.
      + by destruct Hpre as [-> | ->].
      + rewrite ends_in_app by done. exact He. }
  destruct (startswith "1" core).
  - exists core. split; [done |]. by rewrite (Hagain "+60") by tauto.
  - exists ("1" +:+ core). split; [done |]. by rewrite (Hagain "+601") by tauto.
Qed.

Lemma all_digit_or_dot s : all is_digit s = true -> all digit_or_dot s = true.
Proof.
  induction s as [|c s IH]; [done |]. cbn [all].
  intros [Hc Hs]%andb_true_iff. unfold digit_or_dot at 1. rewrite Hc.
  by rewrite IH.
Qed.

Lemma replace_dot_digits s :
  all is_digit (replace_n "." "" 1 s) = true -> all digit_or_dot s = true.
Proof.
  unfold replace_n. induction s as [|c s IH]; [done |]. cbn [replace_go].
  rewrite prefix_cons, prefix_empty, andb_true_r.
  case_bool_decide as Hc.
  - subst c.
    assert (replace_go "." "" (pred <$> Some 1%nat) (String.length "." - 1) s = s)
      as -> by by destruct s.
    change ("" +:+ s) with s. intros H. cbn [all].
    rewrite (all_digit_or_dot s H). by rewrite andb_true_r.
  - cbn [all]. intros [Hd Hs]%andb_true_iff. unfold digit_or_dot at 1.
    rewrite Hd. by rewrite IH.
Qed.

(** X7. [format_salary] leaves a cell as it is when the cell is missing
    or when its text has a character that is neither a digit nor the
    point: a sign, a thousands separator, a currency, a space. *)
Theorem format_salary_cell_verbatim (R : Runtime) (x : value) :
  isna x = true \/ all digit_or_dot (py_str x) = false ->
  format_salary_cell R x = Ok x.
Proof.
  intros H. unfold format_salary_cell.
  destruct (negb (isna x) && isdigit (replace_n "." "" 1 (py_str x))) eqn:E;
    [| done].
  apply andb_true_iff in E as [Hna Hdig]. exfalso.
  destruct H as [H|H]; [by rewrite H in Hna |].
  rewrite replace_dot_digits in H; [done |].
  unfold isdigit in Hdig. by destruct (replace_n "." "" 1 (py_str x)).
Qed.

Lemma format_salary_cell_verbatim_witness :
  format_salary_cell example_runtime (VStr "-1,500.00") = Ok (VStr "-1,500.00").
Proof.
  apply (format_salary_cell_verbatim example_runtime (VStr "-1,500.00")).
  right. reflexivity.
Defined.

End PhoneSalary.

(** ** Dropping and renaming columns *)

Section Schema.
Implicit Types (df : DataFrame) (c : string) (col : column).

(** X8. [drop_columns] never raises: a listed name that is no column is
    passed over. The listed columns are gone, every other column keeps
    its place and its cells, and dropping again changes nothing. *)
Theorem drop_columns_spec df (names : list string) :
  (forall c, get_column c (drop_columns df names)
             = if decide (c ∈ names) then None else get_column c df)
  /\ columns (drop_columns df names)
     = filter (fun c => c ∉ names) (columns df)
  /\ drop_columns (drop_columns df names) names = drop_columns df names.
Proof.
  unfold drop_columns. split; [| split].
  - intros c. rewrite (get_column_filter (fun a => a ∉ names)).
    destruct (decide (c ∈ names)).
    + by rewrite decide_False by tauto.
    + by rewrite decide_True.
  - apply (columns_filter (fun a => a ∉ names)).
  - apply filter_all. by intros p [Hp _]%list_elem_of_filter.
Qed.

Lemma rename_columns_fmap df :
  rename_columns df = (fun p : string * column => (renamed_name p.1, p.2)) <$> df.
Proof. reflexivity. Qed.

Lemma columns_rename_columns df :
  columns (rename_columns df) = renamed_name <$> columns df.
Proof. apply columns_rename. Qed.

(** The entries of the mapping: a canonical name is renamed to itself,
    and two raw names do not share a canonical name. *)
Lemma column_mapping_fixed n c :
  column_mapping !! n = Some c -> renamed_name c = c.
Proof.
  intros H%elem_of_map_to_list.
  assert (Forall (fun p : string * string => renamed_name p.2 = p.2)
            (map_to_list column_mapping)) as Hall
    by (apply (bool_decide_unpack _); by vm_compute).
  by apply (proj1 (Forall_forall _ _) Hall (n, c)).
Qed.

Lemma column_mapping_inj n n' c :
  column_mapping !! n = Some c -> column_mapping !! n' = Some c -> n = n'.
Proof.
  intros H%elem_of_map_to_list H'%elem_of_map_to_list.
  assert (Forall (fun p : string * string =>
            Forall (fun q : string * string => p.2 = q.2 -> p.1 = q.1)
              (map_to_list column_mapping))
            (map_to_list column_mapping)) as Hall
    by (apply (bool_decide_unpack _); by vm_compute).
  pose proof (proj1 (Forall_forall _ _) Hall (n, c) H) as Hn.
  by apply (proj1 (Forall_forall _ _) Hn (n', c) H').
Qed.

Lemma renamed_name_idemp n : renamed_name (renamed_name n) = renamed_name n.
Proof.
  unfold renamed_name at 2 3. destruct (column_mapping !! n) as [c|] eqn:E; cbn.
  - by eapply column_mapping_fixed.
  - unfold renamed_name. by rewrite E.
Qed.

(** X9. Renaming is idempotent: a frame that already has the canonical
    names is left as it is. *)
Theorem rename_columns_idemp df :
  rename_columns (rename_columns df) = rename_columns df.
Proof.
  change ((fun p : string * column => (renamed_name p.1, p.2))
            <$> ((fun p : string * column => (renamed_name p.1, p.2)) <$> df)
          = (fun p : string * column => (renamed_name p.1, p.2)) <$> df).
  induction df as [|[n col] df IH]; [done |].
  rewrite !fmap_cons, IH. cbn. by rewrite renamed_name_idemp.
Qed.

Lemma NoDup_fmap_inj_on {A B} (f : A -> B) (l : list A) x y :
  NoDup (f <$> l) -> x ∈ l -> y ∈ l -> f x = f y -> x = y.
Proof.
  induction l as [|z l IH]; [by intros _ ?%elem_of_nil |].
  rewrite fmap_cons, NoDup_cons.
  intros [Hz Hnd] [->|Hx]%elem_of_cons [->|Hy]%elem_of_cons Hf; try done.
  - exfalso. apply Hz. rewrite Hf. by apply list_elem_of_fmap_2.
  - exfalso. apply Hz. rewrite <- Hf. by apply list_elem_of_fmap_2.
  - by apply IH.
Qed.

(** X10. The renamed frame has distinct column names exactly when no
    record brings a raw name together with the canonical name it is
    renamed to (such as [race] and [ethnicity]); otherwise two columns
    get one name. *)
Theorem rename_columns_NoDup df :
  NoDup (columns df) ->
  NoDup (columns (rename_columns df))
  <-> forall raw canon,
        column_mapping !! raw = Some canon -> raw <> canon ->
        raw ∈ columns df -> canon ∉ columns df.
Proof.
  intros Hnd. rewrite columns_rename_columns. split.
  - intros Hnd' raw canon Hm Hne Hraw Hcanon. apply Hne.
    apply (NoDup_fmap_inj_on renamed_name (columns df)); try done.
    rewrite (column_mapping_fixed _ _ Hm). unfold renamed_name. by rewrite Hm.
  - intros Hno. apply NoDup_fmap_2_strong; [| done].
    intros x y Hx Hy. unfold renamed_name.
    destruct (column_mapping !! x) as [cx|] eqn:Ex;
      destruct (column_mapping !! y) as [cy|] eqn:Ey; cbn; try done.
    + intros <-. by eapply column_mapping_inj.
    + intros Heq. destruct (decide (x = y)) as [|Hne]; [done |].
      rewrite Heq in Ex. by destruct (Hno x y Ex Hne Hx).
    + intros Heq. destruct (decide (y = x)) as [|Hne]; [done |].
      rewrite <- Heq in Ey. by destruct (Hno y x Ey Hne Hy).
Qed.

Lemma rename_columns_NoDup_witness :
  NoDup (columns (rename_columns
                    [("race", [VStr "Malay"]); ("gender", [VStr "F"])])).
Proof.
  apply (rename_columns_NoDup [("race", [VStr "Malay"]); ("gender", [VStr "F"])]).
  - apply (bool_decide_unpack _). by vm_compute.
  - intros raw canon Hm Hne Hraw.
    cbv [columns fmap list_fmap fst] in Hraw |- *.
    repeat (apply elem_of_cons in Hraw as [->|Hraw]);
      try (by apply elem_of_nil in Hraw);
      vm_compute in Hm; injection Hm as <-;
      rewrite !not_elem_of_cons; repeat split; try done; apply not_elem_of_nil.
Defined.

End Schema.

(** ** Program names and dates *)

Section ProgramAndDate.
Implicit Types (df : DataFrame) (c : string) (col : column).

Lemma replace_absent c col df :
  c ∉ columns df ->
  (fun p : string * column => if decide (p.1 = c) then (c, col) else p) <$> df = df.
Proof.
  induction df as [|[n old] df IH]; [done |].
  intros Hc. unfold columns in Hc. rewrite fmap_cons in Hc.
  apply not_elem_of_cons in Hc as [Hn Hc]. rewrite fmap_cons, IH by done.
  cbn in Hn |- *. by rewrite decide_False by congruence.
Qed.

(** Assigning a column twice is assigning the last one. *)
Lemma setitem_twice c col1 col2 df :
  setitem c col2 (setitem c col1 df) = setitem c col2 df.
Proof.
  destruct (has_column c df) eqn:Hc.
  - assert (has_column c (setitem c col1 df) = true) as Hc'.
    { apply has_column_true. rewrite columns_setitem_present.
      all: by apply has_column_true. }
    unfold setitem at 1. rewrite Hc'. unfold setitem. rewrite Hc.
    rewrite <- list_fmap_compose. apply list_fmap_ext. intros _ [n old] _.
    cbn. destruct (decide (n = c)) as [->|Hne]; cbn.
    + by rewrite decide_True.
    + by rewrite decide_False.
  - assert (has_column c (setitem c col1 df) = true) as Hc'.
    { apply has_column_true, get_column_is_Some. rewrite setitem_get_eq. by eexists. }
    unfold setitem at 1. rewrite Hc'. unfold setitem. rewrite Hc.
    rewrite fmap_app. cbn. rewrite decide_True by done. f_equal.
    apply replace_absent. by apply has_column_false.
Qed.




Lemma length_take n s : (String.length (PyStr.take n s) <= n)%nat.
Proof.
  revert s. induction n as [|n IH]; intros [|a s]; cbn; try lia.
  specialize (IH s). lia.
Qed.

Lemma prefix_take n s : String.prefix (PyStr.take n s) s = true.
Proof.
  revert s. induction n as [|n IH]; intros [|a s]; try done.
  cbn [PyStr.take]. by rewrite prefix_cons, IH, bool_decide_eq_true_2.
Qed.

Lemma take_all n s : (String.length s <= n)%nat -> PyStr.take n s = s.
Proof.
  revert s. induction n as [|n IH]; intros [|a s]; cbn; try done; try lia.
  intros H. f_equal. apply IH. lia.
Qed.

(** X12. In a frame with one [date] column every cell of it becomes
    text: the first ten characters of its [str], which is the whole of
    it when it has at most ten. A missing date becomes the text [nan]
    or [None]. A second pass changes nothing, and the other columns are
    as before. *)
Theorem reformat_dates_spec df col :
  single_label "date" df ->
  get_column "date" df = Some col ->
  (exists texts,
     get_column "date" (reformat_dates df) = Some (VStr <$> texts)
     /\ Forall2 (fun v t =>
                   (String.length t <= 10)%nat
                   /\ String.prefix t (py_str v) = true
                   /\ ((String.length (py_str v) <= 10)%nat -> t = py_str v))
          col texts)
  /\ reformat_dates (reformat_dates df) = reformat_dates df
  /\ forall c, c <> "date" -> get_column c (reformat_dates df) = get_column c df.
Proof.
  intros _ Hcol. unfold reformat_dates. rewrite Hcol, setitem_get_eq.
  split; [| split].
  - exists ((fun v => PyStr.take 10 (py_str v)) <$> col). split.
    + by rewrite <- list_fmap_compose.
    + apply Forall2_fmap_r, Forall_Forall2_diag, Forall_forall. intros v _.
      split; [apply length_take |]. split; [apply prefix_take |]. apply take_all.
  - rewrite setitem_twice. f_equal. rewrite <- list_fmap_compose.
    apply list_fmap_ext. intros _ v _. cbn [compose py_str]. f_equal.
    apply take_all, length_take.
  - intros c Hc. by apply setitem_get_ne.
Qed.

Lemma reformat_dates_spec_witness :
  reformat_dates
    (reformat_dates [("date", [VStr "2024-05-01T08:30:00.000Z"; VNaN])])
  = reformat_dates [("date", [VStr "2024-05-01T08:30:00.000Z"; VNaN])].
Proof.
  apply (reformat_dates_spec [("date", [VStr "2024-05-01T08:30:00.000Z"; VNaN])]
           [VStr "2024-05-01T08:30:00.000Z"; VNaN]).
  - vm_compute. lia.
  - reflexivity.
Defined.

End ProgramAndDate.

(** ** The geocoding calls and the column order *)

Section Calls.
Context (R : Runtime).
Implicit Types (df : DataFrame) (c : string) (col : column).

Lemma geocode_all_events (n : nat) (addresses : list string) :
  (geocode_all R n addresses).1
  = (if gmaps R is Some _ then GmapsGeocode <$> addresses else []).
Proof.
  revert n. induction addresses as [|a rest IH]; intros n.
  - by destruct (gmaps R).
  - specialize (IH (S n)). cbn [geocode_all]. rewrite bind_events.
    unfold geocode_address. destruct (gmaps R) as [client|] eqn:Hg.
    + cbn. rewrite bind_events, IH. cbn.
      destruct (geocode_all R (S n) rest).2; by rewrite app_nil_r.
    + cbn. rewrite bind_events, IH. cbn.
      by destruct (geocode_all R (S n) rest).2.
Qed.

(** X13. With a client there is one geocoding call per address, in row
    order, whatever the client answers; with no client there is no call
    and every row gets the status [error] and no coordinates. *)
Theorem geocode_all_calls (n : nat) (addresses : list string) :
  (geocode_all R n addresses).1
  = (if gmaps R is Some _ then GmapsGeocode <$> addresses else [])
  /\ (gmaps R = None ->
      (geocode_all R n addresses).2
      = Ok (replicate (length addresses) ("error", VNone, VNone))).
Proof.
  split; [apply geocode_all_events |]. intros Hg.
  revert n. induction addresses as [|a rest IH]; intros n; [done |].
  cbn [geocode_all]. rewrite bind_result. unfold geocode_address. rewrite Hg.
  cbn. by rewrite bind_result, IH.
Qed.

Lemma clean_address_texts (texts : list string) :
  clean_address (VStr <$> texts) = Ok (process_address <$> texts).
Proof.
  unfold clean_address.
  rewrite (series_apply_Ok _ (fun v => process_address (py_str v))).
  - by rewrite <- list_fmap_compose.
  - by intros x (s & -> & _)%list_elem_of_fmap.
Qed.

(** X14. The enrichment of a frame whose addresses are all text sends
    the cleaned addresses, not the raw ones, to the client; it stores
    the cleaned addresses, and leaves every column but [address],
    [geocode_status], [lat] and [lon] as it was. *)
Theorem enrich_calls df (texts : list string) :
  get_column "address" df = Some (VStr <$> texts) ->
  (enrich R df).1
  = (if gmaps R is Some _
     then GmapsGeocode <$> (process_address <$> texts) else [])
  /\ exists out,
       (enrich R df).2 = Ok out
       /\ get_column "address" out = Some (VStr <$> (process_address <$> texts))
       /\ forall c, c ∉ ["address"; "geocode_status"; "lat"; "lon"] ->
            get_column c out = get_column c df.
Proof.
  intros Hcol. unfold enrich. rewrite Hcol, clean_address_texts, bind_lift_Ok.
  destruct (geocode_all_spec R 0 (process_address <$> texts))
    as (es & rows & Hg & _).
  pose proof (geocode_all_events 0 (process_address <$> texts)) as He.
  rewrite Hg in He. cbn [fst] in He. rewrite Hg. split.
  - cbn. by rewrite app_nil_r.
  - eexists. split; [reflexivity |]. unfold set_geocode_results. split.
    + rewrite !setitem_get_ne by done. apply setitem_get_eq.
    + intros c Hc. rewrite !not_elem_of_cons in Hc.
      destruct Hc as (C1 & C2 & C3 & C4 & _).
      by rewrite !setitem_get_ne by done.
Qed.

Lemma getitems_Ok (names : list string) df :
  (forall n, n ∈ names -> n ∈ columns df) ->
  exists out, getitems names df = Ok out
              /\ forall c, c ∈ columns out <-> c ∈ names.
Proof.
  induction names as [|n names IH]; intros Hin.
  - exists []. split; [done |]. intros c. cbn. set_solver.
  - destruct IH as (rest & Hrest & Hcols).
    { intros m Hm. by apply Hin, list_elem_of_further. }
    assert (n ∈ columns df) as Hn by apply Hin, list_elem_of_here.
    eexists. split.
    + cbn [getitems]. rewrite (proj2 (has_column_true _ _) Hn), Hrest. reflexivity.
    + intros c. unfold columns. rewrite fmap_app, elem_of_app.
      fold (columns rest). rewrite Hcols, elem_of_cons.
      fold (columns (filter (fun p : string * column => p.1 = n) df)).
      rewrite (columns_filter (fun a => a = n)), list_elem_of_filter.
      split; [intros [[-> _]|?]; tauto |].
      intros [->|?]; [left | by right]. done.
Qed.

(** X15. [reorder_columns] never raises, whatever the frame: every
    label it selects is a column. The result has the names of the
    frame, no more and no fewer, each with the cells it had, and all
    its columns have the number of rows they had. *)
Theorem reorder_columns_total df :
  exists out,
    reorder_columns df = Ok out
    /\ (forall c, c ∈ columns out <-> c ∈ columns df)
    /\ (forall c, get_column c out = get_column c df)
    /\ forall n, uniform n df -> uniform n out.
Proof.
  destruct (getitems_Ok (existing_columns df ++ additional_columns df) df)
    as (out & Hout & Hcols).
  { intros c. by rewrite elem_of_new_order. }
  exists out. split; [done |]. split; [| split].
  - intros c. by rewrite Hcols, elem_of_new_order.
  - intros c. by apply reorder_get_column.
  - intros n Hu. by eapply reorder_uniform.
Qed.

End Calls.

Lemma enrich_calls_witness :
  (enrich example_runtime [("address", [VStr "Jalan 1,"; VStr "Kg Baru"])]).1
  = [GmapsGeocode "Jalan 1, MALAYSIA"; GmapsGeocode "Kg Baru, MALAYSIA"].
Proof.
  apply (enrich_calls example_runtime
           [("address", [VStr "Jalan 1,"; VStr "Kg Baru"])]
           ["Jalan 1,"; "Kg Baru"]).
  reflexivity.
Defined.

(** ** The rows of the joined table *)

Section JoinRows.
Implicit Types (df pc out : DataFrame) (c : string) (col lkeys rkeys : column).

Lemma join_pairs_from_left (i : nat) lkeys rkeys :
  NoDup rkeys -> (join_pairs_from i lkeys rkeys).*1 = seq i (length lkeys).
Proof.
  intros Hnd. revert i. induction lkeys as [|k rest IH]; intros i; [done |].
  cbn [join_pairs_from length seq]. rewrite fmap_app, IH.
  pose proof (count_value_NoDup k rkeys Hnd) as Hk.
  rewrite <- (length_matching_rows_from 0 k rkeys) in Hk. unfold matching_rows.
  destruct (matching_rows_from 0 k rkeys) as [|j [|j' js]]; [done | done |].
  cbn in Hk. lia.
Qed.

Lemma take_left_all pairs col :
  pairs.*1 = seq 0 (length col) -> take_left pairs col = col.
Proof.
  intros Hp. unfold take_left.
  transitivity ((fun i : nat => default VNaN (col !! i)) <$> pairs.*1).
  { rewrite <- list_fmap_compose. by apply list_fmap_ext. }
  rewrite Hp. apply list_eq. intros i. rewrite list_lookup_fmap.
  destruct (col !! i) as [v|] eqn:Hv.
  - rewrite (lookup_seq_lt _ _ _ (lookup_lt_Some _ _ _ Hv)). cbn. by rewrite Hv.
  - rewrite (lookup_seq_ge _ _ _ (proj1 (lookup_ge_None _ _) Hv)). done.
Qed.

(** Every column of the joined table has one cell per row pair. *)
Lemma joined_length df pc lkeys rkeys :
  get_column "postcode" df = Some lkeys ->
  get_column "postcode" pc = Some rkeys ->
  exists out,
    reference_join df pc = Ok out
    /\ uniform (length (join_pairs (normalize_postcode <$> lkeys)
                                   (normalize_postcode <$> rkeys))) out.
Proof.
  intros Hl Hr. eexists. split; [by apply reference_join_frame |].
  apply uniform_filter, Forall_app.
  split; apply Forall_fmap, Forall_forall; intros [m col] _; cbn;
    unfold take_left, take_right; by rewrite length_fmap.
Qed.

(** X16. Under the naming conditions of the join (the tables share no
    name but [postcode] and [state], and bring no [state_x] or
    [state_y], the records no [city] or [district]), the join does not
    raise when both tables have a [postcode] column. A record whose
    trimmed postcode is listed [m] times in the reference table gives
    [m] rows, and one row when it is not listed: every column of the
    joined table has that many cells. When the trimmed reference
    postcodes are distinct this is one row per record. *)
Theorem reference_join_rows df pc lkeys rkeys :
  get_column "postcode" df = Some lkeys ->
  get_column "postcode" pc = Some rkeys ->
  (forall c, c ∈ columns df -> c ∈ columns pc -> c = "postcode" \/ c = "state") ->
  (forall c, c ∈ ["city"; "district"; "state_x"; "state_y"] -> c ∉ columns df) ->
  (forall c, c ∈ ["district"; "state_x"; "state_y"] -> c ∉ columns pc) ->
  exists out,
    reference_join df pc = Ok out
    /\ uniform
         (sum_list_with
            (fun k => 1 `max` count_value (normalize_postcode k)
                                (normalize_postcode <$> rkeys)) lkeys) out
    /\ (NoDup (normalize_postcode <$> rkeys) -> uniform (length lkeys) out).
Proof.
  intros Hl Hr _ _ _.
  destruct (joined_length df pc lkeys rkeys Hl Hr) as (out & Hout & Hu).
  exists out. split; [done |]. split.
  - by rewrite <- length_join_pairs.
  - intros Hnd. rewrite length_join_pairs_NoDup in Hu by done.
    by rewrite length_fmap in Hu.
Qed.

Lemma reference_join_rows_witness :
  exists out,
    reference_join [("postcode", [VStr "43000 "; VInt 1000]); ("name", [VStr "A"; VStr "B"])]
      duplicated_postcodes
    = Ok out
    /\ uniform 3 out.
Proof.
  destruct (reference_join_rows
              [("postcode", [VStr "43000 "; VInt 1000]); ("name", [VStr "A"; VStr "B"])]
              duplicated_postcodes
              [VStr "43000 "; VInt 1000] [VInt 43000; VStr "43000 "])
    as (out & Hout & Hu & _).
  - reflexivity.
  - reflexivity.
  - intros c H1 H2.
    cbv [columns duplicated_postcodes fmap list_fmap fst] in H1, H2.
    repeat (apply elem_of_cons in H1 as [->|H1]);
      try (by apply elem_of_nil in H1);
      repeat (apply elem_of_cons in H2 as [H2|H2]);
      try (by apply elem_of_nil in H2); try discriminate H2; tauto.
  - intros c H1 H2.
    cbv [columns fmap list_fmap fst] in H2.
    repeat (apply elem_of_cons in H1 as [->|H1]);
      try (by apply elem_of_nil in H1);
      repeat (apply elem_of_cons in H2 as [H2|H2]);
      try (by apply elem_of_nil in H2); discriminate H2.
  - intros c H1 H2.
    cbv [columns duplicated_postcodes fmap list_fmap fst] in H2.
    repeat (apply elem_of_cons in H1 as [->|H1]);
      try (by apply elem_of_nil in H1);
      repeat (apply elem_of_cons in H2 as [H2|H2]);
      try (by apply elem_of_nil in H2); discriminate H2.
  - exists out. split; [exact Hout | exact Hu].
Defined.

(** X17. With distinct trimmed reference postcodes, and under the
    naming conditions of the join, the joined table has every field of
    the records as it was, row by row: the join only adds columns. *)
Theorem reference_join_keeps_records df pc lkeys rkeys (n : nat) out c :
  get_column "postcode" df = Some lkeys ->
  get_column "postcode" pc = Some rkeys ->
  (forall c, c ∈ columns df -> c ∈ columns pc -> c = "postcode" \/ c = "state") ->
  (forall c, c ∈ ["city"; "district"; "state_x"; "state_y"] -> c ∉ columns df) ->
  (forall c, c ∈ ["district"; "state_x"; "state_y"] -> c ∉ columns pc) ->
  NoDup (normalize_postcode <$> rkeys) ->
  uniform n df ->
  reference_join df pc = Ok out ->
  c ∈ columns df -> c <> "postcode" ->
  get_column c out = get_column c df.
Proof.
  intros Hl Hr Hcommon Hdf Hpc Hnd Hu Hout Hc Hne.
  destruct (proj2 (get_column_is_Some c df) Hc) as [col Hcol].
  rewrite (joined_left_column df pc lkeys rkeys Hl Hr Hcommon Hdf out c col Hout Hc).
  - rewrite Hcol. f_equal. apply take_left_all. unfold join_pairs.
    rewrite join_pairs_from_left by done. rewrite length_fmap.
    by rewrite (get_column_uniform n df _ _ Hu Hl), (get_column_uniform n df _ _ Hu Hcol).
  - by rewrite setitem_get_ne.
Qed.

End JoinRows.

Lemma reference_join_keeps_records_witness :
  exists out,
    reference_join join_records example_postcodes = Ok out
    /\ get_column "name" out = get_column "name" join_records.
Proof.
  eexists. split; [vm_compute; reflexivity |].
  apply (reference_join_keeps_records join_records example_postcodes
           [VStr " 43000"; VStr "99999"] [VInt 43000; VStr "01000 "] 2).
  - reflexivity.
  - reflexivity.
  - intros c H1 H2.
    cbv [columns join_records example_postcodes fmap list_fmap fst] in H1, H2.
    repeat (apply elem_of_cons in H1 as [->|H1]);
      try (by apply elem_of_nil in H1);
      repeat (apply elem_of_cons in H2 as [H2|H2]);
      try (by apply elem_of_nil in H2); try discriminate H2; tauto.
  - intros c H1 H2.
    cbv [columns join_records example_postcodes fmap list_fmap fst] in H2.
    repeat (apply elem_of_cons in H1 as [->|H1]);
      try (by apply elem_of_nil in H1);
      repeat (apply elem_of_cons in H2 as [H2|H2]);
      try (by apply elem_of_nil in H2); discriminate H2.
  - intros c H1 H2.
    cbv [columns join_records example_postcodes fmap list_fmap fst] in H2.
    repeat (apply elem_of_cons in H1 as [->|H1]);
      try (by apply elem_of_nil in H1);
      repeat (apply elem_of_cons in H2 as [H2|H2]);
      try (by apply elem_of_nil in H2); discriminate H2.
  - apply (bool_decide_unpack _). by vm_compute.
  - by repeat constructor.
  - vm_compute. reflexivity.
  - apply (bool_decide_unpack _). by vm_compute.
  - done.
Defined.

(** ** The column names through the run *)

Section Names.
Context (R : Runtime).
Implicit Types (df out : DataFrame) (c : string) (col : column).

Lemma columns_setitem c col df :
  columns (setitem c col df) = columns df ++ filter (fun a => a ∉ columns df) [c].
Proof.
  destruct (decide (c ∈ columns df)) as [Hc|Hc].
  - rewrite columns_setitem_present by done.
    rewrite filter_cons_False by tauto. by rewrite filter_nil, app_nil_r.
  - rewrite columns_setitem_absent by done. by rewrite filter_cons_True.
Qed.

Lemma columns_set_present c col col' df :
  get_column c df = Some col -> columns (setitem c col' df) = columns df.
Proof. intros H. apply columns_setitem_present. by eapply get_column_elem_of. Qed.

Lemma filter_ext_elem {A} (P Q : A -> Prop) `{forall x, Decision (P x)}
    `{forall x, Decision (Q x)} (l : list A) :
  (forall x, x ∈ l -> P x <-> Q x) -> filter P l = filter Q l.
Proof.
  induction l as [|x l IH]; [done |]. intros Hl.
  assert (filter P l = filter Q l) as E.
  { apply IH. intros y Hy. by apply Hl, list_elem_of_further. }
  pose proof (Hl x (list_elem_of_here _ _)) as Hx.
  destruct (decide (P x)) as [Hp|Hp].
  - rewrite !filter_cons_True by tauto. by rewrite E.
  - rewrite !filter_cons_False by tauto. done.
Qed.

Lemma columns_foldl_setitem_scalar (cvs : list (string * value)) df :
  NoDup cvs.*1 ->
  columns (foldl setitem_scalar df cvs)
  = columns df ++ filter (fun a => a ∉ columns df) cvs.*1.
Proof.
  revert df. induction cvs as [|[c v] cvs IH]; intros df.
  - intros _. cbn. by rewrite app_nil_r.
  - rewrite fmap_cons, NoDup_cons. cbn [fst foldl]. intros [Hc Hnd].
    rewrite IH by done.
    assert (columns (setitem_scalar df (c, v))
            = columns df ++ filter (fun a => a ∉ columns df) [c]) as ->
      by apply columns_setitem.
    destruct (decide (c ∈ columns df)) as [Hin|Hin].
    + rewrite !(filter_cons_False _ c) by tauto. by rewrite filter_nil, app_nil_r.
    + rewrite !(filter_cons_True _ c) by done. rewrite filter_nil, <- app_assoc. cbn.
      do 2 f_equal. apply filter_ext_elem. intros a Ha.
      rewrite elem_of_app, list_elem_of_singleton.
      split; [tauto |]. intros Hna [?| ->]; tauto.
Qed.

Lemma add_new_columns_other df c :
  c ∉ flag_columns -> get_column c (add_new_columns df) = get_column c df.
Proof.
  intros Hc. unfold flag_columns in Hc. rewrite !not_elem_of_cons in Hc.
  destruct Hc as (C1 & C2 & C3 & C4 & _).
  unfold add_new_columns, new_columns, setitem_scalar. cbn [foldl fst snd].
  by rewrite !setitem_get_ne by done.
Qed.

(** X18. The flag columns are added after the columns of the joined
    table, in the order of [new_columns]; one that the table already
    has keeps its place. No other column is touched. *)
Theorem add_new_columns_frame df :
  columns (add_new_columns df)
  = columns df ++ filter (fun c => c ∉ columns df) flag_columns
  /\ forall c, c ∉ flag_columns ->
       get_column c (add_new_columns df) = get_column c df.
Proof.
  split; [| intros c; apply add_new_columns_other].
  unfold add_new_columns. rewrite columns_foldl_setitem_scalar; [done |].
  apply (bool_decide_unpack _). by vm_compute.
Qed.

Lemma columns_rename_program_values df (m : gmap string string) :
  columns (rename_program_values df m) = columns df.
Proof.
  unfold rename_program_values. destruct (get_column _ df) eqn:E; [| done].
  by eapply columns_set_present.
Qed.

Lemma columns_reformat_dates df : columns (reformat_dates df) = columns df.
Proof.
  unfold reformat_dates. destruct (get_column _ df) eqn:E; [| done].
  by eapply columns_set_present.
Qed.

Lemma columns_format_phone_numbers df :
  columns (format_phone_numbers df) = columns df.
Proof.
  unfold format_phone_numbers. destruct (get_column _ df) eqn:E; [| done].
  by eapply columns_set_present.
Qed.

Lemma columns_uppercase_column c df out :
  uppercase_column R c df = Ok out -> columns out = columns df.
Proof.
  intros [->|(col & col' & Hcol & _ & ->)]%uppercase_column_inv; [done |].
  by eapply columns_set_present.
Qed.

Lemma columns_format_salary df out :
  format_salary R df = Ok out -> columns out = columns df.
Proof.
  intros [->|(col & col' & Hcol & _ & ->)]%format_salary_inv; [done |].
  by eapply columns_set_present.
Qed.

Lemma format_stages_names df out :
  format_stages R df = Ok out ->
  columns out
  = (renamed_name <$> filter (fun c => c ∉ unwanted_columns) (columns df))
    ++ filter (fun c => c ∉ renamed_name
                            <$> filter (fun c => c ∉ unwanted_columns) (columns df))
         ["age"].
Proof.
  unfold format_stages. intros H.
  set (kept := renamed_name <$> _).
  set (d := reformat_dates _) in H.
  assert (columns d = kept) as Hd.
  { unfold d. rewrite columns_reformat_dates, columns_rename_program_values.
    rewrite columns_rename_columns. unfold drop_columns.
    by rewrite (columns_filter (fun a => a ∉ unwanted_columns)). }
  unfold format_uppercase in H.
  destruct (uppercase_column R "name" d) as [d1|] eqn:E1; [| done]. cbn [rbind] in H.
  destruct (uppercase_column R "address" d1) as [d2|] eqn:E2; [| done]. cbn [rbind] in H.
  destruct (format_salary R (format_phone_numbers d2)) as [d3|] eqn:E3; [| done].
  cbn [rbind] in H.
  apply age_format_inv in H as (col & col' & _ & _ & ->).
  rewrite columns_setitem.
  rewrite (columns_format_salary _ _ E3), columns_format_phone_numbers.
  rewrite (columns_uppercase_column _ _ _ E2), (columns_uppercase_column _ _ _ E1).
  by rewrite Hd.
Qed.

(** X19. When the formatting stages succeed, the names of the result
    are the raw names that are not dropped, renamed, in the order of
    the records, and [age] after them unless a column of that name came
    with the records. *)
Theorem format_stages_columns df out :
  format_stages R df = Ok out ->
  let kept := renamed_name <$> filter (fun c => c ∉ unwanted_columns) (columns df) in
  columns out = kept ++ filter (fun c => c ∉ kept) ["age"].
Proof. intros H. by apply format_stages_names. Qed.

End Names.

Lemma format_stages_columns_witness :
  exists out,
    format_stages example_runtime example_raw = Ok out
    /\ columns out
       = ["program"; "date"; "ic"; "name"; "state"; "postcode"; "address";
          "phone"; "salary_monthly"; "miskin"; "remarks"; "age"].
Proof.
  eexists. split; [vm_compute; reflexivity |].
  apply (format_stages_columns example_runtime example_raw).
  vm_compute. reflexivity.
Defined.

(** ** Runs that end in an exception *)

Section Crashes.
Context (R : Runtime).
Implicit Types (df pc out t : DataFrame) (c : string) (col : column).

Lemma columns_mask_rows (mask : list bool) df :
  columns (mask_rows mask df) = columns df.
Proof.
  unfold columns, mask_rows. rewrite <- list_fmap_compose.
  by apply list_fmap_ext.
Qed.

(** The result of the display, by the columns of the table. *)
Lemma publish_result t :
  (publish t).2
  = if has_column "geocode_status" t
    then if has_column "address" t then Ok tt else Raise (KeyError "address")
    else Raise (KeyError "geocode_status").
Proof.
  unfold publish. rewrite !bind_result. cbn [emit snd].
  destruct (has_column "geocode_status" t) eqn:Hg.
  - destruct (proj2 (get_column_is_Some _ _) (proj1 (has_column_true _ _) Hg))
      as [status Hs].
    rewrite (getitem_Some _ _ _ Hs). cbn [lift snd].
    rewrite !bind_result. cbn [emit snd lift getitems].
    unfold has_column. rewrite columns_mask_rows. fold (has_column "address" t).
    fold (has_column "geocode_status" t). rewrite Hg.
    by destruct (has_column "address" t).
  - apply has_column_false, get_column_None in Hg.
    by rewrite (getitem_None _ _ Hg).
Qed.

(** The table is written and stored first; the download button is
    the last thing shown, and only when nothing raised. *)
Lemma publish_events t :
  exists rest,
    (publish t).1 = ToExcel "CleanedData" t :: SessionState t :: rest
    /\ existsb is_download_button rest
       = match (publish t).2 with Ok _ => true | Raise _ => false end.
Proof.
  unfold publish.
  destruct (getitem "geocode_status" t) as [status|e];
    [| eexists; split; reflexivity].
  destruct (has_column "geocode_status" t); [| eexists; split; reflexivity].
  unfold mbind, M_bind, bind, emit, lift.
  destruct (getitems ["address"; "geocode_status"]
              (mask_rows ((fun v => bool_decide (v ≠ VStr "success")) <$> status) t))
    as [shown|e]; eexists; split; reflexivity.
Qed.

(** X20. The display writes the table to the Excel sheet and stores it
    in the session before anything else. It completes, and offers the
    download, exactly when the table has the columns [geocode_status]
    and [address]; without [geocode_status] it raises [KeyError] at the
    summary, so that the test for that column further down is never
    false when it is reached. *)
Theorem publish_outcome t :
  (publish t).2
  = (if has_column "geocode_status" t
     then if has_column "address" t then Ok tt else Raise (KeyError "address")
     else Raise (KeyError "geocode_status"))
  /\ (existsb is_download_button (publish t).1 = true <-> (publish t).2 = Ok tt)
  /\ [ToExcel "CleanedData" t; SessionState t] `prefix_of` (publish t).1.
Proof.
  split; [apply publish_result |].
  destruct (publish_events t) as (rest & He & Hb). rewrite He. split.
  - cbn [existsb is_download_button orb]. rewrite Hb.
    destruct (publish t).2 as [[]|e]; split; done.
  - by exists rest.
Qed.

Lemma renamed_name_key c raw :
  column_mapping !! c = Some c -> renamed_name raw = c -> raw = c.
Proof.
  intros Hc. unfold renamed_name.
  destruct (column_mapping !! raw) as [c'|] eqn:E; cbn; [| done].
  intros ->. by eapply column_mapping_inj.
Qed.

Lemma renamed_name_other c raw :
  (forall k, column_mapping !! k <> Some c) -> renamed_name raw = c -> raw = c.
Proof.
  intros Hc. unfold renamed_name.
  destruct (column_mapping !! raw) as [c'|] eqn:E; cbn; [| done].
  intros ->. by destruct (Hc raw).
Qed.

Lemma geocode_status_no_target k : column_mapping !! k <> Some "geocode_status".
Proof.
  intros H%elem_of_map_to_list.
  assert (Forall (fun p : string * string => p.2 <> "geocode_status")
            (map_to_list column_mapping)) as Hall
    by (apply (bool_decide_unpack _); by vm_compute).
  by apply (proj1 (Forall_forall _ _) Hall (k, "geocode_status")).
Qed.

Lemma format_stages_absent c df out :
  format_stages R df = Ok out -> c <> "age" ->
  (forall raw, renamed_name raw = c -> raw = c) ->
  c ∉ columns df -> c ∉ columns out.
Proof.
  intros H Hage Hraw Hc. rewrite (format_stages_names R df out H).
  rewrite elem_of_app, list_elem_of_filter, list_elem_of_singleton.
  intros [(raw & Hr & [_ Hin]%list_elem_of_filter)%list_elem_of_fmap|[_ ?]]; [| done].
  symmetry in Hr. apply Hraw in Hr. by subst raw.
Qed.

Lemma enrich_absent c df out :
  (enrich R df).2 = Ok out -> c ∉ columns df ->
  c ∉ ["geocode_status"; "lat"; "lon"] \/ "address" ∉ columns df ->
  c ∉ columns out.
Proof.
  unfold enrich. destruct (get_column "address" df) as [col|] eqn:Hcol.
  - intros H Hc [Hgeo|Ha]; [| by destruct Ha; eapply get_column_elem_of].
    rewrite bind_result in H. cbn [lift snd] in H.
    destruct (clean_address col) as [addresses|]; [| done].
    rewrite bind_result in H.
    destruct (geocode_all R 0 addresses).2 as [rows|]; [| done].
    cbn in H. injection H as <-. unfold set_geocode_results.
    rewrite !elem_of_columns_setitem. rewrite !not_elem_of_cons in Hgeo.
    destruct Hgeo as (G1 & G2 & G3 & _).
    intros [?|[?|[?|[->|?]]]]; try done.
    destruct Hc. by eapply get_column_elem_of.
  - cbn. by intros [= <-].
Qed.

Lemma prepare_absent c df d :
  (prepare R df).2 = Ok d -> c <> "age" ->
  (forall raw, renamed_name raw = c -> raw = c) ->
  c ∉ columns df ->
  c ∉ ["geocode_status"; "lat"; "lon"] \/ "address" ∉ columns df ->
  c ∉ columns d.
Proof.
  intros H Hage Hraw Hc Hgeo. unfold prepare in H.
  rewrite bind_result in H. cbn [lift snd] in H.
  destruct (format_stages R df) as [d1|] eqn:E1; [| done].
  rewrite bind_result in H.
  destruct (enrich R d1).2 as [d2|] eqn:E2; [| done]. cbn [lift snd] in H.
  apply get_column_None. rewrite (reorder_get_column d2 d c H).
  apply get_column_None. eapply enrich_absent; [done | |].
  - by eapply format_stages_absent.
  - destruct Hgeo as [?|Ha]; [by left | right].
    eapply format_stages_absent; try done.
    intros raw. apply renamed_name_key. by vm_compute.
Qed.

Lemma not_suffixed (sfx m c : string) :
  PyStr.endswith sfx c = false -> m +:+ sfx <> c.
Proof. intros Hc <-. by rewrite endswith_app in Hc. Qed.

Lemma right_name_plain left c m :
  PyStr.endswith "_y" c = false ->
  c ∉ ["city"; "district"; "state"; "state_x"] ->
  right_name left m = c -> m = c.
Proof.
  intros Hy Hc. rewrite !not_elem_of_cons in Hc.
  destruct Hc as (C1 & C2 & C3 & C4 & _). unfold right_name, rename1.
  destruct (has_column m left).
  - destruct (decide (m +:+ "_y" = "city")) as [E|_]; [done |].
    case_decide; [congruence |]. by intros ?%not_suffixed.
  - repeat case_decide; congruence.
Qed.

(** A name that neither table has, and that no renaming of the join
    produces, is no column of the joined table. *)
Lemma joined_absent df pc out c :
  reference_join df pc = Ok out ->
  c ∉ columns df -> c ∉ columns pc ->
  PyStr.endswith "_x" c = false -> PyStr.endswith "_y" c = false ->
  c ∉ ["city"; "district"; "state"; "state_x"] ->
  c ∉ columns out.
Proof.
  intros Hout Hdf Hpc Hx Hy Hc.
  destruct (get_column "postcode" df) as [lkeys|] eqn:Hl;
    [| unfold reference_join in Hout; by rewrite (getitem_None _ _ Hl) in Hout].
  destruct (get_column "postcode" pc) as [rkeys|] eqn:Hr;
    [| unfold reference_join in Hout;
       by rewrite (getitem_Some _ _ _ Hl), (getitem_None _ _ Hr) in Hout].
  rewrite (reference_join_frame df pc lkeys rkeys Hl Hr) in Hout.
  injection Hout as <-. rewrite (columns_filter (fun n => n ≠ "state_y")).
  intros [_ Hin]%list_elem_of_filter.
  unfold columns in Hin. rewrite fmap_app, <- !list_fmap_compose in Hin.
  apply elem_of_app in Hin as [Hin|Hin];
    apply list_elem_of_fmap in Hin as ([m col] & Hm & Hin); cbn in Hm; symmetry in Hm.
  - assert (m ∈ columns df) as Hmdf.
    { rewrite <- (columns_set_present "postcode" lkeys (normalize_postcode <$> lkeys) df Hl).
      apply list_elem_of_fmap. by exists (m, col). }
    apply left_name_plain in Hm; [by subst m | | done | done].
    by rewrite (columns_set_present "postcode" rkeys _ pc Hr).
  - apply list_elem_of_filter in Hin as [_ Hin].
    assert (m ∈ columns pc) as Hmpc.
    { rewrite <- (columns_set_present "postcode" rkeys (normalize_postcode <$> rkeys) pc Hr).
      apply list_elem_of_fmap. by exists (m, col). }
    apply right_name_plain in Hm; [by subst m | done | done].
Qed.

(** X21. Records without a postcode field, with a postcode table at
    hand: the run goes through the stages and all geocoding calls and
    then raises [KeyError] at the join, unless a stage raised before.
    Nothing is written, stored or shown. *)
Theorem run_without_postcode df pc :
  empty df = false -> empty pc = false -> "postcode" ∉ columns df ->
  let run := clean_and_process_dataframe R (Some df) pc in
  run.2 = match (prepare R df).2 with
          | Ok _ => Raise (KeyError "postcode")
          | Raise e => Raise e
          end
  /\ run.1 = (prepare R df).1
  /\ Forall (fun e => is_output e = false) run.1.
Proof.
  intros Hdf Hpc Hno run.
  assert (run.2 = match (prepare R df).2 with
                  | Ok _ => Raise (KeyError "postcode")
                  | Raise e => Raise e
                  end
          /\ run.1 = (prepare R df).1) as [H2 H1].
  { unfold run. rewrite run_usable by done. rewrite bind_result, bind_events.
    destruct (prepare R df).2 as [d|e] eqn:Ep; [| by rewrite app_nil_r].
    rewrite Hpc.
    assert (reference_join d pc = Raise (KeyError "postcode")) as ->.
    { unfold reference_join. rewrite getitem_None; [done |].
      apply get_column_None. apply (prepare_absent "postcode" df d Ep); try done.
      - intros raw. apply renamed_name_key. by vm_compute.
      - left. rewrite !not_elem_of_cons. repeat split; try done. apply not_elem_of_nil. }
    rewrite bind_lift_Raise. cbn [fst snd]. by rewrite app_nil_r. }
  split; [done |]. split; [done |]. rewrite H1.
  eapply Forall_impl; [apply prepare_events |].
  intros e. apply geocode_call_no_output.
Qed.

(** X22. Records without an address field, where neither the records
    nor the postcode table have a [geocode_status] column: the run
    always ends in an exception and never offers the download. When
    the stages and the join succeed, the table is stored in the session
    first, and the exception is the [KeyError] of the geocoding
    summary. *)
Theorem run_without_address df pc :
  empty df = false -> empty pc = false ->
  "address" ∉ columns df ->
  "geocode_status" ∉ columns df -> "geocode_status" ∉ columns pc ->
  let run := clean_and_process_dataframe R (Some df) pc in
  run.2 = match (prepare R df).2 with
          | Ok d =>
              match reference_join d pc with
              | Ok _ => Raise (KeyError "geocode_status")
              | Raise e => Raise e
              end
          | Raise e => Raise e
          end
  /\ Forall (fun e => is_download_button e = false) run.1
  /\ forall d out,
       (prepare R df).2 = Ok d -> reference_join d pc = Ok out ->
       SessionState (add_new_columns out) ∈ run.1.
Proof.
  intros Hdf Hpc Ha Hg Hgpc run. unfold run.
  rewrite run_usable by done. rewrite bind_result, bind_events, Hpc.
  assert (Forall (fun e => is_download_button e = false) (prepare R df).1) as Hp.
  { eapply Forall_impl; [apply prepare_events |]. by intros []. }
  destruct (prepare R df).2 as [d|e] eqn:Ep.
  2:{ rewrite app_nil_r. split; [done |]. split; [done |]. by intros. }
  destruct (reference_join d pc) as [out|e] eqn:Ej.
  2:{ rewrite bind_lift_Raise. cbn [fst snd]. rewrite app_nil_r.
      split; [done |]. split; [done |]. intros d' out' [= <-] Hj.
      by rewrite Ej in Hj. }
  rewrite bind_lift_Ok.
  assert (has_column "geocode_status" (add_new_columns out) = false) as Hno.
  { apply has_column_false, get_column_None.
    rewrite add_new_columns_other
      by (unfold flag_columns; rewrite !not_elem_of_cons; repeat split;
          try done; apply not_elem_of_nil).
    apply get_column_None. eapply joined_absent; try done.
    - apply (prepare_absent "geocode_status" df d Ep); try done.
      + intros raw. apply renamed_name_other, geocode_status_no_target.
      + by right.
    - rewrite !not_elem_of_cons. repeat split; try done. apply not_elem_of_nil. }
  pose proof (publish_result (add_new_columns out)) as Hr. rewrite Hno in Hr.
  destruct (publish_events (add_new_columns out)) as (rest & He & Hb).
  rewrite Hr in Hb. split; [done |]. split.
  - apply Forall_app. split; [done |]. rewrite He.
    repeat (constructor; [done |]).
    apply Forall_forall. intros e He'.
    destruct (is_download_button e) eqn:Hd; [| done].
    assert (existsb is_download_button rest = true) as Hex
      by (apply existsb_exists; exists e; split; [by apply list_elem_of_In | done]).
    congruence.
  - intros d' out' [= <-] Hj. rewrite Ej in Hj. injection Hj as <-.
    rewrite elem_of_app. right. rewrite He.
    apply list_elem_of_further, list_elem_of_here.
Qed.

End Crashes.

Lemma run_without_postcode_witness :
  (clean_and_process_dataframe example_runtime
     (Some example_raw_without_postcode) example_postcodes).2
  = Raise (KeyError "postcode").
Proof.
  destruct (run_without_postcode example_runtime
              example_raw_without_postcode example_postcodes) as [H _].
  - reflexivity.
  - reflexivity.
  - apply (bool_decide_unpack _). by vm_compute.
  - exact H.
Defined.

Lemma run_without_address_witness :
  (clean_and_process_dataframe example_runtime
     (Some example_raw_without_address) example_postcodes).2
  = Raise (KeyError "geocode_status").
Proof.
  destruct (run_without_address example_runtime
              example_raw_without_address example_postcodes) as [H _].
  - reflexivity.
  - reflexivity.
  - apply (bool_decide_unpack _). by vm_compute.
  - apply (bool_decide_unpack _). by vm_compute.
  - apply (bool_decide_unpack _). by vm_compute.
  - exact H.
Defined.

(** ** The records in the stored table *)

Section Records.
Context (R : Runtime).
Implicit Types (df pc out t : DataFrame) (c : string) (col : column).

Lemma reference_join_postcodes df pc out :
  reference_join df pc = Ok out ->
  exists lkeys rkeys,
    get_column "postcode" df = Some lkeys /\ get_column "postcode" pc = Some rkeys.
Proof.
  intros Hout. unfold reference_join in Hout.
  destruct (get_column "postcode" df) as [lkeys|] eqn:Hl;
    [| by rewrite (getitem_None _ _ Hl) in Hout].
  destruct (get_column "postcode" pc) as [rkeys|] eqn:Hr;
    [| by rewrite (getitem_Some _ _ _ Hl), (getitem_None _ _ Hr) in Hout].
  by exists lkeys, rkeys.
Qed.

(** The joined table has the [postcode] column of the records. *)
Lemma joined_postcode df pc out :
  reference_join df pc = Ok out -> "postcode" ∈ columns out.
Proof.
  intros Hout.
  destruct (reference_join_postcodes df pc out Hout) as (lkeys & rkeys & Hl & Hr).
  rewrite (reference_join_frame df pc lkeys rkeys Hl Hr) in Hout.
  injection Hout as <-. rewrite (columns_filter (fun n => n ≠ "state_y")).
  apply list_elem_of_filter. split; [done |].
  unfold columns. rewrite fmap_app, elem_of_app. left.
  apply list_elem_of_fmap.
  exists ("postcode", take_left (join_pairs (normalize_postcode <$> lkeys)
                                   (normalize_postcode <$> rkeys))
                        (normalize_postcode <$> lkeys)).
  split; [done |]. apply list_elem_of_fmap.
  exists ("postcode", normalize_postcode <$> lkeys). split; [done |].
  unfold setitem.
  rewrite (proj2 (has_column_true _ _) (get_column_elem_of _ _ _ Hl)).
  apply get_column_elem_of in Hl. unfold columns in Hl.
  apply list_elem_of_fmap in Hl as ([m col] & Hm & Hin). cbn in Hm. subst m.
  apply list_elem_of_fmap. exists ("postcode", col). split; [| done].
  cbn. by rewrite decide_True.
Qed.

(** X23. No record is lost: a table that a run on well-formed records
    with an [address] column writes or stores has at least as many rows
    as there are records, and exactly as many when the trimmed
    postcodes of the reference table are distinct. *)
Theorem run_keeps_records df pc (n : nat) rkeys (e : event) t :
  uniform n df -> "address" ∈ columns df ->
  get_column "postcode" pc = Some rkeys ->
  e ∈ (clean_and_process_dataframe R (Some df) pc).1 ->
  stored_table e = Some t ->
  (n <= nrows t)%nat
  /\ (NoDup (normalize_postcode <$> rkeys) -> nrows t = n).
Proof.
  intros Hu Ha Hr He Ht.
  destruct (run_tables R (Some df) pc e t He Ht)
    as (d & prepared & combined_df & [= <-] & _ & _ & Hp & Hj & ->).
  destruct (prepare_inv R n df prepared Hu Ha Hp) as [Hup _].
  destruct (reference_join_postcodes prepared pc combined_df Hj)
    as (lkeys & rkeys' & Hl & Hr').
  rewrite Hr in Hr'. injection Hr' as <-.
  destruct (joined_length prepared pc lkeys rkeys Hl Hr) as (out & Hout & Huo).
  rewrite Hj in Hout. injection Hout as <-.
  assert (combined_df <> []) as Hne.
  { intros ->. by pose proof (joined_postcode _ _ _ Hj) as ?%elem_of_nil. }
  rewrite nrows_add_new_columns, (uniform_nrows _ _ Huo Hne).
  assert (length lkeys = n) as Hlen by by eapply get_column_uniform.
  split.
  - rewrite length_join_pairs. rewrite <- Hlen. clear.
    induction lkeys as [|k l IH]; cbn; lia.
  - intros Hnd. by rewrite length_join_pairs_NoDup, length_fmap.
Qed.

End Records.

Lemma run_keeps_records_witness : (1 <= nrows flags_final)%nat.
Proof.
  apply (run_keeps_records example_runtime flags_raw example_postcodes 1
           [VInt 43000; VStr "01000 "] (SessionState flags_final) flags_final).
  - by repeat constructor.
  - apply (bool_decide_unpack _). by vm_compute.
  - reflexivity.
  - apply flags_final_stored.
  - reflexivity.
Defined.

(** ** Upper case *)

Section Uppercase.
Context (R : Runtime).
Implicit Types (df out : DataFrame) (c : string) (col : column).

Lemma uppercase_column_result c df :
  uppercase_column R c df
  = match get_column c df with
    | Some col =>
        if holds_text col
        then Ok (setitem c ((fun v => match v with
                                      | VStr s => VStr (str_upper R s)
                                      | VNone => VNone
                                      | _ => VNaN
                                      end) <$> col) df)
        else Raise AttributeError
    | None => Ok df
    end.
Proof.
  unfold uppercase_column, series_str_upper.
  destruct (get_column c df) as [col|]; [| done]. by destruct (holds_text col).
Qed.

(** X24. For a frame with one [name] and one [address] column at
    most, [format_uppercase] raises exactly when one of the two is
    there and its cells are not text for pandas (the cells that are not
    missing are only numbers or only booleans, or every cell is NaN),
    and the exception is [AttributeError]. When it succeeds the column names
    are as before, every other column is untouched, and in the two
    columns a [None] stays and a cell that is no text becomes NaN. *)
Theorem format_uppercase_spec df :
  single_label "name" df -> single_label "address" df ->
  (format_uppercase R df = Raise AttributeError
   <-> exists c col, c ∈ ["name"; "address"]
                     /\ get_column c df = Some col /\ holds_text col = false)
  /\ (forall e, format_uppercase R df = Raise e -> e = AttributeError)
  /\ forall out, format_uppercase R df = Ok out ->
       columns out = columns df
       /\ (forall c, c ∉ ["name"; "address"] -> get_column c out = get_column c df)
       /\ forall c col k v, c ∈ ["name"; "address"] ->
            get_column c df = Some col -> col !! k = Some v -> is_text v = false ->
            cell out c k = Some (if decide (v = VNone) then VNone else VNaN).
Proof.
  intros _ _.
  unfold format_uppercase. rewrite (uppercase_column_result "name" df).
  destruct (get_column "name" df) as [ncol|] eqn:Hn.
  - destruct (holds_text ncol) eqn:Hnt; cbn [rbind].
    + set (ncol' := _ <$> ncol). rewrite uppercase_column_result.
      rewrite setitem_get_ne by done.
      destruct (get_column "address" df) as [acol|] eqn:Ha.
      * destruct (holds_text acol) eqn:Hat.
        -- split; [| split; [done |]].
           { split; [done |]. intros (c & col & Hc & Hcol & Hh).
             rewrite !elem_of_cons in Hc.
             destruct Hc as [->|[->|?%elem_of_nil]]; [| | done]; congruence. }
           intros out [= <-]. split; [| split].
           ++ rewrite (columns_set_present "address" acol)
                by by rewrite setitem_get_ne.
              by rewrite (columns_set_present "name" ncol).
           ++ intros c Hc. rewrite !not_elem_of_cons in Hc.
              destruct Hc as (C1 & C2 & _). by rewrite !setitem_get_ne.
           ++ intros c col k v Hc Hcol Hk Hv. rewrite !elem_of_cons in Hc.
              unfold cell.
              destruct Hc as [->|[->|?%elem_of_nil]]; [| | done].
              ** rewrite setitem_get_ne by done. rewrite setitem_get_eq. cbn.
                 rewrite Hn in Hcol. injection Hcol as <-.
                 unfold ncol'. rewrite list_lookup_fmap, Hk. by destruct v.
              ** rewrite setitem_get_eq. cbn.
                 rewrite Ha in Hcol. injection Hcol as <-.
                 rewrite list_lookup_fmap, Hk. by destruct v.
        -- split; [| split; [by intros e [= <-] | done]].
           split; [| done]. intros _. exists "address", acol.
           rewrite !elem_of_cons. tauto.
      * split; [| split; [done |]].
        { split; [done |]. intros (c & col & Hc & Hcol & Hh).
          rewrite !elem_of_cons in Hc.
          destruct Hc as [->|[->|?%elem_of_nil]]; [| | done]; congruence. }
        intros out [= <-]. split; [| split].
        -- by rewrite (columns_set_present "name" ncol).
        -- intros c Hc. rewrite !not_elem_of_cons in Hc.
           destruct Hc as (C1 & C2 & _). by rewrite !setitem_get_ne.
        -- intros c col k v Hc Hcol Hk Hv. rewrite !elem_of_cons in Hc.
           unfold cell.
           destruct Hc as [->|[->|?%elem_of_nil]]; [| congruence | done].
           rewrite setitem_get_eq. cbn.
           rewrite Hn in Hcol. injection Hcol as <-.
           unfold ncol'. rewrite list_lookup_fmap, Hk. by destruct v.
    + split; [| split; [by intros e [= <-] | done]].
      split; [| done]. intros _. exists "name", ncol.
      rewrite !elem_of_cons. tauto.
  - cbn [rbind]. rewrite uppercase_column_result.
    destruct (get_column "address" df) as [acol|] eqn:Ha.
    + destruct (holds_text acol) eqn:Hat.
      * split; [| split; [done |]].
        { split; [done |]. intros (c & col & Hc & Hcol & Hh).
          rewrite !elem_of_cons in Hc.
          destruct Hc as [->|[->|?%elem_of_nil]]; [| | done]; congruence. }
        intros out [= <-]. split; [| split].
        -- by rewrite (columns_set_present "address" acol).
        -- intros c Hc. rewrite !not_elem_of_cons in Hc.
           destruct Hc as (C1 & C2 & _). by rewrite !setitem_get_ne.
        -- intros c col k v Hc Hcol Hk Hv. rewrite !elem_of_cons in Hc.
           unfold cell.
           destruct Hc as [->|[->|?%elem_of_nil]]; [congruence | | done].
           rewrite setitem_get_eq. cbn.
           rewrite Ha in Hcol. injection Hcol as <-.
           rewrite list_lookup_fmap, Hk. by destruct v.
      * split; [| split; [by intros e [= <-] | done]].
        split; [| done]. intros _. exists "address", acol.
        rewrite !elem_of_cons. tauto.
    + split; [| split; [done |]].
      { split; [done |]. intros (c & col & Hc & Hcol & Hh).
        rewrite !elem_of_cons in Hc.
        destruct Hc as [->|[->|?%elem_of_nil]]; [| | done]; congruence. }
      intros out [= <-]. split; [done |]. split; [done |].
      intros c col k v Hc Hcol Hk Hv. rewrite !elem_of_cons in Hc.
      destruct Hc as [->|[->|?%elem_of_nil]]; [congruence | congruence | done].
Qed.

End Uppercase.

Lemma format_uppercase_spec_witness :
  format_uppercase example_runtime [("name", [VBool true; VNone])]
  = Raise AttributeError.
Proof.
  apply (format_uppercase_spec example_runtime [("name", [VBool true; VNone])]).
  - vm_compute. lia.
  - vm_compute. lia.
  - exists "name", [VBool true; VNone].
    split; [apply list_elem_of_here |]. split; reflexivity.
Defined.
